(** * gw2_tp_alerts: trading-post price alerts

    A shallow embedding of [gw2_tp_alerts.py]: the price text format
    ([format_price], [parse_price_input]), the SQLite-backed store (class
    [DB]), the market client (class [GW2API]), one iteration of the
    polling loop ([monitor_mode]), the notifier (class [DiscordNotify]), the
    commands ([actionAdd], [actionDel], [actionThreshold], [clean_all_data],
    [view_logs]) and the status column of [print_status], followed by the
    properties proved about them.

    Conventions of the embedding
    - Python [int] values and SQLite INTEGER columns are [Z].  The
      interpreter and the database each put a bound on what they convert:
      a number is read from, or printed as, at most 4300 decimal digits
      ([PyStr.int_in_limit], [PyStr.str_in_limit]), and an integer bound to
      a statement fits 64 bits ([DB.fits]).  The conversions and the
      methods of the store are modelled within these bounds, and the
      properties of what the caller supplies are stated within them.
    - Python [str] is [string], and [list ascii] where the parser takes a
      text apart; an [ascii] stands for the code point of the same number
      (0..255).
    - [time.time()] is a rational number of seconds ([Q]); every call of it
      is a separate reading supplied by the environment.
    - The database file is a value of type [DB.t] threaded through every
      operation; a raised exception is a constructor of the result. *)

From Stdlib Require Import ZArith QArith Qround Bool List String Ascii Lia.
From Stdlib Require Import DecimalString.
From Stdlib Require Decimal DecimalPos DecimalZ Sorted.
Import ListNotations.

Local Open Scope string_scope.
Local Open Scope list_scope.
Local Open Scope Z_scope.

(** ** Configuration constants *)

Definition CHECK_INTERVAL : Z := 300.
Definition RATE_LIMIT_RETRY : Z := 1200.

(** ** Python text primitives used by the price functions *)

Module PyStr.

(** A text that the parser takes apart, as the list of its characters. *)
Definition t : Type := list ascii.

Definition of_string (s : string) : t := list_ascii_of_string s.

Definition code (c : ascii) : N := N_of_ascii c.

(** [c.isspace()] for a code point below 256: TAB, LF, VT, FF, CR, the
    separators FS, GS, RS, US, the space, NEL and NBSP. *)
Definition is_space (c : ascii) : bool :=
  let n := code c in
  ((9 <=? n) && (n <=? 13) || (28 <=? n) && (n <=? 32)
   || (n =? 133) || (n =? 160))%N.

(** [\d] of module [re] on text: a decimal digit.  Below 256 the only
    decimal digits are ["0"] to ["9"]. *)
Definition is_digit (c : ascii) : bool :=
  let n := code c in ((48 <=? n) && (n <=? 57))%N.

(** [c.lower()] for a code point below 256: the letters A-Z, and the
    accented capitals U+00C0 to U+00DE except the multiplication sign. *)
Definition lower_char (c : ascii) : ascii :=
  let n := code c in
  if ((65 <=? n) && (n <=? 90)
      || (192 <=? n) && (n <=? 222) && negb (n =? 215))%N
  then ascii_of_N (n + 32) else c.

(** [s.lower()] *)
Definition lower (s : t) : t := map lower_char s.

Fixpoint lstrip (s : t) : t :=
  match s with
  | [] => []
  | c :: s' => if is_space c then lstrip s' else s
  end.

Fixpoint rstrip (s : t) : t :=
  match s with
  | [] => []
  | c :: s' =>
      match rstrip s' with
      | [] => if is_space c then [] else [c]
      | r => c :: r
      end
  end.

(** [s.strip()] *)
Definition strip (s : t) : t := rstrip (lstrip s).

(** One or more decimal digits. *)
Definition digit_run (s : t) : Prop :=
  s <> [] /\ Forall (fun c => is_digit c = true) s.

Definition digit_value (c : ascii) : Z := Z.of_N (code c) - 48.

(** CPython converts between [int] and [str] up to
    [sys.get_int_max_str_digits()] decimal digits, 4300 unless configured
    otherwise, and raises [ValueError] beyond.  [int_of_digits] and
    [str_of_int] are the two conversions within that limit, which
    [int_in_limit] and [str_in_limit] express for a text and for a number. *)
Definition MAX_STR_DIGITS : nat := 4300.

Fixpoint digit_runs (current longest : nat) (s : t) : nat :=
  match s with
  | [] => Nat.max current longest
  | c :: rest =>
      if is_digit c then digit_runs (S current) longest rest
      else digit_runs 0 (Nat.max current longest) rest
  end.

(** The length of the longest run of decimal digits of a text. *)
Definition longest_digit_run (s : t) : nat := digit_runs 0 0 s.

(** No [int(...)] of a run of digits of [s] exceeds the limit. *)
Definition int_in_limit (s : t) : Prop :=
  (longest_digit_run s <=? MAX_STR_DIGITS)%nat = true.

(** [str(n)] does not exceed the limit. *)
Definition str_in_limit (n : Z) : Prop :=
  (Z.abs n <? 10 ^ Z.of_nat MAX_STR_DIGITS) = true.

(** [int(s)] on a run of decimal digits, within the limit. *)
Definition int_of_digits (s : t) : Z :=
  fold_left (fun acc c => 10 * acc + digit_value c) s 0.

(** [str(n)], which is also what [f"{n}"] prints, within the limit. *)
Definition str_of_int (n : Z) : string := NilZero.string_of_int (Z.to_int n).

Fixpoint zeros (k : nat) : string :=
  match k with
  | O => EmptyString
  | S k' => String "0" (zeros k')
  end.

(** [f"{n:02d}"]: the sign, then the digits padded with zeros so that the
    whole field is at least two characters wide. *)
Definition format_02d (n : Z) : string :=
  let digits := str_of_int (Z.abs n) in
  let sign := if n <? 0 then "-" else "" in
  (sign ++ zeros (2 - String.length sign - String.length digits) ++ digits)%string.

End PyStr.

(** ** The fragment of [re] used by [parse_price_input] *)

Module Re.

(** Patterns: [^], [$], a literal character, [\d+], concatenation, [r?]
    and a capturing group [(r)]. *)
Inductive regex : Type :=
| Bol
| Eol
| Chr (c : ascii)
| Digits1
| Seq (r1 r2 : regex)
| Opt (r : regex)
| Group (r : regex).

(** Captured texts, in the order in which their groups close. *)
Definition captures : Type := list PyStr.t.

(** What is left to match after a pattern: position, rest of the text and
    captures so far. *)
Definition cont : Type := nat -> PyStr.t -> captures -> option captures.

Definition or_else (a b : option captures) : option captures :=
  match a with
  | Some _ => a
  | None => b
  end.

(** [\d+] is greedy: it takes one more digit whenever it can, and gives
    digits back one at a time when what follows fails. *)
Fixpoint digits1 (n : nat) (s : PyStr.t)
         (k : nat -> PyStr.t -> option captures) : option captures :=
  match s with
  | [] => None
  | c :: s' =>
      if PyStr.is_digit c
      then or_else (digits1 (S n) s' k) (k (S n) s')
      else None
  end.

(** The text between two positions of a match: the first [n' - n]
    characters of the text that was left at position [n]. *)
Definition consumed (n : nat) (s : PyStr.t) (n' : nat) : PyStr.t :=
  firstn (n' - n) s.

(** Backtracking matcher.  [n] is the position of [s] in the whole text;
    [$] holds at the end and just before a final line feed. *)
Fixpoint run (r : regex) (n : nat) (s : PyStr.t) (caps : captures) (k : cont)
  : option captures :=
  match r with
  | Bol => if Nat.eqb n 0 then k n s caps else None
  | Eol =>
      match s with
      | [] => k n s caps
      | [c] => if Ascii.eqb c "010" then k n s caps else None
      | _ => None
      end
  | Chr c =>
      match s with
      | c' :: s' => if Ascii.eqb c' c then k (S n) s' caps else None
      | [] => None
      end
  | Digits1 => digits1 n s (fun n' s' => k n' s' caps)
  | Seq r1 r2 => run r1 n s caps (fun n' s' caps' => run r2 n' s' caps' k)
  | Opt r' => or_else (run r' n s caps k) (k n s caps)
  | Group r' =>
      run r' n s caps
          (fun n' s' caps' => k n' s' (caps' ++ [consumed n s n']))
  end.

Definition accept : cont := fun _ _ caps => Some caps.

(** [re.match(r, text)]: a match starting at position 0. *)
Definition re_match (r : regex) (text : PyStr.t) : option captures :=
  run r 0 text [] accept.

(** [re.search(r, text)]: the match at the leftmost position that has
    one. *)
Fixpoint search_from (r : regex) (n : nat) (s : PyStr.t) : option captures :=
  or_else (run r n s [] accept)
          match s with
          | [] => None
          | _ :: s' => search_from r (S n) s'
          end.

Definition re_search (r : regex) (text : PyStr.t) : option captures :=
  search_from r 0 text.

(** [m.group(1)] of a pattern with one group. *)
Definition group1 (m : captures) : PyStr.t := hd [] m.

(** The meaning of a pattern, stated apart from the matcher:
    [Matches r n s caps n' s' caps'] says that [r] can match from position
    [n], where [s] is left, to position [n'], where [s'] is left, taking
    the captures from [caps] to [caps']. *)
Inductive Matches
  : regex -> nat -> PyStr.t -> captures -> nat -> PyStr.t -> captures -> Prop :=
| MBol s caps : Matches Bol 0 s caps 0 s caps
| MEol n s caps :
    s = [] \/ s = ["010"%char] -> Matches Eol n s caps n s caps
| MChr c n s caps : Matches (Chr c) n (c :: s) caps (S n) s caps
| MDigits n ds s caps :
    PyStr.digit_run ds ->
    Matches Digits1 n (ds ++ s) caps (n + List.length ds) s caps
| MSeq r1 r2 n s caps n1 s1 caps1 n2 s2 caps2 :
    Matches r1 n s caps n1 s1 caps1 ->
    Matches r2 n1 s1 caps1 n2 s2 caps2 ->
    Matches (Seq r1 r2) n s caps n2 s2 caps2
| MOptSkip r n s caps : Matches (Opt r) n s caps n s caps
| MOptTake r n s caps n' s' caps' :
    Matches r n s caps n' s' caps' -> Matches (Opt r) n s caps n' s' caps'
| MGroup r n s caps n' s' caps' :
    Matches r n s caps n' s' caps' ->
    Matches (Group r) n s caps n' s' (caps' ++ [consumed n s n']).

End Re.

(** ** Price text *)

(** Python's [ValueError] raised by [parse_price_input]; the specification
    calls it InvalidPriceFormat. *)
Inductive price_result : Type :=
| Price (copper : Z)
| InvalidPriceFormat.

(** [f"{gold}g{silver:02d}s{copper:02d}c"] *)
Definition format_price (copper : Z) : string :=
  let gold := copper / 10000 in
  let silver := (copper mod 10000) / 100 in
  let copper := copper mod 100 in
  (PyStr.str_of_int gold ++ "g" ++ PyStr.format_02d silver ++ "s"
     ++ PyStr.format_02d copper ++ "c")%string.

(** [\d+] followed by a unit letter, inside a group: [(\d+g)]. *)
Definition unit_group (u : ascii) : Re.regex :=
  Re.Group (Re.Seq Re.Digits1 (Re.Chr u)).

(** [r'^(\d+g)?(\d+s)?(\d+c)?$'] *)
Definition price_pattern : Re.regex :=
  Re.Seq Re.Bol
    (Re.Seq (Re.Opt (unit_group "g"))
       (Re.Seq (Re.Opt (unit_group "s"))
          (Re.Seq (Re.Opt (unit_group "c")) Re.Eol))).

(** [r'(\d+)g'], [r'(\d+)s'] and [r'(\d+)c'] *)
Definition amount_pattern (u : ascii) : Re.regex :=
  Re.Seq (Re.Group Re.Digits1) (Re.Chr u).

(** [if m: copper += int(m.group(1)) * k] for [m = re.search(..., price_str)] *)
Definition add_amount (u : ascii) (k : Z) (price_str : PyStr.t) (copper : Z) : Z :=
  match Re.re_search (amount_pattern u) price_str with
  | Some m => copper + PyStr.int_of_digits (Re.group1 m) * k
  | None => copper
  end.

(** [parse_price_input] on the characters of its argument. *)
Definition parse_price_chars (price_str : PyStr.t) : price_result :=
  let price_str := PyStr.lower (PyStr.strip price_str) in
  match Re.re_match price_pattern price_str with
  | None => InvalidPriceFormat
  | Some _ =>
      let copper := 0 in
      let copper := add_amount "g" 10000 price_str copper in
      let copper := add_amount "s" 100 price_str copper in
      let copper := add_amount "c" 1 price_str copper in
      Price copper
  end.

Definition parse_price_input (price_str : string) : price_result :=
  parse_price_chars (PyStr.of_string price_str).

(** ** Python dictionaries with integer keys, in insertion order *)

Module PyDict.

Definition t (V : Type) : Type := list (Z * V).

(** [d[k] = v]: an existing key keeps its place, a new key goes last. *)
Fixpoint set {V : Type} (k : Z) (v : V) (d : t V) : t V :=
  match d with
  | [] => [(k, v)]
  | (k', v') :: d' =>
      if k' =? k then (k', v) :: d' else (k', v') :: set k v d'
  end.

(** [d[k]]; [None] stands for [KeyError]. *)
Fixpoint get {V : Type} (k : Z) (d : t V) : option V :=
  match d with
  | [] => None
  | (k', v') :: d' => if k' =? k then Some v' else get k d'
  end.

(** [{key(x): value(x) for x in xs}] and the loops that fill a dictionary
    one entry at a time. *)
Definition build {A V : Type} (key : A -> Z) (value : A -> V) (xs : list A)
  : t V :=
  fold_left (fun d x => set (key x) (value x) d) xs [].

End PyDict.

(** ** The store: class [DB] *)

Module DB.

(** A row of table [items]. *)
Record Item : Type := mkItem {
  id : Z;
  name : string;
  buy_threshold : Z;
  sell_threshold : Z;
  lowest_seen : Z;
  last_buy_price : Z;
  last_sell_price : Z;
  icon_url : string
}.

(** A row of table [state]. *)
Record State : Type := mkState {
  last_run : Z;
  limit_until : Z;
  custom_dir : option string
}.

(** The database file: both tables, rows in the order a full scan returns
    them ([items] has an integer primary key, so that is ascending [id]). *)
Record t : Type := mk {
  items_tbl : list Item;
  state_tbl : list State
}.

(** [DEFAULT 999999999] of column [lowest_seen], also the value written by
    [itemThreshold]. *)
Definition LOWEST_SEEN_RESET : Z := 999999999.

Definition empty : t := mk [] [].

(** sqlite3 binds a Python [int] to a statement as a signed 64-bit INTEGER,
    and raises [OverflowError] before the statement runs for one that does
    not fit.  The methods below are what their statements do with parameters
    that fit. *)
Definition fits (value : Z) : Prop := - 2 ^ 63 <= value < 2 ^ 63.

(** The same for a parameter that is bound only when it is given. *)
Definition fits_if_given (value : option Z) : Prop :=
  match value with
  | Some given => fits given
  | None => True
  end.

(** [DB()]: what [__init__] and [__migrate] do to the data of a database
    that has the current schema: the state table gets its row when it has
    none. *)
Definition init (db : t) : t :=
  if (List.length (state_tbl db) <? 1)%nat
  then mk (items_tbl db) (state_tbl db ++ [mkState 0 0 None])
  else db.

(** The constraint [PRIMARY KEY(id)] of table [items]. *)
Definition primary_key (db : t) : Prop := NoDup (map id (items_tbl db)).

(** [db.limit_until] ([__getattr__]): the column of the first row;
    [None] stands for the [TypeError] of subscripting no row. *)
Definition get_limit_until (db : t) : option Z :=
  match state_tbl db with
  | [] => None
  | row :: _ => Some (limit_until row)
  end.

(** [db.limit_until = value] ([__setattr__]): an [UPDATE] without
    [WHERE]. *)
Definition set_limit_until (value : Z) (db : t) : t :=
  mk (items_tbl db)
     (map (fun row => mkState (last_run row) value (custom_dir row))
          (state_tbl db)).

(** [{each['id']: each for each in cursor.fetchall()}] *)
Definition items (db : t) : PyDict.t Item :=
  PyDict.build id (fun each => each) (items_tbl db).

(** [cursor.rowcount] after [UPDATE ... WHERE id = ?] or
    [DELETE ... WHERE id = ?]. *)
Definition rowcount (itemId : Z) (db : t) : Z :=
  Z.of_nat (List.length (filter (fun row => id row =? itemId) (items_tbl db))).

(** [UPDATE items SET ... WHERE id = ?] *)
Definition update_where_id (itemId : Z) (f : Item -> Item) (db : t) : t :=
  mk (map (fun row => if id row =? itemId then f row else row) (items_tbl db))
     (state_tbl db).

Definition update_prices (db : t) (itemId buy_price sell_price : Z)
           (lowest_seen : option Z) : t * bool :=
  let set_row row :=
    match lowest_seen with
    | Some lowest =>
        mkItem (id row) (name row) (buy_threshold row) (sell_threshold row)
               lowest buy_price sell_price (icon_url row)
    | None =>
        mkItem (id row) (name row) (buy_threshold row) (sell_threshold row)
               (DB.lowest_seen row) buy_price sell_price (icon_url row)
    end in
  (update_where_id itemId set_row db, rowcount itemId db =? 1).

(** The [ValueError] of [itemAdd]; the specification calls it
    DuplicateItem. *)
Inductive add_result : Type :=
| Added
| DuplicateItem.

(** A new row takes its place in primary-key order. *)
Fixpoint insert_row (row : Item) (rows : list Item) : list Item :=
  match rows with
  | [] => [row]
  | row' :: rest =>
      if id row <? id row' then row :: rows else row' :: insert_row row rest
  end.

(** [SELECT COUNT( * ) FROM items WHERE id = ? OR name = ?] *)
Definition count_id_or_name (itemId : Z) (itemName : string) (db : t) : Z :=
  Z.of_nat (List.length (filter (fun row => (id row =? itemId)
                                       || String.eqb (name row) itemName)
                           (items_tbl db))).

Definition itemAdd (db : t) (itemId : Z) (itemName iconUrl : string)
           (buy_threshold sell_threshold : Z) : t * add_result :=
  if count_id_or_name itemId itemName db >? 0
  then (db, DuplicateItem)
  else (mk (insert_row (mkItem itemId itemName buy_threshold sell_threshold
                               LOWEST_SEEN_RESET 0 0 iconUrl)
                       (items_tbl db))
           (state_tbl db),
        Added).

Definition itemDel (db : t) (itemId : Z) : t * bool :=
  (mk (filter (fun row => negb (id row =? itemId)) (items_tbl db))
      (state_tbl db),
   rowcount itemId db =? 1).

(** With neither threshold given no statement runs and [cursor.rowcount]
    is still -1. *)
Definition itemThreshold (db : t) (itemId : Z)
           (buy_threshold sell_threshold : option Z) : t * bool :=
  match buy_threshold, sell_threshold with
  | Some b, Some s =>
      (update_where_id itemId
         (fun row => mkItem (id row) (name row) b s LOWEST_SEEN_RESET
                            (last_buy_price row) (last_sell_price row)
                            (icon_url row)) db,
       rowcount itemId db =? 1)
  | Some b, None =>
      (update_where_id itemId
         (fun row => mkItem (id row) (name row) b (DB.sell_threshold row)
                            LOWEST_SEEN_RESET
                            (last_buy_price row) (last_sell_price row)
                            (icon_url row)) db,
       rowcount itemId db =? 1)
  | None, Some s =>
      (update_where_id itemId
         (fun row => mkItem (id row) (name row) (DB.buy_threshold row) s
                            LOWEST_SEEN_RESET
                            (last_buy_price row) (last_sell_price row)
                            (icon_url row)) db,
       rowcount itemId db =? 1)
  | None, None => (db, -1 =? 1)
  end.

End DB.

(** ** Clock readings *)

Module Clock.

(** [a < b] on numbers. *)
Definition ltb (a b : Q) : bool := negb (Qle_bool b a).

(** [int(x)] of a float: rounding toward zero. *)
Definition int (x : Q) : Z :=
  if Qle_bool 0 x then Qfloor x else Qceiling x.

(** [min(a, b)] *)
Definition min (a b : Q) : Q := if ltb b a then b else a.

End Clock.

(** ** The market client: class [GW2API] *)

Module GW2API.

(** An order of the order book: [{'unit_price': _, 'quantity': _}]. *)
Record Order : Type := mkOrder {
  unit_price : Z;
  quantity : Z
}.

(** An element of the decoded answer of [/v2/commerce/listings]. *)
Record Entry : Type := mkEntry {
  entry_id : Z;
  buys : list Order;
  sells : list Order
}.

(** What [listings] keeps for an item. *)
Record Listing : Type := mkListing {
  buy : Order;
  sell : Order
}.

(** An element of the decoded answer of [/v2/items], and what [items]
    keeps of it. *)
Record Meta : Type := mkMeta {
  meta_id : Z;
  meta_name : string;
  meta_icon : string
}.

(** What [urllib.request.urlopen] does: it returns a response, whose body
    decodes to JSON or does not, or raises [HTTPError] with a status code,
    or raises something else ([URLError]). *)
Inductive response (J : Type) : Type :=
| Response (body : option J)
| HTTPError (code : Z)
| URLError.
Arguments Response {J} body.
Arguments HTTPError {J} code.
Arguments URLError {J}.

(** The outcome of a call of the client. *)
Inductive outcome (A : Type) : Type :=
| Returned (a : A)
| RateLimitHitException
| OtherException.
Arguments Returned {A} a.
Arguments RateLimitHitException {A}.
Arguments OtherException {A}.

(** [__fetch]: [now] is the reading of [time.time()] taken when the
    answer is 429. *)
Definition fetch {J : Type} (now : Q) (resp : response J) (db : DB.t)
  : DB.t * outcome J :=
  match resp with
  | Response body =>
      let db := DB.set_limit_until 0 (DB.init db) in
      match body with
      | Some json => (db, Returned json)
      | None => (db, OtherException)
      end
  | HTTPError code =>
      if code =? 429
      then (DB.set_limit_until (Clock.int now + RATE_LIMIT_RETRY) (DB.init db),
            RateLimitHitException)
      else (db, OtherException)
  | URLError => (db, OtherException)
  end.

Definition no_order : Order := mkOrder 0 0.

(** [i['buys'][0] if i['buys'] else {'unit_price': 0, 'quantity': 0}] *)
Definition first_order (orders : list Order) : Order :=
  match orders with
  | first :: _ => first
  | [] => no_order
  end.

Definition listing_of (i : Entry) : Listing :=
  let buy_order := first_order (buys i) in
  let sell_order := first_order (sells i) in
  mkListing (mkOrder (unit_price buy_order) (quantity buy_order))
            (mkOrder (unit_price sell_order) (quantity sell_order)).

Definition listings (now : Q) (resp : response (list Entry)) (db : DB.t)
  : DB.t * outcome (PyDict.t Listing) :=
  match fetch now resp db with
  | (db, Returned json) =>
      (db, Returned (PyDict.build entry_id listing_of json))
  | (db, RateLimitHitException) => (db, RateLimitHitException)
  | (db, OtherException) => (db, OtherException)
  end.

Definition items (now : Q) (resp : response (list Meta)) (db : DB.t)
  : DB.t * outcome (PyDict.t Meta) :=
  match fetch now resp db with
  | (db, Returned json) =>
      (db, Returned (PyDict.build meta_id (fun i => i) json))
  | (db, RateLimitHitException) => (db, RateLimitHitException)
  | (db, OtherException) => (db, OtherException)
  end.

End GW2API.

(** ** Alerts *)

(** The value of key ['trigger'] of an alert: ['buy'] marks a buy price above
    its threshold (an opportunity to sell), ['sell'] a sell price below its
    threshold (an opportunity to buy). *)
Inductive trigger : Type :=
| trigger_buy
| trigger_sell.

(** An element of [alert_items]. *)
Record Alert : Type := mkAlert {
  alert_name : string;
  alert_price : Z;
  alert_quantity : Z;
  alert_threshold : Z;
  alert_icon : string;
  alert_trigger : trigger
}.

(** ** The notifier: class [DiscordNotify] *)

Module DiscordNotify.

Definition WEBHOOK_PREFIX : string := "https://discord.com/api/webhooks/".

(** [__init__]; [None] stands for the [ValueError]. *)
Definition init (webhook_url : string) : option string :=
  if String.prefix WEBHOOK_PREFIX webhook_url then Some webhook_url else None.

(** The titles of the two embeds: the texts [SELL Opportunity] and
    [BUY Opportunity], each after its pictogram. *)
Inductive title : Type :=
| SellOpportunity
| BuyOpportunity.

(** A line of a description: the three values printed after the bullet,
    [{name} - {format_price(price)} (Available: {quantity})]. *)
Record Line : Type := mkLine {
  line_name : string;
  line_price : string;
  line_quantity : Z
}.

Record Embed : Type := mkEmbed {
  embed_title : title;
  embed_description : list Line;
  embed_color : Z;
  embed_thumbnail : string;
  embed_footer : string;
  embed_footer_icon : string;
  embed_timestamp : string
}.

Record Payload : Type := mkPayload {
  username : string;
  embeds : list Embed
}.

Definition FOOTER_ICON : string :=
  "https://wiki.guildwars2.com/images/thumb/d/df/Guild_Wars_2_logo.png/300px-Guild_Wars_2_logo.png".

Definition line_of (item : Alert) : Line :=
  mkLine (alert_name item) (format_price (alert_price item))
         (alert_quantity item).

Definition is_buy (item : Alert) : bool :=
  match alert_trigger item with
  | trigger_buy => true
  | trigger_sell => false
  end.

Definition is_sell (item : Alert) : bool :=
  match alert_trigger item with
  | trigger_buy => false
  | trigger_sell => true
  end.

(** The list [embeds]; the two timestamps are the two readings of
    [time.gmtime()]. *)
Definition embeds_of (stamp_buy stamp_sell : string) (alert_items : list Alert)
  : list Embed :=
  let buy_alerts := filter is_buy alert_items in
  let sell_alerts := filter is_sell alert_items in
  match buy_alerts with
  | [] => []
  | first :: _ =>
      [mkEmbed SellOpportunity (map line_of buy_alerts) 65280
               (alert_icon first) "GW2 TP Alert - Buy price above threshold"
               FOOTER_ICON stamp_buy]
  end
  ++ match sell_alerts with
     | [] => []
     | first :: _ =>
         [mkEmbed BuyOpportunity (map line_of sell_alerts) 16750848
                  (alert_icon first) "GW2 TP Alert - Sell price below threshold"
                  FOOTER_ICON stamp_sell]
     end.

(** What [urlopen] does with the request: it returns a response with a
    status, or raises [HTTPError] with a status and perhaps a [Retry-After]
    header, or raises something else.  The header is [Some None] when it is
    there and [float] does not make a number of it. *)
Inductive reply : Type :=
| Status (code : Z)
| HTTPError (code : Z) (retry_after : option (option Q))
| Failure.

(** What the environment supplies to one delivery: the two timestamps and
    the reply. *)
Record attempt : Type := mkAttempt {
  stamp_buy : string;
  stamp_sell : string;
  reply_of : reply
}.

(** What [send_alert] does to the outside, in order. *)
Inductive action : Type :=
| Request (payload : Payload)
| Wait (seconds : Q)
| SayUnexpectedResponse (status : Z)
| SayRetrying
| SayHTTPError (code : Z)
| SayError.

(** [True], [False], or an exception that leaves [send_alert]. *)
Inductive result : Type :=
| Delivered
| NotDelivered
| Raised.

Definition payload_of (a : attempt) (alert_items : list Alert) : Payload :=
  mkPayload "GW2 TP Bot" (embeds_of (stamp_buy a) (stamp_sell a) alert_items).

(** [float(e.headers.get('Retry-After', 5))]; [None] when [float] raises. *)
Definition retry_delay (retry_after : option (option Q)) : option Q :=
  match retry_after with
  | None => Some 5%Q
  | Some header => header
  end.

(** [send_alert]; each delivery uses up one attempt.  The method calls
    itself after a 429, so the deliveries are bounded by the stack of the
    interpreter: [RecursionError] then arises inside [try], where the
    handler of the other exceptions reports it, and the method returns
    [False].  Arising in [urlopen] it is the [Failure] of an attempt; the
    attempts running out is the same error arising before the request. *)
Fixpoint send_alert (alert_items : list Alert) (attempts : list attempt)
  : result * list action :=
  match alert_items with
  | [] => (NotDelivered, [])
  | _ :: _ =>
      match attempts with
      | [] => (NotDelivered, [SayError])
      | a :: rest =>
          let request := Request (payload_of a alert_items) in
          match reply_of a with
          | Status code =>
              (Delivered,
               request :: if code =? 204 then []
                          else [SayUnexpectedResponse code])
          | HTTPError code retry_after =>
              if code =? 429
              then
                match retry_delay retry_after with
                | None => (Raised, [request; SayRetrying])
                | Some seconds =>
                    if Clock.ltb seconds 0
                    then (Raised, [request; SayRetrying])
                    else
                      let (outcome, actions) := send_alert alert_items rest in
                      (outcome,
                       request :: SayRetrying :: Wait seconds :: actions)
                end
              else (NotDelivered, [request; SayHTTPError code])
          | Failure => (NotDelivered, [request; SayError])
          end
      end
  end.

(** A reply 429 after which [send_alert] waits and tries again. *)
Definition retried (a : attempt) : option Q :=
  match reply_of a with
  | HTTPError code retry_after =>
      if code =? 429
      then match retry_delay retry_after with
           | Some seconds => if Clock.ltb seconds 0 then None else Some seconds
           | None => None
           end
      else None
  | _ => None
  end.


End DiscordNotify.

(** ** The polling loop: [monitor_mode] *)

(** What an iteration of the loop prints. *)
Inductive message : Type :=
| WaitingDueToRateLimit
| NoItemsInDatabase
| RateLimitExceeded
| ErrorFetchingPrices
| ErrorMessage.

(** What an iteration of the loop does to the outside, in order.  A call of
    [discord.send_alert] is followed by what the method does: [time.sleep]
    is a [Sleep] wherever it is called, the other actions of the notifier
    are kept as they are. *)
Inductive effect : Type :=
| Print (m : message)
| Sleep (seconds : Q)
| LogUnusualPrice (item_name : string) (price threshold quantity : Z)
                  (trigger_type : trigger)
| SendAlert (alert_items : list Alert)
| Notifier (a : DiscordNotify.action)
| PrintStatus (alert_items : list Alert).

Definition notifier_effect (a : DiscordNotify.action) : effect :=
  match a with
  | DiscordNotify.Wait seconds => Sleep seconds
  | _ => Notifier a
  end.

(** What the environment supplies to one iteration: the reading of the
    clock at the test of the cooldown, the one taken to compute the wait,
    the one taken by the client on a 429, the answer of the server, and
    what the webhook has for each delivery of [send_alert], for as many
    deliveries as the stack of the interpreter allows. *)
Record Env : Type := mkEnv {
  time_check : Q;
  time_wait : Q;
  time_fetch : Q;
  answer : GW2API.response (list GW2API.Entry);
  webhook : list DiscordNotify.attempt
}.

(** The two threshold tests on one item, in the order of the code. *)
Definition check_item (props : DB.Item) (prices : GW2API.Listing) : list Alert :=
  let current_buy := GW2API.unit_price (GW2API.buy prices) in
  let buy_qty := GW2API.quantity (GW2API.buy prices) in
  let current_sell := GW2API.unit_price (GW2API.sell prices) in
  let sell_qty := GW2API.quantity (GW2API.sell prices) in
  (if current_buy >? DB.buy_threshold props
   then [mkAlert (DB.name props) current_buy buy_qty (DB.buy_threshold props)
                 (DB.icon_url props) trigger_buy]
   else [])
  ++ (if current_sell <? DB.sell_threshold props
      then [mkAlert (DB.name props) current_sell sell_qty
                    (DB.sell_threshold props) (DB.icon_url props) trigger_sell]
      else []).

Definition log_unusual_price (a : Alert) : effect :=
  LogUnusualPrice (alert_name a) (alert_price a) (alert_threshold a)
                  (alert_quantity a) (alert_trigger a).

(** The outcome of [for id, props in items.items(): ...]: the store, the
    log lines written, and [alert_items], or [None] when [prices[id]] raised
    [KeyError]. *)
Definition scanned : Type := DB.t * list effect * option (list Alert).

Fixpoint scan (items : PyDict.t DB.Item) (prices : PyDict.t GW2API.Listing)
         (db : DB.t) (logged : list effect) (alert_items : list Alert)
  : scanned :=
  match items with
  | [] => (db, logged, Some alert_items)
  | (id, props) :: rest =>
      match PyDict.get id prices with
      | None => (db, logged, None)
      | Some listing =>
          let current_buy := GW2API.unit_price (GW2API.buy listing) in
          let current_sell := GW2API.unit_price (GW2API.sell listing) in
          let db := fst (DB.update_prices db id current_buy current_sell None) in
          let new := check_item props listing in
          scan rest prices db (logged ++ map log_unusual_price new)
               (alert_items ++ new)
      end
  end.

(** What the loop over the items amounts to when every item has its listing:
    the alerts of all items in order, and one [update_prices] per item. *)
Definition alerts_of (items : PyDict.t DB.Item)
           (prices : PyDict.t GW2API.Listing) : list Alert :=
  flat_map (fun entry =>
              match PyDict.get (fst entry) prices with
              | Some listing => check_item (snd entry) listing
              | None => []
              end) items.

Definition persist (items : PyDict.t DB.Item)
           (prices : PyDict.t GW2API.Listing) (db : DB.t) : DB.t :=
  fold_left (fun db entry =>
               match PyDict.get (fst entry) prices with
               | Some listing =>
                   fst (DB.update_prices db (fst entry)
                          (GW2API.unit_price (GW2API.buy listing))
                          (GW2API.unit_price (GW2API.sell listing)) None)
               | None => db
               end) items db.

(** [if alert_items and discord: discord.send_alert(alert_items)]: what it
    does, and whether an exception leaves [send_alert].  The value returned
    by the method is not used. *)
Definition notify (discord : bool) (attempts : list DiscordNotify.attempt)
           (alert_items : list Alert) : list effect * bool :=
  match alert_items with
  | [] => ([], false)
  | _ :: _ =>
      if discord
      then
        let (outcome, actions) :=
          DiscordNotify.send_alert alert_items attempts in
        (SendAlert alert_items :: map notifier_effect actions,
         match outcome with
         | DiscordNotify.Raised => true
         | _ => false
         end)
      else ([], false)
  end.

(** One iteration of [while True:], from [db = DB()] to the [continue] or the
    end of the body.  [discord] tells whether a webhook is configured.  An
    exception that reaches the outer handler prints the error and sleeps;
    one that leaves [send_alert] does so before [print_status] is called. *)
Definition monitor_cycle (discord : bool) (env : Env) (db : DB.t)
  : DB.t * list effect :=
  let db := DB.init db in
  let on_error := [Print ErrorMessage; Sleep (inject_Z CHECK_INTERVAL)] in
  match DB.get_limit_until db with
  | None => (db, on_error)
  | Some limit_until =>
      if Clock.ltb (time_check env) (inject_Z limit_until)
      then
        let wait_time := (inject_Z limit_until - time_wait env)%Q in
        if Clock.ltb (Clock.min wait_time (inject_Z CHECK_INTERVAL)) 0
        then (db, Print WaitingDueToRateLimit :: on_error)
        else (db, [Print WaitingDueToRateLimit;
                   Sleep (Clock.min wait_time (inject_Z CHECK_INTERVAL))])
      else
        let items := DB.items db in
        match items with
        | [] => (db, [Print NoItemsInDatabase; Sleep 10])
        | _ :: _ =>
            match GW2API.listings (time_fetch env) (answer env) db with
            | (db, GW2API.RateLimitHitException) =>
                (db, [Print RateLimitExceeded; Sleep (inject_Z CHECK_INTERVAL)])
            | (db, GW2API.OtherException) =>
                (db, [Print ErrorFetchingPrices; Sleep (inject_Z CHECK_INTERVAL)])
            | (db, GW2API.Returned prices) =>
                match scan items prices db [] [] with
                | (db, logged, None) => (db, logged ++ on_error)
                | (db, logged, Some alert_items) =>
                    match notify discord (webhook env) alert_items with
                    | (sent, true) => (db, logged ++ sent ++ on_error)
                    | (sent, false) =>
                        (db, logged ++ sent
                               ++ [PrintStatus alert_items;
                                   Sleep (inject_Z CHECK_INTERVAL)])
                    end
                end
            end
        end
  end.

(** ** The commands that read a price: [actionAdd] and [actionThreshold] *)

(** What a command prints. *)
Inductive report : Type :=
| RateLimitHit
| ErrorFetchingItemInfo
| ItemAdded (item_name : string) (buy_copper sell_copper : Z)
| InvalidThresholdFormat
| FailedToUpdateThreshold
| BuyThresholdUpdated (buy_copper : Z)
| SellThresholdUpdated (sell_copper : Z).

(** The body of [for item_id, item in items.items():] of [actionAdd]; both
    [ValueError]s, of the parser and of [itemAdd], end the command.  The
    thresholds go to the store as parsed: they are taken to fit
    ([DB.fits]), the [OverflowError] of one that does not is not caught by
    the command. *)
Fixpoint add_each (items : PyDict.t GW2API.Meta)
         (buy_threshold sell_threshold : string) (db : DB.t)
         (printed : list report) : DB.t * list report :=
  match items with
  | [] => (db, printed)
  | (item_id, item) :: rest =>
      match parse_price_input buy_threshold with
      | InvalidPriceFormat => (db, printed ++ [InvalidThresholdFormat])
      | Price buy_copper =>
          match parse_price_input sell_threshold with
          | InvalidPriceFormat => (db, printed ++ [InvalidThresholdFormat])
          | Price sell_copper =>
              match DB.itemAdd db item_id (GW2API.meta_name item)
                               (GW2API.meta_icon item) buy_copper sell_copper with
              | (db, DB.DuplicateItem) =>
                  (db, printed ++ [InvalidThresholdFormat])
              | (db, DB.Added) =>
                  add_each rest buy_threshold sell_threshold db
                           (printed ++ [ItemAdded (GW2API.meta_name item)
                                                  buy_copper sell_copper])
              end
          end
      end
  end.

Definition actionAdd (now : Q) (resp : GW2API.response (list GW2API.Meta))
           (buy_threshold sell_threshold : string) (db : DB.t)
  : DB.t * list report :=
  let db := DB.init db in
  match GW2API.items now resp db with
  | (db, GW2API.RateLimitHitException) => (db, [RateLimitHit])
  | (db, GW2API.OtherException) => (db, [ErrorFetchingItemInfo])
  | (db, GW2API.Returned items) =>
      add_each items buy_threshold sell_threshold db []
  end.

(** [parse_price_input(t) if t else None]: [None] and the empty text are
    both false.  The outer [option] tells whether the parser raised. *)
Definition parse_if_given (threshold : option string) : option (option Z) :=
  match threshold with
  | None => Some None
  | Some EmptyString => Some None
  | Some text =>
      match parse_price_input text with
      | Price copper => Some (Some copper)
      | InvalidPriceFormat => None
      end
  end.

(** [actionThreshold] prints one line for each threshold given.  Like
    [actionAdd] it hands the thresholds to the store as parsed, taken to
    fit ([DB.fits]). *)
Definition updated (copper : option Z) (line : Z -> report) : list report :=
  match copper with
  | Some c => [line c]
  | None => []
  end.

Definition actionThreshold (id : Z) (buy_threshold sell_threshold : option string)
           (db : DB.t) : DB.t * list report :=
  let db := DB.init db in
  match parse_if_given buy_threshold with
  | None => (db, [InvalidThresholdFormat])
  | Some buy_copper =>
      match parse_if_given sell_threshold with
      | None => (db, [InvalidThresholdFormat])
      | Some sell_copper =>
          match DB.itemThreshold db id buy_copper sell_copper with
          | (db, false) => (db, [FailedToUpdateThreshold])
          | (db, true) =>
              (db, updated buy_copper BuyThresholdUpdated
                     ++ updated sell_copper SellThresholdUpdated)
          end
      end
  end.

(** ** The price text format as the specification words it *)

Module PriceSpec.

(** An amount is either absent or a run of digits [\d+]. *)
Definition valid_amount (amount : option PyStr.t) : Prop :=
  match amount with
  | Some digits => PyStr.digit_run digits
  | None => True
  end.

(** The text of an optional amount with its unit letter: [(\d+u)?]. *)
Definition component (amount : option PyStr.t) (u : ascii) : PyStr.t :=
  match amount with
  | Some digits => digits ++ [u]
  | None => []
  end.

(** [<gold>g<silver>s<copper>c], each part optional. *)
Definition price_text (gold silver copper : option PyStr.t) : PyStr.t :=
  component gold "g" ++ component silver "s" ++ component copper "c".

(** The structure [(\d+g)?(\d+s)?(\d+c)?]. *)
Definition well_formed (x : PyStr.t) : Prop :=
  exists gold silver copper,
    valid_amount gold /\ valid_amount silver /\ valid_amount copper
    /\ x = price_text gold silver copper.

(** The same structure after trimming and lowercasing. *)
Definition valid_price (x : string) : Prop :=
  well_formed (PyStr.lower (PyStr.strip (PyStr.of_string x))).

Definition amount_value (amount : option PyStr.t) : Z :=
  match amount with
  | Some digits => PyStr.int_of_digits digits
  | None => 0
  end.

(** 1 gold = 100 silver = 10000 copper. *)
Definition total (gold silver copper : option PyStr.t) : Z :=
  amount_value gold * 10000 + amount_value silver * 100 + amount_value copper.

(** Zero-padding to two digits. *)
Definition two_digits (n : Z) : string :=
  if n <? 10 then String "0" (PyStr.str_of_int n) else PyStr.str_of_int n.

(** The rendering of an amount of copper: gold unpadded, silver and copper
    on two digits. *)
Definition render (copper : Z) : string :=
  (PyStr.str_of_int (copper / 10000) ++ "g"
   ++ two_digits ((copper / 100) mod 100) ++ "s"
   ++ two_digits (copper mod 100) ++ "c")%string.

(** [normalize(x)] is the rendering of the amount that the parts of [x]
    add up to. *)
Definition normalizes_to (x out : string) : Prop :=
  exists gold silver copper,
    valid_amount gold /\ valid_amount silver /\ valid_amount copper
    /\ PyStr.lower (PyStr.strip (PyStr.of_string x))
       = price_text gold silver copper
    /\ out = render (total gold silver copper).

End PriceSpec.

(** What comes before an amount in a price: nothing, or a text that ends
    with something else than a digit. *)
Definition closed_prefix (pre : PyStr.t) : Prop :=
  pre = [] \/ exists q c, pre = q ++ [c] /\ PyStr.is_digit c = false.

(** ** Sample data

    The item and the listings of the end-to-end scenario of the
    specification, and the item of its threshold scenario. *)

Definition sample_item : DB.Item :=
  DB.mkItem 42 "Mystic Coin" 500 100 DB.LOWEST_SEEN_RESET 0 0 "coin.png".

Definition sample_db : DB.t := DB.mk [sample_item] [DB.mkState 0 0 None].

Definition threshold_item : DB.Item :=
  DB.mkItem 7 "Glob of Ectoplasm" 100 50 DB.LOWEST_SEEN_RESET 0 0 "ecto.png".

Definition listing_of_prices (buy_price buy_qty sell_price sell_qty : Z)
  : GW2API.Listing :=
  GW2API.mkListing (GW2API.mkOrder buy_price buy_qty)
                   (GW2API.mkOrder sell_price sell_qty).

(** * More of the program *)

(** ** The names of the items *)

(** No two rows have the same name: what the test of [itemAdd] is for. *)
Definition unique_names (db : DB.t) : Prop :=
  NoDup (map DB.name (DB.items_tbl db)).

(** Identifiers and names are both unique. *)
Definition well_keyed (db : DB.t) : Prop :=
  DB.primary_key db /\ unique_names db.

(** The columns of a row that only the commands write: all but the two last
    prices. *)
Definition settings (row : DB.Item) : Z * string * Z * Z * Z * string :=
  (DB.id row, DB.name row, DB.buy_threshold row, DB.sell_threshold row,
   DB.lowest_seen row, DB.icon_url row).

(** ** [actionDel] *)

Inductive del_report : Type :=
| FailedToDelete
| ItemDeleted.

Definition actionDel (id : Z) (db : DB.t) : DB.t * del_report :=
  let db := DB.init db in
  match DB.itemDel db id with
  | (db, false) => (db, FailedToDelete)
  | (db, true) => (db, ItemDeleted)
  end.

(** ** [clean_all_data] *)

(** [s.endswith(suffix)] *)
Definition ends_with (suffix s : string) : bool :=
  let n := String.length suffix in
  let m := String.length s in
  (n <=? m)%nat && String.eqb (substring (m - n) n s) suffix.

(** The directory of the logs: the name and the content of each file. *)
Definition log_dir : Type := list (string * string).

(** [clean_all_data] where the store and the files can be written: the rows
    of [items] are deleted, the two timestamps of [state] are set to 0, and
    every file whose name ends with [.log] is emptied.  [ensure_log_dir]
    opens the store once more on the way. *)
Definition clean_all_data (db : DB.t) (logs : log_dir) : DB.t * log_dir :=
  let db := DB.init db in
  let db := DB.mk [] (DB.state_tbl db) in
  let db := DB.mk (DB.items_tbl db)
                  (map (fun row => DB.mkState 0 0 (DB.custom_dir row))
                       (DB.state_tbl db)) in
  let db := DB.init db in
  (db,
   map (fun file => if ends_with ".log" (fst file) then (fst file, "") else file)
       logs).

(** ** The status column of [print_status] *)

(** [status], filled by the two tests of [print_status]. *)
Definition status_of (props : DB.Item) (prices : GW2API.Listing) : list string :=
  let current_buy := GW2API.unit_price (GW2API.buy prices) in
  let current_sell := GW2API.unit_price (GW2API.sell prices) in
  (if current_buy >? DB.buy_threshold props then ["SELL"] else [])
  ++ (if current_sell <? DB.sell_threshold props then ["BUY"] else []).

(** ["/".join(status) if status else "WAIT"] *)
Definition status_text (status : list string) : string :=
  match status with
  | [] => "WAIT"
  | _ :: _ => String.concat "/" status
  end.

(** The escape sequence that colours the status: purple, green, yellow or
    none. *)
Definition color_code (status : list string) : string :=
  let has word := existsb (String.eqb word) status in
  if has "SELL" && has "BUY" then String "027" "[95m"
  else if has "SELL" then String "027" "[92m"
  else if has "BUY" then String "027" "[93m"
  else "".

(** ** [view_logs] *)

(** [l[i]] on a list; [None] stands for [IndexError].  An index below zero
    counts from the end. *)
Definition py_index {A : Type} (l : list A) (i : Z) : option A :=
  let n := Z.of_nat (List.length l) in
  if (0 <=? i) && (i <? n) then nth_error l (Z.to_nat i)
  else if (- n <=? i) && (i <? 0) then nth_error l (Z.to_nat (n + i))
  else None.

(** [sorted(logs)]: texts in ascending order of their code points. *)
Fixpoint insert_sorted (x : string) (l : list string) : list string :=
  match l with
  | [] => [x]
  | y :: l' => if String.leb x y then x :: l else y :: insert_sorted x l'
  end.

Definition sorted (l : list string) : list string :=
  fold_right insert_sorted [] l.

(** How [view_logs] ends once the choice is read. *)
Inductive viewed : Type :=
| NoLogsAvailable
| Cancelled
| InvalidSelection
| Shown (selected_log : string).

(** [view_logs] on the names that [os.listdir] returns, in its order, and
    the text typed, [None] when [int] refuses it; the result is the numbered
    list printed and how the function ends, where the file chosen can be
    read. *)
Definition view_logs (listing : list string) (choice : option Z)
  : list string * viewed :=
  let logs := filter (ends_with ".log") listing in
  match logs with
  | [] => ([], NoLogsAvailable)
  | _ :: _ =>
      let numbered := sorted logs in
      match choice with
      | None => (numbered, InvalidSelection)
      | Some choice =>
          if choice =? 0 then (numbered, Cancelled)
          else match py_index logs (choice - 1) with
               | Some selected_log => (numbered, Shown selected_log)
               | None => (numbered, InvalidSelection)
               end
      end
  end.

(** * Properties *)

Example parse_price_examples :
  map parse_price_input
      ["50s"; " 100C "; "2g"; "150s"; ""; "g"; "1s2g"; "12"; "1g 2s"; "-1g"]
  = [Price 5000; Price 100; Price 20000; Price 15000; Price 0;
     InvalidPriceFormat; InvalidPriceFormat; InvalidPriceFormat;
     InvalidPriceFormat; InvalidPriceFormat].
Proof. reflexivity. Qed.

(** [$] also holds before a final line feed, which [strip] has removed
    before the pattern is tried. *)
Example price_pattern_line_feed :
  Re.re_match price_pattern (PyStr.of_string "1g" ++ ["010"%char]) <> None
  /\ Re.re_match price_pattern (PyStr.of_string "1g" ++ [" "%char]) = None
  /\ parse_price_chars (PyStr.of_string "1g" ++ ["010"%char]) = Price 10000.
Proof. repeat split; vm_compute; congruence. Qed.

Example format_02d_examples :
  map PyStr.format_02d [-5; -12; 0; 5; 12; 123]
  = ["-5"; "-12"; "00"; "05"; "12"; "123"].
Proof. reflexivity. Qed.

Example clock_int_examples :
  map Clock.int [-1 # 2; -3 # 2; 27 # 10] = [0; -1; 2].
Proof. reflexivity. Qed.

Example format_price_examples :
  map format_price [0; 5; 100; 15000; -1; 1234567]
  = ["0g00s00c"; "0g00s05c"; "0g01s00c"; "1g50s00c"; "-1g99s99c"; "123g45s67c"].
Proof. reflexivity. Qed.

(** ** The matcher against the meaning of patterns *)

Section Matcher.

Import Re.

Lemma or_else_some a b c :
  or_else a b = Some c -> a = Some c \/ (a = None /\ b = Some c).
Proof. destruct a; simpl; intros H; [left | right]; auto. Qed.

Lemma or_else_none a b : or_else a b = None <-> a = None /\ b = None.
Proof.
  destruct a; simpl; split; intros H; auto; try discriminate;
    destruct H; auto; discriminate.
Qed.

Lemma digits1_sound s : forall n k a,
  digits1 n s k = Some a ->
  exists ds s', PyStr.digit_run ds /\ s = ds ++ s'
                /\ k (n + List.length ds)%nat s' = Some a.
Proof.
  induction s as [|c s IH]; intros n k a H; simpl in H; [discriminate|].
  destruct (PyStr.is_digit c) eqn:Hc; [|discriminate].
  apply or_else_some in H as [H | [_ H]].
  - apply IH in H as (ds & s' & [_ Hds] & -> & Hk).
    exists (c :: ds), s'. repeat split; try discriminate; auto.
    simpl List.length. rewrite Nat.add_succ_r. exact Hk.
  - exists [c], s. repeat split; try discriminate; auto.
    simpl List.length. rewrite Nat.add_1_r. exact H.
Qed.

Lemma digits1_complete ds : forall n s' k,
  PyStr.digit_run ds ->
  k (n + List.length ds)%nat s' <> None ->
  digits1 n (ds ++ s') k <> None.
Proof.
  induction ds as [|c ds IH]; intros n s' k [Hne Hall] Hk; [congruence|].
  inversion Hall as [|? ? Hc Hds]; subst. simpl. rewrite Hc.
  rewrite or_else_none. intros [Hrec Hstop].
  destruct ds as [|d ds].
  - simpl in Hk. rewrite Nat.add_1_r in Hk. auto.
  - revert Hrec. apply IH; [split; [discriminate | assumption]|].
    simpl List.length in *. rewrite Nat.add_succ_r in Hk. exact Hk.
Qed.

(** Whatever the matcher returns comes from a match of the pattern
    followed by a success of what was left to do. *)
Theorem run_sound r : forall n s caps k a,
  run r n s caps k = Some a ->
  exists n' s' caps',
    Matches r n s caps n' s' caps' /\ k n' s' caps' = Some a.
Proof.
  induction r as [| | c | | r1 IH1 r2 IH2 | r IH | r IH];
    intros n s caps k a H; simpl in H.
  - destruct n; [|discriminate]. exists 0%nat, s, caps. split; [constructor | exact H].
  - destruct s as [|c [|d s]]; try discriminate.
    + exists n, [], caps. split; [constructor; auto | exact H].
    + destruct (Ascii.eqb_spec c "010"); [subst|discriminate].
      exists n, ["010"%char], caps. split; [constructor; auto | exact H].
  - destruct s as [|c' s]; [discriminate|].
    destruct (Ascii.eqb_spec c' c); [subst|discriminate].
    exists (S n), s, caps. split; [constructor | exact H].
  - apply digits1_sound in H as (ds & s' & Hds & -> & Hk).
    exists (n + List.length ds)%nat, s', caps. split; [constructor; auto | exact Hk].
  - apply IH1 in H as (n1 & s1 & caps1 & M1 & H).
    apply IH2 in H as (n2 & s2 & caps2 & M2 & H).
    exists n2, s2, caps2. split; [econstructor; eauto | exact H].
  - apply or_else_some in H as [H | [_ H]].
    + apply IH in H as (n' & s' & caps' & M & H).
      exists n', s', caps'. split; [apply MOptTake; auto | exact H].
    + exists n, s, caps. split; [apply MOptSkip | exact H].
  - apply IH in H as (n' & s' & caps' & M & H).
    eexists _, _, _. split; [apply MGroup; eauto | exact H].
Qed.

(** A match of the pattern after which the rest succeeds makes the
    matcher succeed. *)
Theorem run_complete r n s caps n' s' caps' :
  Matches r n s caps n' s' caps' ->
  forall k, k n' s' caps' <> None -> run r n s caps k <> None.
Proof.
  induction 1 as [ s caps | n s caps Hs | c n s caps | n ds s caps Hds
                 | r1 r2 n s caps n1 s1 caps1 n2 s2 caps2 _ IH1 _ IH2
                 | r n s caps | r n s caps n' s' caps' _ IH
                 | r n s caps n' s' caps' _ IH ];
    intros k Hk; simpl.
  - exact Hk.
  - destruct Hs; subst; simpl; exact Hk.
  - rewrite Ascii.eqb_refl. exact Hk.
  - apply digits1_complete; auto.
  - apply IH1. apply IH2. exact Hk.
  - rewrite or_else_none. tauto.
  - rewrite or_else_none. intros [Hr _]. revert Hr. apply IH. exact Hk.
  - apply IH. exact Hk.
Qed.

Corollary re_match_iff r text :
  re_match r text <> None <->
  exists n' s' caps', Matches r 0 text [] n' s' caps'.
Proof.
  unfold re_match. split.
  - destruct (run r 0 text [] accept) as [a|] eqn:H; [intros _ | congruence].
    apply run_sound in H as (n' & s' & caps' & M & _). eauto.
  - intros (n' & s' & caps' & M).
    apply (run_complete _ _ _ _ _ _ _ M). discriminate.
Qed.

Lemma search_from_none r s : forall n,
  (forall n0 s0 n' s' caps', ~ Matches r n0 s0 [] n' s' caps') ->
  search_from r n s = None.
Proof.
  induction s as [|c s IH]; intros n Hno; simpl; apply or_else_none; split;
    auto;
    destruct (run r n _ [] accept) eqn:H; auto;
    apply run_sound in H as (? & ? & ? & M & _); elim (Hno _ _ _ _ _ M).
Qed.

End Matcher.

(** ** Trimming and lowercasing *)

Section Text.

Import PyStr.

Lemma lower_char_space c : is_space (lower_char c) = is_space c.
Proof.
  destruct c as [[] [] [] [] [] [] [] []]; vm_compute; reflexivity.
Qed.

(** A trimmed text is empty or ends with a character that is no space. *)
Lemma rstrip_last s :
  rstrip s = [] \/ exists p c, rstrip s = p ++ [c] /\ is_space c = false.
Proof.
  induction s as [|c s IH]; simpl; [left; reflexivity|].
  destruct IH as [-> | (p & d & -> & Hd)].
  - destruct (is_space c) eqn:Hc; [left; reflexivity | right].
    exists [], c. auto.
  - right. exists (c :: p), d. split; [|exact Hd].
    destruct (p ++ [d]) eqn:E; [destruct p; discriminate|].
    simpl. rewrite E. reflexivity.
Qed.

Lemma lower_strip_last x t c :
  lower (strip x) = t ++ [c] -> is_space c = false.
Proof.
  unfold strip, lower. intros H.
  destruct (rstrip_last (lstrip x)) as [E | (p & d & E & Hd)];
    rewrite E in H.
  - destruct t; discriminate.
  - rewrite map_app in H. simpl in H. apply app_inj_tail in H as [_ <-].
    rewrite lower_char_space. exact Hd.
Qed.

Lemma digit_run_cons c ds :
  is_digit c = true -> Forall (fun d => is_digit d = true) ds ->
  digit_run (c :: ds).
Proof. intros Hc Hds. split; [discriminate | constructor; assumption]. Qed.

Lemma digit_run_no_unit u ds :
  is_digit u = false -> digit_run ds -> ~ In u ds.
Proof.
  intros Hu [_ Hall] Hin. rewrite Forall_forall in Hall.
  apply Hall in Hin. congruence.
Qed.

(** A text split at the first occurrence of a character splits in one
    way only. *)
Lemma first_occurrence_unique (u : ascii) a : forall a' b b',
  a ++ u :: b = a' ++ u :: b' -> ~ In u a -> ~ In u a' ->
  a = a' /\ b = b'.
Proof.
  induction a as [|x a IH]; intros [|y a'] b b' H Ha Ha'; simpl in *.
  - injection H as ->. auto.
  - injection H as <- _. tauto.
  - injection H as -> _. tauto.
  - injection H as -> H. apply IH in H as [-> ->]; tauto.
Qed.

End Text.

(** ** The patterns of [parse_price_input] *)

Section PricePatterns.

Import Re PriceSpec.

Ltac invert_matches :=
  repeat match goal with
         | H : Matches (Seq _ _) _ _ _ _ _ _ |- _ => inversion H; subst; clear H
         | H : Matches (Group _) _ _ _ _ _ _ |- _ => inversion H; subst; clear H
         | H : Matches (Chr _) _ _ _ _ _ _ |- _ => inversion H; subst; clear H
         | H : Matches Digits1 _ _ _ _ _ _ |- _ => inversion H; subst; clear H
         | H : Matches Bol _ _ _ _ _ _ |- _ => inversion H; subst; clear H
         | H : Matches Eol _ _ _ _ _ _ |- _ => inversion H; subst; clear H
         end.

Lemma consumed_run n ds s : consumed n (ds ++ s) (n + List.length ds) = ds.
Proof.
  unfold consumed. replace (n + List.length ds - n)%nat with (List.length ds) by lia.
  rewrite firstn_app, Nat.sub_diag, firstn_all. simpl. apply app_nil_r.
Qed.

(** [(\d+u)?] matches an optional amount with its unit, and nothing
    else. *)
Lemma optional_unit_inv u n s caps n' s' caps' :
  Matches (Opt (unit_group u)) n s caps n' s' caps' ->
  exists amount, valid_amount amount /\ s = component amount u ++ s'.
Proof.
  unfold unit_group. intros M. inversion M; subst; clear M.
  - exists None. simpl. auto.
  - invert_matches. exists (Some ds). simpl. split; [assumption|].
    rewrite <- app_assoc. reflexivity.
Qed.

Lemma optional_unit_intro u amount n s' caps :
  valid_amount amount ->
  exists n' caps',
    Matches (Opt (unit_group u)) n (component amount u ++ s') caps n' s' caps'.
Proof.
  destruct amount as [ds|]; simpl; intros Hv.
  - rewrite <- app_assoc. simpl.
    eexists _, _. apply MOptTake, MGroup. eapply MSeq.
    + apply MDigits. exact Hv.
    + apply MChr.
  - eexists _, _. apply MOptSkip.
Qed.

(** The validation pattern accepts the well-formed texts, and those
    followed by one line feed. *)
Lemma price_pattern_sound x :
  re_match price_pattern x <> None ->
  exists tail, (tail = [] \/ tail = ["010"%char])
               /\ exists gold silver copper,
                    valid_amount gold /\ valid_amount silver
                    /\ valid_amount copper
                    /\ x = price_text gold silver copper ++ tail.
Proof.
  rewrite re_match_iff. intros (n' & s' & caps' & M).
  unfold price_pattern in M.
  inversion M as [| | | | ? ? ? ? ? ? ? ? ? ? ? Mb M1 | | |]; subst; clear M.
  inversion Mb; subst; clear Mb.
  inversion M1 as [| | | | ? ? ? ? ? ? ? ? ? ? ? Mg M2 | | |]; subst; clear M1.
  inversion M2 as [| | | | ? ? ? ? ? ? ? ? ? ? ? Ms M3 | | |]; subst; clear M2.
  inversion M3 as [| | | | ? ? ? ? ? ? ? ? ? ? ? Mc Me | | |]; subst; clear M3.
  apply optional_unit_inv in Mg as (gold & Hg & ->).
  apply optional_unit_inv in Ms as (silver & Hs & ->).
  apply optional_unit_inv in Mc as (copper & Hc & ->).
  inversion Me as [| ? ? ? Htail | | | | | |]; subst; clear Me.
  exists s'. split; [exact Htail|].
  exists gold, silver, copper. unfold price_text.
  repeat split; auto. rewrite <- !app_assoc. reflexivity.
Qed.

Lemma price_pattern_complete gold silver copper :
  valid_amount gold -> valid_amount silver -> valid_amount copper ->
  re_match price_pattern (price_text gold silver copper) <> None.
Proof.
  intros Hg Hs Hc. rewrite re_match_iff. unfold price_pattern, price_text.
  destruct (optional_unit_intro "g" gold 0
              (component silver "s" ++ component copper "c") [] Hg)
    as (n1 & caps1 & M1).
  destruct (optional_unit_intro "s" silver n1 (component copper "c") caps1 Hs)
    as (n2 & caps2 & M2).
  destruct (optional_unit_intro "c" copper n2 [] caps2 Hc)
    as (n3 & caps3 & M3).
  rewrite app_nil_r in M3.
  exists n3, [], caps3.
  eapply MSeq; [apply MBol|].
  eapply MSeq; [exact M1|].
  eapply MSeq; [exact M2|].
  eapply MSeq; [exact M3|].
  apply MEol. auto.
Qed.

(** A match of [(\d+)u] is a run of digits followed by [u], and captures
    the run. *)
Lemma amount_pattern_inv u n s n' s' caps' :
  Matches (amount_pattern u) n s [] n' s' caps' ->
  exists ds, PyStr.digit_run ds /\ s = ds ++ u :: s' /\ caps' = [ds].
Proof.
  unfold amount_pattern. intros M. invert_matches.
  exists ds. rewrite consumed_run. auto.
Qed.

Lemma amount_pattern_intro u n ds s' :
  PyStr.digit_run ds ->
  exists n', Matches (amount_pattern u) n (ds ++ u :: s') [] n' s' [ds].
Proof.
  intros Hds. eexists. unfold amount_pattern.
  pose proof (MGroup Digits1 n (ds ++ u :: s') [] _ _ []
                     (MDigits n ds (u :: s') [] Hds)) as M.
  rewrite consumed_run in M. simpl in M.
  eapply MSeq; [exact M | apply MChr].
Qed.

(** Where a run of digits followed by [u] is the first occurrence of [u],
    that is what the matcher finds there. *)
Lemma amount_pattern_here u n ds post :
  PyStr.is_digit u = false -> PyStr.digit_run ds ->
  run (amount_pattern u) n (ds ++ u :: post) [] accept = Some [ds].
Proof.
  intros Hu Hds.
  destruct (run (amount_pattern u) n (ds ++ u :: post) [] accept) as [a|] eqn:R.
  - apply run_sound in R as (n' & s' & caps' & M & Hk).
    apply amount_pattern_inv in M as (ds' & Hds' & E & ->).
    unfold accept in Hk. injection Hk as <-.
    apply first_occurrence_unique in E as [-> _];
      auto using digit_run_no_unit.
  - exfalso. revert R.
    destruct (amount_pattern_intro u n ds post Hds) as (n' & M).
    apply (run_complete _ _ _ _ _ _ _ M). discriminate.
Qed.

(** No match starts inside a text without [u] that ends with something
    else than a digit. *)
Lemma amount_pattern_not_before u n pre2 ds post c q :
  PyStr.is_digit u = false -> PyStr.is_digit c = false ->
  pre2 = q ++ [c] -> ~ In u pre2 -> PyStr.digit_run ds ->
  run (amount_pattern u) n (pre2 ++ ds ++ u :: post) [] accept = None.
Proof.
  intros Hu Hc -> Hpre Hds.
  destruct (run _ _ _ _ _) as [a|] eqn:R; [exfalso | reflexivity].
  apply run_sound in R as (n' & s' & caps' & M & _).
  apply amount_pattern_inv in M as (ds' & Hds' & E & _).
  rewrite app_assoc in E.
  apply first_occurrence_unique in E as [E _].
  - destruct Hds' as [_ Hall]. rewrite <- E in Hall.
    rewrite !Forall_app in Hall. destruct Hall as [[_ Hall] _].
    inversion Hall; subst. congruence.
  - rewrite in_app_iff. intros [H | H]; [auto|].
    revert H. apply digit_run_no_unit; assumption.
  - apply digit_run_no_unit; assumption.
Qed.

End PricePatterns.

(** ** Searching an amount in a well-formed price *)

Section PriceSearch.

Import Re PriceSpec.

Lemma search_from_unfold r n s :
  search_from r n s
  = or_else (run r n s [] accept)
            match s with
            | [] => None
            | _ :: s' => search_from r (S n) s'
            end.
Proof. destruct s; reflexivity. Qed.

(** The search passes over a prefix in which no match starts. *)
Lemma search_from_skip r pre : forall n s,
  (forall pre1 pre2, pre = pre1 ++ pre2 -> pre2 <> [] ->
     run r (n + List.length pre1) (pre2 ++ s) [] accept = None) ->
  search_from r n (pre ++ s) = search_from r (n + List.length pre) s.
Proof.
  induction pre as [|c pre IH]; intros n s Hno.
  - simpl. rewrite Nat.add_0_r. reflexivity.
  - rewrite search_from_unfold.
    specialize (Hno [] (c :: pre) eq_refl) as H0.
    simpl in H0. rewrite Nat.add_0_r in H0. simpl app.
    rewrite H0 by discriminate. simpl or_else.
    rewrite IH.
    + simpl List.length. rewrite Nat.add_succ_r. reflexivity.
    + intros pre1 pre2 E Hne.
      specialize (Hno (c :: pre1) pre2). simpl in Hno.
      rewrite Nat.add_succ_r in Hno. apply Hno; [congruence | exact Hne].
Qed.

Lemma search_amount_absent u s : forall n,
  ~ In u s -> search_from (amount_pattern u) n s = None.
Proof.
  assert (Hrun : forall n s, ~ In u s ->
                   run (amount_pattern u) n s [] accept = None).
  { intros n t Hu. destruct (run _ _ _ _ _) eqn:R; [exfalso | reflexivity].
    apply run_sound in R as (n' & s' & caps' & M & _).
    apply amount_pattern_inv in M as (ds & _ & -> & _).
    apply Hu. rewrite in_app_iff. right. left. reflexivity. }
  induction s as [|c s IH]; intros n Hu; rewrite search_from_unfold;
    rewrite Hrun by assumption; simpl; [reflexivity|].
  apply IH. intros H. apply Hu. right. exact H.
Qed.

Lemma search_amount_found u pre ds post :
  PyStr.is_digit u = false -> ~ In u pre -> closed_prefix pre ->
  PyStr.digit_run ds ->
  re_search (amount_pattern u) (pre ++ ds ++ u :: post) = Some [ds].
Proof.
  intros Hu Hpre Hclosed Hds. unfold re_search.
  rewrite search_from_skip.
  - rewrite search_from_unfold, amount_pattern_here by assumption.
    reflexivity.
  - intros pre1 pre2 E Hne.
    destruct Hclosed as [-> | (q & c & -> & Hc)].
    + destruct pre1, pre2; try discriminate. congruence.
    + destruct (exists_last Hne) as (q' & d & ->).
      rewrite app_assoc in E. apply app_inj_tail in E as [E ->].
      apply (amount_pattern_not_before u _ _ ds post d q'); auto.
      intros H. apply Hpre. rewrite E, <- app_assoc, in_app_iff. auto.
Qed.

Lemma in_component u v amount :
  valid_amount amount -> In u (component amount v) ->
  u = v \/ PyStr.is_digit u = true.
Proof.
  destruct amount as [ds|]; simpl; [|tauto].
  intros [_ Hall] Hin. rewrite in_app_iff in Hin. destruct Hin as [H | [H | []]].
  - right. rewrite Forall_forall in Hall. auto.
  - left. auto.
Qed.

Lemma component_closed amount v :
  PyStr.is_digit v = false -> closed_prefix (component amount v).
Proof.
  intros Hv. destruct amount as [ds|]; [right | left; reflexivity].
  exists ds, v. auto.
Qed.

Lemma closed_prefix_app pre amount v :
  PyStr.is_digit v = false -> closed_prefix pre ->
  closed_prefix (pre ++ component amount v).
Proof.
  intros Hv Hpre. destruct amount as [ds|]; simpl.
  - right. exists (pre ++ ds), v. rewrite app_assoc. auto.
  - rewrite app_nil_r. exact Hpre.
Qed.

(** In a well-formed price, searching [(\d+)u] finds the amount written
    before [u], or nothing when there is none. *)
Lemma search_in_price u pre amount post :
  PyStr.is_digit u = false -> ~ In u pre -> ~ In u post ->
  closed_prefix pre -> valid_amount amount ->
  re_search (amount_pattern u) (pre ++ component amount u ++ post)
  = option_map (fun ds => [ds]) amount.
Proof.
  intros Hu Hpre Hpost Hclosed Hv. destruct amount as [ds|]; simpl.
  - rewrite <- app_assoc. apply search_amount_found; assumption.
  - apply search_amount_absent. rewrite in_app_iff. tauto.
Qed.

Lemma add_amount_in_price u k pre amount post copper :
  PyStr.is_digit u = false -> ~ In u pre -> ~ In u post ->
  closed_prefix pre -> valid_amount amount ->
  add_amount u k (pre ++ component amount u ++ post) copper
  = copper + amount_value amount * k.
Proof.
  intros. unfold add_amount. rewrite search_in_price by assumption.
  destruct amount; simpl; [reflexivity | lia].
Qed.

Lemma not_in_component (u v : ascii) amount :
  u <> v -> PyStr.is_digit u = false -> valid_amount amount ->
  ~ In u (component amount v).
Proof.
  intros Hne Hu Hv Hin. apply in_component in Hin as [H | H];
    [auto | congruence | exact Hv].
Qed.

(** The parser adds up the three amounts of a well-formed price. *)
Theorem parse_price_chars_total x gold silver copper :
  valid_amount gold -> valid_amount silver -> valid_amount copper ->
  PyStr.lower (PyStr.strip x) = price_text gold silver copper ->
  parse_price_chars x = Price (total gold silver copper).
Proof.
  intros Hg Hs Hc E. unfold parse_price_chars. rewrite E.
  destruct (re_match price_pattern _) eqn:R;
    [| exfalso; revert R; apply price_pattern_complete; assumption].
  f_equal. unfold price_text, total.
  assert (G : PyStr.is_digit "g" = false) by reflexivity.
  assert (S' : PyStr.is_digit "s" = false) by reflexivity.
  assert (C : PyStr.is_digit "c" = false) by reflexivity.
  set (t := component gold "g" ++ component silver "s" ++ component copper "c").
  assert (Eg : forall z, add_amount "g" 10000 t z
                         = z + amount_value gold * 10000).
  { intro z.
    apply (add_amount_in_price "g" 10000 [] gold
             (component silver "s" ++ component copper "c"));
      auto; [| left; reflexivity].
    rewrite in_app_iff. intros [H | H]; revert H;
      apply not_in_component; auto; discriminate. }
  assert (Es : forall z, add_amount "s" 100 t z
                         = z + amount_value silver * 100).
  { intro z.
    apply (add_amount_in_price "s" 100 (component gold "g") silver
             (component copper "c")); auto.
    - apply not_in_component; auto; discriminate.
    - apply not_in_component; auto; discriminate.
    - apply component_closed; auto. }
  assert (Ec : forall z, add_amount "c" 1 t z = z + amount_value copper * 1).
  { intro z.
    replace t with ((component gold "g" ++ component silver "s")
                      ++ component copper "c" ++ [])
      by (unfold t; rewrite app_nil_r, app_assoc; reflexivity).
    apply add_amount_in_price; auto.
    - rewrite in_app_iff. intros [H | H]; revert H;
        apply not_in_component; auto; discriminate.
    - apply closed_prefix_app; auto. apply component_closed; auto. }
  rewrite Ec, Es, Eg. lia.
Qed.

End PriceSearch.

(** ** Formatting *)

Section Formatting.

Import PriceSpec.

Lemma format_02d_two_digits n :
  0 <= n < 100 -> PyStr.format_02d n = two_digits n.
Proof.
  intros Hn.
  assert (H : forallb (fun k => String.eqb (PyStr.format_02d k) (two_digits k))
                      (map Z.of_nat (seq 0 100)) = true)
    by (vm_compute; reflexivity).
  rewrite forallb_forall in H. apply String.eqb_eq, H.
  rewrite in_map_iff. exists (Z.to_nat n). split; [lia|].
  apply in_seq. lia.
Qed.

Lemma silver_digits copper : (copper mod 10000) / 100 = (copper / 100) mod 100.
Proof.
  change 10000 with (100 * 100).
  rewrite Z.rem_mul_r by lia.
  rewrite Z.mul_comm, Z.div_add by lia.
  rewrite Z.div_small by (apply Z.mod_pos_bound; lia). lia.
Qed.

(** [format_price] prints the rendering that the specification
    describes. *)
Lemma format_price_render copper : format_price copper = render copper.
Proof.
  unfold format_price, render.
  rewrite silver_digits.
  rewrite !format_02d_two_digits by (apply Z.mod_pos_bound; lia).
  reflexivity.
Qed.

End Formatting.

(** ** What the parser accepts *)

Section Parser.

Import PriceSpec.

Lemma parse_price_chars_accepts x copper :
  parse_price_chars x = Price copper ->
  exists gold silver cop,
    valid_amount gold /\ valid_amount silver /\ valid_amount cop
    /\ PyStr.lower (PyStr.strip x) = price_text gold silver cop
    /\ copper = total gold silver cop.
Proof.
  intros H.
  assert (R : Re.re_match price_pattern (PyStr.lower (PyStr.strip x)) <> None).
  { unfold parse_price_chars in H.
    destruct (Re.re_match _ _); [discriminate | discriminate H]. }
  apply price_pattern_sound in R
    as (tail & Htail & gold & silver & cop & Hg & Hs & Hc & E).
  destruct Htail as [-> | ->].
  - rewrite app_nil_r in E. exists gold, silver, cop.
    repeat split; auto.
    rewrite (parse_price_chars_total x gold silver cop) in H by assumption.
    congruence.
  - apply lower_strip_last in E. discriminate E.
Qed.

Lemma parse_price_chars_well_formed x :
  well_formed (PyStr.lower (PyStr.strip x)) <->
  exists copper, parse_price_chars x = Price copper.
Proof.
  split.
  - intros (gold & silver & cop & Hg & Hs & Hc & E).
    exists (total gold silver cop). apply parse_price_chars_total; assumption.
  - intros (copper & H).
    apply parse_price_chars_accepts in H
      as (gold & silver & cop & Hg & Hs & Hc & E & _).
    exists gold, silver, cop. auto.
Qed.

Lemma parse_price_chars_rejects x :
  ~ well_formed (PyStr.lower (PyStr.strip x)) ->
  parse_price_chars x = InvalidPriceFormat.
Proof.
  intros Hno. destruct (parse_price_chars x) as [copper|] eqn:H; [|reflexivity].
  exfalso. apply Hno. apply parse_price_chars_well_formed. eauto.
Qed.

Lemma lstrip_spaces s :
  Forall (fun c => PyStr.is_space c = true) s -> PyStr.lstrip s = [].
Proof.
  induction 1 as [|c s Hc _ IH]; simpl; [reflexivity|].
  rewrite Hc. exact IH.
Qed.

End Parser.

(** ** Dictionaries *)

Section Dictionaries.

Context {A V : Type} (key : A -> Z) (value : A -> V).

Lemma get_set k k' (v : V) d :
  PyDict.get k (PyDict.set k' v d) = if k' =? k then Some v else PyDict.get k d.
Proof.
  induction d as [|[k0 v0] d IH]; simpl.
  - reflexivity.
  - destruct (k0 =? k') eqn:E0; simpl.
    + apply Z.eqb_eq in E0. subst k0. destruct (k' =? k); reflexivity.
    + destruct (k0 =? k) eqn:E1; [|exact IH].
      apply Z.eqb_eq in E1. subst k0. rewrite Z.eqb_sym, E0. reflexivity.
Qed.

Lemma set_new k (v : V) d :
  ~ In k (map fst d) -> PyDict.set k v d = d ++ [(k, v)].
Proof.
  induction d as [|[k0 v0] d IH]; simpl; intros Hk; [reflexivity|].
  destruct (k0 =? k) eqn:E.
  - apply Z.eqb_eq in E. tauto.
  - rewrite IH by tauto. reflexivity.
Qed.

(** Filling a dictionary from a list without repeated keys keeps the
    order of the list. *)
Lemma build_no_dup xs :
  NoDup (map key xs) ->
  PyDict.build key value xs = map (fun x => (key x, value x)) xs.
Proof.
  unfold PyDict.build.
  assert (G : forall d,
             NoDup (map fst d ++ map key xs) ->
             fold_left (fun d x => PyDict.set (key x) (value x) d) xs d
             = d ++ map (fun x => (key x, value x)) xs).
  { induction xs as [|x xs IH]; intros d Hd; simpl.
    - rewrite app_nil_r. reflexivity.
    - simpl in Hd. rewrite set_new.
      + rewrite IH.
        * rewrite <- app_assoc. reflexivity.
        * rewrite map_app. simpl. rewrite <- app_assoc. exact Hd.
      + apply NoDup_remove_2 in Hd. rewrite in_app_iff in Hd. tauto. }
  intros H. apply (G []). exact H.
Qed.

Lemma get_keyed_in xs x :
  NoDup (map key xs) -> In x xs ->
  PyDict.get (key x) (map (fun x => (key x, value x)) xs) = Some (value x).
Proof.
  induction xs as [|y xs IH]; simpl; intros Hnd Hin; [tauto|].
  inversion Hnd as [|? ? Hy Hxs]; subst.
  destruct Hin as [-> | Hin].
  - rewrite Z.eqb_refl. reflexivity.
  - destruct (key y =? key x) eqn:E; [|auto].
    apply Z.eqb_eq in E. exfalso. apply Hy. rewrite E. apply in_map. exact Hin.
Qed.

Lemma get_keyed_absent xs k :
  ~ In k (map key xs) ->
  PyDict.get k (map (fun x => (key x, value x)) xs) = None.
Proof.
  induction xs as [|y xs IH]; simpl; intros Hk; [reflexivity|].
  destruct (key y =? k) eqn:E; [apply Z.eqb_eq in E; tauto | tauto].
Qed.

Lemma get_keyed_some xs k v :
  PyDict.get k (map (fun x => (key x, value x)) xs) = Some v ->
  exists x, In x xs /\ key x = k /\ value x = v.
Proof.
  induction xs as [|y xs IH]; simpl; intros H; [discriminate|].
  destruct (key y =? k) eqn:E.
  - apply Z.eqb_eq in E. injection H as <-. eauto.
  - apply IH in H as (x & Hin & Hk & Hv). eauto.
Qed.

End Dictionaries.

(** ** The store *)

Section Store.

Import DB.

Lemma items_keyed db :
  primary_key db -> items db = map (fun row => (id row, row)) (items_tbl db).
Proof. intros Hpk. apply build_no_dup. exact Hpk. Qed.

(** A row is what [items()] holds under an identifier exactly when it is
    the row of the table with that identifier. *)
Lemma items_get db i row :
  primary_key db ->
  (PyDict.get i (items db) = Some row <-> In row (items_tbl db) /\ id row = i).
Proof.
  intros Hpk. rewrite items_keyed by assumption. split.
  - intros H. apply get_keyed_some in H as (x & Hin & Hk & ->). auto.
  - intros [Hin <-]. apply (get_keyed_in id (fun r => r)); assumption.
Qed.

Lemma items_get_none db i :
  primary_key db ->
  (PyDict.get i (items db) = None <-> ~ In i (map id (items_tbl db))).
Proof.
  intros Hpk. split.
  - intros H Hin. apply in_map_iff in Hin as (row & <- & Hin).
    assert (E : PyDict.get (id row) (items db) = Some row)
      by (apply items_get; auto).
    congruence.
  - intros H. rewrite items_keyed by assumption.
    apply (get_keyed_absent id (fun r => r)). exact H.
Qed.

Lemma rowcount_absent db i :
  ~ In i (map id (items_tbl db)) -> rowcount i db = 0.
Proof.
  unfold rowcount. intros H.
  replace (filter _ _) with (@nil Item); [reflexivity|].
  induction (items_tbl db) as [|row rows IH]; simpl in *; [reflexivity|].
  destruct (id row =? i) eqn:E; [apply Z.eqb_eq in E; tauto | tauto].
Qed.

Lemma rowcount_present db i :
  primary_key db -> In i (map id (items_tbl db)) -> rowcount i db = 1.
Proof.
  unfold primary_key, rowcount.
  induction (items_tbl db) as [|row rows IH]; simpl; intros Hpk Hin; [tauto|].
  inversion Hpk as [|? ? Hrow Hrows]; subst.
  destruct (id row =? i) eqn:E.
  - apply Z.eqb_eq in E. subst i.
    pose proof (rowcount_absent (mk rows []) (id row) Hrow) as H0.
    unfold rowcount in H0. simpl in *. lia.
  - apply Z.eqb_neq in E. destruct Hin as [H | H]; [tauto | auto].
Qed.

Lemma update_where_id_ids i f db :
  (forall row, id (f row) = id row) ->
  map id (items_tbl (update_where_id i f db)) = map id (items_tbl db).
Proof.
  intros Hf. simpl. rewrite map_map. apply map_ext.
  intros row. destruct (id row =? i); auto.
Qed.

Lemma update_where_id_absent i f db :
  ~ In i (map id (items_tbl db)) -> update_where_id i f db = db.
Proof.
  intros H. destruct db as [rows st]. unfold update_where_id. simpl in *.
  f_equal. rewrite <- (map_id rows) at 2. apply map_ext_in.
  intros row Hin. destruct (id row =? i) eqn:E; [|reflexivity].
  apply Z.eqb_eq in E. exfalso. apply H. rewrite <- E. apply in_map. exact Hin.
Qed.

(** [UPDATE ... WHERE id = ?] as seen through [items()]: the row of that
    identifier is rewritten, every other entry stays. *)
Lemma update_where_id_get i f db j :
  primary_key db -> (forall row, id (f row) = id row) ->
  PyDict.get j (items (update_where_id i f db))
  = if j =? i then option_map f (PyDict.get i (items db))
    else PyDict.get j (items db).
Proof.
  intros Hpk Hf.
  assert (Hpk' : primary_key (update_where_id i f db))
    by (unfold primary_key; rewrite update_where_id_ids; assumption).
  rewrite !items_keyed by assumption. clear Hpk Hpk'. simpl.
  induction (items_tbl db) as [|row rows IH]; simpl.
  - destruct (j =? i); reflexivity.
  - destruct (id row =? i) eqn:Ei; simpl.
    + apply Z.eqb_eq in Ei. rewrite Hf, Ei.
      destruct (i =? j) eqn:Ej.
      * apply Z.eqb_eq in Ej. subst j. rewrite Z.eqb_refl. reflexivity.
      * rewrite (Z.eqb_sym j i), Ej. rewrite IH, (Z.eqb_sym j i), Ej. reflexivity.
    + destruct (id row =? j) eqn:Ej.
      * apply Z.eqb_eq in Ej. subst j. rewrite Ei. reflexivity.
      * exact IH.
Qed.

Lemma empty_primary_key : primary_key empty.
Proof. constructor. Qed.

Lemma init_items db : items_tbl (init db) = items_tbl db.
Proof. unfold init. destruct (_ <? _)%nat; reflexivity. Qed.

Lemma init_has_state db : state_tbl (init db) <> [].
Proof.
  unfold init. destruct (state_tbl db) as [|row rows] eqn:E; simpl.
  - discriminate.
  - rewrite E. discriminate.
Qed.

Lemma init_initialised db : state_tbl db <> [] -> init db = db.
Proof.
  unfold init. destruct (state_tbl db); [congruence | reflexivity].
Qed.

Lemma limit_until_set v db :
  state_tbl db <> [] -> get_limit_until (set_limit_until v db) = Some v.
Proof.
  unfold get_limit_until, set_limit_until. simpl.
  destruct (state_tbl db); [congruence | reflexivity].
Qed.

End Store.

Section StoreRows.

Import DB.

Lemma in_insert_row x rows row :
  In row (insert_row x rows) <-> row = x \/ In row rows.
Proof.
  induction rows as [|r rows IH]; simpl.
  - intuition.
  - destruct (id x <? id r); simpl; rewrite ?IH; intuition.
Qed.

Lemma insert_row_no_dup x rows :
  NoDup (map id rows) -> ~ In (id x) (map id rows) ->
  NoDup (map id (insert_row x rows)).
Proof.
  induction rows as [|r rows IH]; simpl; intros Hnd Hx.
  - constructor; [tauto | constructor].
  - destruct (id x <? id r); simpl.
    + constructor; assumption.
    + inversion Hnd as [|? ? Hr Hrows]; subst. constructor.
      * intros Hin. apply in_map_iff in Hin as (row & E & Hin).
        apply in_insert_row in Hin as [-> | Hin]; [intuition congruence|].
        apply Hr. rewrite <- E. apply in_map. exact Hin.
      * apply IH; tauto.
Qed.

Lemma in_delete i rows row :
  In row (filter (fun r => negb (id r =? i)) rows) <-> In row rows /\ id row <> i.
Proof.
  rewrite filter_In, negb_true_iff, Z.eqb_neq. reflexivity.
Qed.

Lemma delete_no_dup i rows :
  NoDup (map id rows) ->
  NoDup (map id (filter (fun r => negb (id r =? i)) rows)).
Proof.
  induction rows as [|r rows IH]; simpl; intros Hnd; [constructor|].
  inversion Hnd as [|? ? Hr Hrows]; subst.
  destruct (negb (id r =? i)); simpl; [constructor | auto]; auto.
  intros Hin. apply in_map_iff in Hin as (row & E & Hin).
  apply in_delete in Hin as [Hin _].
  apply Hr. rewrite <- E. apply in_map. exact Hin.
Qed.

Lemma delete_absent i rows :
  ~ In i (map id rows) -> filter (fun r => negb (id r =? i)) rows = rows.
Proof.
  induction rows as [|r rows IH]; simpl; intros H; [reflexivity|].
  destruct (id r =? i) eqn:E; simpl.
  - apply Z.eqb_eq in E. tauto.
  - rewrite IH by tauto. reflexivity.
Qed.

Lemma count_id_or_name_positive i n db :
  count_id_or_name i n db > 0 <->
  exists row, In row (items_tbl db) /\ (id row = i \/ name row = n).
Proof.
  unfold count_id_or_name.
  set (p := fun row => (id row =? i) || String.eqb (name row) n).
  assert (Hp : forall row, p row = true <-> id row = i \/ name row = n).
  { intros row. unfold p.
    rewrite orb_true_iff, Z.eqb_eq, String.eqb_eq. reflexivity. }
  split.
  - intros H. destruct (filter p (items_tbl db)) as [|row rest] eqn:E;
      [simpl in H; lia|].
    assert (Hin : In row (filter p (items_tbl db)))
      by (rewrite E; left; reflexivity).
    apply filter_In in Hin as [Hin Hrow]. exists row. rewrite <- Hp. auto.
  - intros (row & Hin & Hrow).
    assert (Hf : In row (filter p (items_tbl db)))
      by (apply filter_In; rewrite Hp; auto).
    destruct (filter p (items_tbl db)); [destruct Hf | simpl; lia].
Qed.

(** Two stores with a primary key and the same rows answer [items()]
    alike on every identifier where their rows agree. *)
Lemma items_get_agree db db' j :
  primary_key db -> primary_key db' ->
  (forall row, id row = j -> (In row (items_tbl db') <-> In row (items_tbl db))) ->
  PyDict.get j (items db') = PyDict.get j (items db).
Proof.
  intros Hpk Hpk' Hrows.
  destruct (PyDict.get j (items db)) as [row|] eqn:E.
  - apply items_get in E as [Hin Hid]; [|assumption].
    apply items_get; [assumption|]. split; [apply Hrows|]; assumption.
  - destruct (PyDict.get j (items db')) as [row|] eqn:E'; [|reflexivity].
    apply items_get in E' as [Hin Hid]; [|assumption].
    apply Hrows in Hin; [|assumption].
    assert (PyDict.get j (items db) = Some row) by (apply items_get; auto).
    congruence.
Qed.

End StoreRows.

(** ** The operations of the store *)

Section StoreOperations.

Import DB.

Lemma get_present db i row :
  primary_key db -> PyDict.get i (items db) = Some row ->
  In i (map id (items_tbl db)).
Proof.
  intros Hpk H. apply items_get in H as [Hin <-]; [|assumption].
  apply in_map. exact Hin.
Qed.

(** [UPDATE items SET ... WHERE id = ?] on a store with a primary key. *)
Lemma update_where_id_spec i f db :
  primary_key db -> (forall row, id (f row) = id row) ->
  let db' := update_where_id i f db in
  primary_key db'
  /\ state_tbl db' = state_tbl db
  /\ (forall old, PyDict.get i (items db) = Some old ->
                  PyDict.get i (items db') = Some (f old))
  /\ (forall j, j <> i -> PyDict.get j (items db') = PyDict.get j (items db)).
Proof.
  intros Hpk Hf db'. repeat split.
  - unfold primary_key, db'. rewrite update_where_id_ids; assumption.
  - intros old Hold. unfold db'.
    rewrite update_where_id_get, Z.eqb_refl, Hold by assumption. reflexivity.
  - intros j Hj. unfold db'. rewrite update_where_id_get by assumption.
    apply Z.eqb_neq in Hj. rewrite Hj. reflexivity.
Qed.

End StoreOperations.

(** C7.  [update_prices] (record_prices) on a store with its primary key:
    when the identifier is present the call returns true and [items()] then
    maps it to the same row with [last_buy_price] and [last_sell_price]
    overwritten, [lowest_seen] overwritten only when the optional argument is
    given, every other entry and the state table unchanged; when the
    identifier is absent the call returns false and the store is unchanged.
    This is for an identifier and prices that fit a 64-bit INTEGER, which is
    what the database binds. *)
Theorem update_prices_recorded db itemId buy_price sell_price lowest :
  DB.primary_key db ->
  DB.fits itemId -> DB.fits buy_price -> DB.fits sell_price ->
  DB.fits_if_given lowest ->
  (forall old,
      PyDict.get itemId (DB.items db) = Some old ->
      exists db',
        DB.update_prices db itemId buy_price sell_price lowest = (db', true)
        /\ PyDict.get itemId (DB.items db')
           = Some (DB.mkItem (DB.id old) (DB.name old) (DB.buy_threshold old)
                             (DB.sell_threshold old)
                             match lowest with
                             | Some seen => seen
                             | None => DB.lowest_seen old
                             end
                             buy_price sell_price (DB.icon_url old))
        /\ (forall j, j <> itemId ->
                      PyDict.get j (DB.items db') = PyDict.get j (DB.items db))
        /\ DB.state_tbl db' = DB.state_tbl db
        /\ DB.primary_key db')
  /\ (PyDict.get itemId (DB.items db) = None ->
      DB.update_prices db itemId buy_price sell_price lowest = (db, false)).
Proof.
  intros Hpk _ _ _ _. split.
  - intros old Hold. eexists. unfold DB.update_prices.
    rewrite rowcount_present by eauto using get_present.
    split; [reflexivity|].
    match goal with
    | |- context [DB.update_where_id itemId ?f db] =>
        destruct (update_where_id_spec itemId f db Hpk) as (Hpk' & Hst & Hget & Hother);
        [reflexivity || (intros row; destruct lowest; reflexivity)|]
    end.
    repeat split; auto.
    rewrite (Hget old Hold). destruct lowest; reflexivity.
  - intros Hnone. apply items_get_none in Hnone; [|assumption].
    unfold DB.update_prices.
    rewrite update_where_id_absent, rowcount_absent by assumption.
    reflexivity.
Qed.

Lemma update_prices_recorded_witness :
  DB.primary_key sample_db
  /\ exists db',
       DB.update_prices sample_db 42 600 90 None = (db', true)
       /\ PyDict.get 42 (DB.items db')
          = Some (DB.mkItem 42 "Mystic Coin" 500 100 999999999 600 90 "coin.png").
Proof.
  assert (Hpk : DB.primary_key sample_db).
  { constructor; [simpl; tauto | constructor]. }
  split; [exact Hpk|].
  assert (Hfits : DB.fits 42 /\ DB.fits 600 /\ DB.fits 90).
  { unfold DB.fits. lia. }
  destruct Hfits as (Hid & Hbuy & Hsell).
  destruct (proj1 (update_prices_recorded sample_db 42 600 90 None Hpk
                                          Hid Hbuy Hsell I)
                  sample_item eq_refl) as (db' & Hcall & Hget & _).
  exists db'. split; assumption.
Defined.

(** C5.  [itemThreshold] (set_thresholds) on a store with its primary key,
    called with at least one threshold: when the identifier is present the
    call returns true, every threshold given is written, [lowest_seen] becomes
    the sentinel 999999999 and every other column of the row, every other
    entry and the state table are unchanged (so after a call with a buy
    threshold only, [sell_threshold] is what it was); when the identifier is
    absent the call returns false and the store is unchanged.  This is for
    an identifier and thresholds that fit a 64-bit INTEGER, which is what
    the database binds. *)
Theorem itemThreshold_frame db itemId buy sell :
  DB.primary_key db ->
  buy <> None \/ sell <> None ->
  DB.fits itemId -> DB.fits_if_given buy -> DB.fits_if_given sell ->
  (forall old,
      PyDict.get itemId (DB.items db) = Some old ->
      exists db',
        DB.itemThreshold db itemId buy sell = (db', true)
        /\ PyDict.get itemId (DB.items db')
           = Some (DB.mkItem (DB.id old) (DB.name old)
                             match buy with
                             | Some b => b
                             | None => DB.buy_threshold old
                             end
                             match sell with
                             | Some s => s
                             | None => DB.sell_threshold old
                             end
                             999999999
                             (DB.last_buy_price old) (DB.last_sell_price old)
                             (DB.icon_url old))
        /\ (forall j, j <> itemId ->
                      PyDict.get j (DB.items db') = PyDict.get j (DB.items db))
        /\ DB.state_tbl db' = DB.state_tbl db
        /\ DB.primary_key db')
  /\ (PyDict.get itemId (DB.items db) = None ->
      DB.itemThreshold db itemId buy sell = (db, false)).
Proof.
  intros Hpk Hgiven _ _ _. split.
  - intros old Hold.
    assert (Hcount : DB.rowcount itemId db = 1)
      by eauto using rowcount_present, get_present.
    destruct buy as [b|], sell as [s|]; try (destruct Hgiven; congruence);
      unfold DB.itemThreshold; rewrite Hcount;
      match goal with
      | |- context [DB.update_where_id itemId ?f db] =>
          destruct (update_where_id_spec itemId f db Hpk)
            as (Hpk' & Hst & Hget & Hother); [reflexivity|];
          exists (DB.update_where_id itemId f db)
      end;
      repeat split; auto; rewrite (Hget old Hold); reflexivity.
  - intros Hnone. apply items_get_none in Hnone; [|assumption].
    destruct buy as [b|], sell as [s|]; try (destruct Hgiven; congruence);
      unfold DB.itemThreshold;
      rewrite update_where_id_absent, rowcount_absent by assumption;
      reflexivity.
Qed.

Lemma itemThreshold_frame_witness :
  exists db',
    DB.itemThreshold sample_db 42 (Some 750) None = (db', true)
    /\ PyDict.get 42 (DB.items db')
       = Some (DB.mkItem 42 "Mystic Coin" 750 100 999999999 0 0 "coin.png").
Proof.
  assert (Hpk : DB.primary_key sample_db).
  { constructor; [simpl; tauto | constructor]. }
  assert (Hgiven : Some 750 <> None \/ @None Z <> None).
  { left. discriminate. }
  assert (Hfits : DB.fits 42 /\ DB.fits 750).
  { unfold DB.fits. lia. }
  destruct Hfits as (Hid & Hbuy).
  destruct (proj1 (itemThreshold_frame sample_db 42 (Some 750) None Hpk Hgiven
                                       Hid Hbuy I)
                  sample_item eq_refl) as (db' & Hcall & Hget & _).
  exists db'. split; assumption.
Defined.

(** C8.  [itemDel] (delete_item) on a store with its primary key: when the
    identifier is present the call returns true and removes its row, leaving
    every other entry and the state table unchanged, and the same call made
    again returns false and leaves that store unchanged; when the identifier
    is absent the call returns false and the store is unchanged.  This is
    for an identifier that fits a 64-bit INTEGER, which is what the database
    binds. *)
Theorem itemDel_twice db itemId :
  DB.primary_key db ->
  DB.fits itemId ->
  (PyDict.get itemId (DB.items db) <> None ->
   exists db',
     DB.itemDel db itemId = (db', true)
     /\ PyDict.get itemId (DB.items db') = None
     /\ (forall j, j <> itemId ->
                   PyDict.get j (DB.items db') = PyDict.get j (DB.items db))
     /\ DB.state_tbl db' = DB.state_tbl db
     /\ DB.primary_key db'
     /\ DB.itemDel db' itemId = (db', false))
  /\ (PyDict.get itemId (DB.items db) = None ->
      DB.itemDel db itemId = (db, false)).
Proof.
  intros Hpk _.
  assert (Habsent : forall d, ~ In itemId (map DB.id (DB.items_tbl d)) ->
                              DB.itemDel d itemId = (d, false)).
  { intros [rows st] H. unfold DB.itemDel.
    rewrite rowcount_absent by assumption. simpl in *.
    rewrite delete_absent by assumption. reflexivity. }
  split.
  - intros Hsome.
    assert (Hin : In itemId (map DB.id (DB.items_tbl db))).
    { destruct (PyDict.get itemId (DB.items db)) eqn:E; [|congruence].
      eauto using get_present. }
    set (db' := DB.mk (filter (fun r => negb (DB.id r =? itemId)) (DB.items_tbl db))
                      (DB.state_tbl db)).
    assert (Hpk' : DB.primary_key db') by (apply delete_no_dup; exact Hpk).
    assert (Hgone : ~ In itemId (map DB.id (DB.items_tbl db'))).
    { intros H. apply in_map_iff in H as (row & E & H).
      apply in_delete in H as [_ H]. auto. }
    exists db'. unfold DB.itemDel at 1. rewrite rowcount_present by assumption.
    repeat split; auto.
    + apply items_get_none; assumption.
    + intros j Hj. apply items_get_agree; try assumption.
      intros row Hrow. simpl. rewrite in_delete. intuition congruence.
  - intros Hnone. apply Habsent. apply items_get_none; assumption.
Qed.

Lemma itemDel_twice_witness :
  exists db',
    DB.itemDel sample_db 42 = (db', true)
    /\ DB.itemDel db' 42 = (db', false).
Proof.
  assert (Hpk : DB.primary_key sample_db).
  { constructor; [simpl; tauto | constructor]. }
  assert (Hsome : PyDict.get 42 (DB.items sample_db) <> None).
  { discriminate. }
  assert (Hid : DB.fits 42).
  { unfold DB.fits. lia. }
  destruct (proj1 (itemDel_twice sample_db 42 Hpk Hid) Hsome)
    as (db' & Hfirst & _ & _ & _ & _ & Hsecond).
  exists db'. split; assumption.
Defined.

(** C6.  [itemAdd] (add_item): when a row of the store has the identifier
    or the name, the call fails with DuplicateItem and the store is what it
    was; when no row has either, on a store with its primary key, the call
    inserts the row with both last prices 0, leaves every other entry and
    the state table unchanged and keeps the primary key.  This is for an
    identifier and, where the row is inserted, thresholds that fit a 64-bit
    INTEGER, which is what the database binds. *)
Theorem itemAdd_unique db itemId itemName iconUrl buy sell :
  DB.fits itemId ->
  ((exists row, In row (DB.items_tbl db)
                /\ (DB.id row = itemId \/ DB.name row = itemName)) ->
   DB.itemAdd db itemId itemName iconUrl buy sell = (db, DB.DuplicateItem))
  /\ (DB.primary_key db ->
      DB.fits buy -> DB.fits sell ->
      (forall row, In row (DB.items_tbl db) ->
                   DB.id row <> itemId /\ DB.name row <> itemName) ->
      exists db',
        DB.itemAdd db itemId itemName iconUrl buy sell = (db', DB.Added)
        /\ PyDict.get itemId (DB.items db')
           = Some (DB.mkItem itemId itemName buy sell 999999999 0 0 iconUrl)
        /\ (forall j, j <> itemId ->
                      PyDict.get j (DB.items db') = PyDict.get j (DB.items db))
        /\ DB.state_tbl db' = DB.state_tbl db
        /\ DB.primary_key db').
Proof.
  intros _. split.
  - intros Hdup. apply count_id_or_name_positive in Hdup.
    unfold DB.itemAdd. apply Z.gtb_gt in Hdup. rewrite Hdup. reflexivity.
  - intros Hpk _ _ Hfresh.
    assert (Hcount : (DB.count_id_or_name itemId itemName db >? 0) = false).
    { destruct (DB.count_id_or_name itemId itemName db >? 0) eqn:E; [|reflexivity].
      apply Z.gtb_gt, count_id_or_name_positive in E as (row & Hin & Hrow).
      destruct (Hfresh row Hin). tauto. }
    unfold DB.itemAdd. rewrite Hcount.
    set (new := DB.mkItem itemId itemName buy sell DB.LOWEST_SEEN_RESET 0 0 iconUrl).
    set (db' := DB.mk (DB.insert_row new (DB.items_tbl db)) (DB.state_tbl db)).
    assert (Hnew : ~ In itemId (map DB.id (DB.items_tbl db))).
    { intros H. apply in_map_iff in H as (row & E & H).
      destruct (Hfresh row H). auto. }
    assert (Hpk' : DB.primary_key db').
    { apply insert_row_no_dup; assumption. }
    exists db'. repeat split; auto.
    + apply items_get; [assumption|]. split; [|reflexivity].
      apply in_insert_row. auto.
    + intros j Hj. apply items_get_agree; try assumption.
      intros row Hrow. simpl. rewrite in_insert_row.
      split; [intros [-> | H]; [simpl in Hrow; congruence | exact H] | auto].
Qed.

Lemma itemAdd_unique_witness :
  DB.itemAdd sample_db 42 "Another name" "icon.png" 1 2
  = (sample_db, DB.DuplicateItem)
  /\ DB.itemAdd sample_db 43 "Mystic Coin" "icon.png" 1 2
     = (sample_db, DB.DuplicateItem)
  /\ exists db',
       DB.itemAdd sample_db 19721 "Glob of Ectoplasm" "ecto.png" 1 2
       = (db', DB.Added)
       /\ PyDict.get 19721 (DB.items db')
          = Some (DB.mkItem 19721 "Glob of Ectoplasm" 1 2 999999999 0 0 "ecto.png").
Proof.
  assert (Hpk : DB.primary_key sample_db).
  { constructor; [simpl; tauto | constructor]. }
  assert (Hfits : DB.fits 42 /\ DB.fits 43 /\ DB.fits 19721
                  /\ DB.fits 1 /\ DB.fits 2).
  { unfold DB.fits. lia. }
  destruct Hfits as (H42 & H43 & Hid & Hbuy & Hsell).
  split; [|split].
  - apply (proj1 (itemAdd_unique sample_db 42 "Another name" "icon.png" 1 2
                                 H42)).
    exists sample_item. split; [left; reflexivity | left; reflexivity].
  - apply (proj1 (itemAdd_unique sample_db 43 "Mystic Coin" "icon.png" 1 2
                                 H43)).
    exists sample_item. split; [left; reflexivity | right; reflexivity].
  - destruct (proj2 (itemAdd_unique sample_db 19721 "Glob of Ectoplasm"
                                   "ecto.png" 1 2 Hid) Hpk Hbuy Hsell)
      as (db' & Hcall & Hget & _).
    + intros row [<- | []]. split; discriminate.
    + exists db'. split; assumption.
Defined.

(** ** One pass over the items *)

Section Pass.

(** With a listing for every item the loop runs to its end: it records
    the prices of every item and collects the alerts of every item. *)
Lemma scan_covered items prices : forall db logged alert_items,
  (forall id props, In (id, props) items -> PyDict.get id prices <> None) ->
  scan items prices db logged alert_items
  = (persist items prices db,
     logged ++ map log_unusual_price (alerts_of items prices),
     Some (alert_items ++ alerts_of items prices)).
Proof.
  induction items as [|[id props] items IH]; intros db logged alert_items Hcov;
    simpl.
  - rewrite !app_nil_r. reflexivity.
  - destruct (PyDict.get id prices) as [listing|] eqn:E.
    + rewrite IH by (intros; eapply Hcov; right; eassumption).
      rewrite map_app, !app_assoc. reflexivity.
    + exfalso. apply (Hcov id props); [left; reflexivity | exact E].
Qed.

(** The loop stops at the first item without a listing. *)
Lemma scan_key_error id props items prices db logged alert_items :
  PyDict.get id prices = None ->
  scan ((id, props) :: items) prices db logged alert_items
  = (db, logged, None).
Proof. intros E. simpl. rewrite E. reflexivity. Qed.

Lemma update_prices_step db i b s :
  DB.primary_key db ->
  let db' := fst (DB.update_prices db i b s None) in
  DB.primary_key db'
  /\ DB.state_tbl db' = DB.state_tbl db
  /\ (forall old, PyDict.get i (DB.items db) = Some old ->
        PyDict.get i (DB.items db')
        = Some (DB.mkItem (DB.id old) (DB.name old) (DB.buy_threshold old)
                          (DB.sell_threshold old) (DB.lowest_seen old)
                          b s (DB.icon_url old)))
  /\ (forall j, j <> i ->
                PyDict.get j (DB.items db') = PyDict.get j (DB.items db)).
Proof.
  intros Hpk. simpl.
  match goal with
  | |- context [DB.update_where_id i ?f db] =>
      apply (update_where_id_spec i f db Hpk)
  end.
  reflexivity.
Qed.

Lemma persist_primary_key items prices : forall db,
  DB.primary_key db -> DB.primary_key (persist items prices db).
Proof.
  induction items as [|[id props] items IH]; intros db Hpk; simpl; [exact Hpk|].
  apply IH. destruct (PyDict.get id prices); [|exact Hpk].
  apply update_prices_step. exact Hpk.
Qed.

Lemma persist_state items prices : forall db,
  DB.primary_key db ->
  DB.state_tbl (persist items prices db) = DB.state_tbl db.
Proof.
  induction items as [|[id props] items IH]; intros db Hpk; simpl; [reflexivity|].
  destruct (PyDict.get id prices); [|auto].
  rewrite IH by (apply update_prices_step; exact Hpk).
  apply update_prices_step. exact Hpk.
Qed.

Lemma persist_other items prices i : forall db,
  DB.primary_key db -> ~ In i (map fst items) ->
  PyDict.get i (DB.items (persist items prices db)) = PyDict.get i (DB.items db).
Proof.
  induction items as [|[id props] items IH]; intros db Hpk Hi; simpl in *;
    [reflexivity|].
  destruct (PyDict.get id prices) as [listing|]; [|apply IH; tauto].
  rewrite IH; [| apply update_prices_step; exact Hpk | tauto].
  apply update_prices_step; [exact Hpk | intros ->; tauto].
Qed.

(** After the pass the row of an item holds the prices of its listing. *)
Lemma persist_recorded items prices i props listing : forall db old,
  DB.primary_key db -> NoDup (map fst items) ->
  In (i, props) items -> PyDict.get i prices = Some listing ->
  PyDict.get i (DB.items db) = Some old ->
  PyDict.get i (DB.items (persist items prices db))
  = Some (DB.mkItem (DB.id old) (DB.name old) (DB.buy_threshold old)
                    (DB.sell_threshold old) (DB.lowest_seen old)
                    (GW2API.unit_price (GW2API.buy listing))
                    (GW2API.unit_price (GW2API.sell listing))
                    (DB.icon_url old)).
Proof.
  induction items as [|[id props'] items IH]; intros db old Hpk Hnd Hin Hl Hold;
    simpl in *; [tauto|].
  inversion Hnd as [|? ? Hid Hitems]; subst.
  destruct Hin as [E | Hin].
  - injection E as -> ->. rewrite Hl.
    rewrite persist_other; [| apply update_prices_step; exact Hpk | exact Hid].
    apply update_prices_step; assumption.
  - assert (Hne : i <> id).
    { intros ->. apply Hid. apply (in_map fst) in Hin. exact Hin. }
    destruct (PyDict.get id prices) as [listing'|]; [|eauto].
    apply IH; auto.
    + apply update_prices_step. exact Hpk.
    + rewrite <- Hold. apply update_prices_step; assumption.
Qed.

End Pass.

Section BuiltDictionaries.

Context {A V : Type} (key : A -> Z) (value : A -> V).

Lemma get_fill_keeps k xs : forall d,
  PyDict.get k d <> None ->
  PyDict.get k (fold_left (fun d x => PyDict.set (key x) (value x) d) xs d)
  <> None.
Proof.
  induction xs as [|x xs IH]; intros d Hd; simpl; [exact Hd|].
  apply IH. rewrite get_set.
  destruct (key x =? k); [discriminate | exact Hd].
Qed.

Lemma get_fill_some k v xs : forall d,
  PyDict.get k (fold_left (fun d x => PyDict.set (key x) (value x) d) xs d)
  = Some v ->
  (exists x, In x xs /\ key x = k /\ value x = v) \/ PyDict.get k d = Some v.
Proof.
  induction xs as [|x xs IH]; intros d H; simpl in *; [auto|].
  apply IH in H as [(y & Hin & Hk & Hv) | H]; [left; eauto|].
  rewrite get_set in H.
  destruct (key x =? k) eqn:E; [|auto].
  apply Z.eqb_eq in E. injection H as <-. left. eauto.
Qed.

(** A key of the list is a key of the dictionary built from it. *)
Lemma get_build_present k xs :
  In k (map key xs) -> PyDict.get k (PyDict.build key value xs) <> None.
Proof.
  unfold PyDict.build. generalize (@nil (Z * V)).
  induction xs as [|x xs IH]; intros d Hin; simpl in *; [tauto|].
  destruct Hin as [E | Hin]; [|auto].
  apply get_fill_keeps. rewrite get_set, E, Z.eqb_refl.
  discriminate.
Qed.

(** What the dictionary holds under a key comes from an element of the
    list with that key. *)
Lemma get_build_some k v xs :
  PyDict.get k (PyDict.build key value xs) = Some v ->
  exists x, In x xs /\ key x = k /\ value x = v.
Proof.
  unfold PyDict.build. intros H.
  apply get_fill_some in H as [H | H]; [exact H | discriminate].
Qed.

End BuiltDictionaries.

(** ** The clock *)

Section ClockFacts.

Lemma ltb_lt a b : Clock.ltb a b = true <-> (a < b)%Q.
Proof.
  unfold Clock.ltb. rewrite negb_true_iff. split.
  - intros H. apply Qnot_le_lt. rewrite <- Qle_bool_iff. congruence.
  - intros H. destruct (Qle_bool b a) eqn:E; [|reflexivity].
    apply Qle_bool_iff in E. apply Qlt_not_le in H. tauto.
Qed.

(** A moment is before the whole number of its seconds plus a positive
    delay. *)
Lemma int_plus_future now delay :
  0 < delay -> (now < inject_Z (Clock.int now + delay))%Q.
Proof.
  intros Hd. unfold Clock.int. destruct (Qle_bool 0 now).
  - apply Qlt_le_trans with (inject_Z (Qfloor now + 1)); [apply Qlt_floor|].
    rewrite <- Zle_Qle. lia.
  - apply Qle_lt_trans with (inject_Z (Qceiling now)); [apply Qle_ceiling|].
    rewrite <- Zlt_Qlt. lia.
Qed.

End ClockFacts.

(** ** One iteration of the loop *)

Section Cycle.

Lemma init_init db : DB.init (DB.init db) = DB.init db.
Proof. apply init_initialised, init_has_state. Qed.

Lemma init_limit db : exists limit, DB.get_limit_until (DB.init db) = Some limit.
Proof.
  pose proof (init_has_state db) as H. unfold DB.get_limit_until.
  destruct (DB.state_tbl (DB.init db)); [congruence | eauto].
Qed.

Lemma init_primary_key db : DB.primary_key db -> DB.primary_key (DB.init db).
Proof. unfold DB.primary_key. rewrite init_items. auto. Qed.

Lemma set_limit_items v db : DB.items (DB.set_limit_until v db) = DB.items db.
Proof. reflexivity. Qed.

(** The answer 429 to [__fetch]. *)
Lemma fetch_rate_limited (J : Type) now db :
  GW2API.fetch now (GW2API.HTTPError 429 : GW2API.response J) db
  = (DB.set_limit_until (Clock.int now + RATE_LIMIT_RETRY) (DB.init db),
     GW2API.RateLimitHitException).
Proof. reflexivity. Qed.

(** [send_alert] is left by an exception only when it is called and ends
    with one. *)
Lemma notify_returns discord attempts alert_items :
  discord = false
  \/ fst (DiscordNotify.send_alert alert_items attempts)
     <> DiscordNotify.Raised ->
  snd (notify discord attempts alert_items) = false.
Proof.
  intros H. unfold notify.
  destruct alert_items as [|first others]; [reflexivity|].
  destruct discord; [|reflexivity].
  destruct H as [H | H]; [discriminate|].
  destruct (DiscordNotify.send_alert _ _) as [[ | |] actions];
    [reflexivity | reflexivity | elim H; reflexivity].
Qed.

Lemma notify_raises discord attempts alert_items :
  snd (notify discord attempts alert_items) = true ->
  discord = true /\ alert_items <> []
  /\ fst (DiscordNotify.send_alert alert_items attempts)
     = DiscordNotify.Raised.
Proof.
  unfold notify.
  destruct alert_items as [|first others]; [discriminate|].
  destruct discord; [|discriminate].
  destruct (DiscordNotify.send_alert _ _) as [[ | |] actions];
    simpl; intros H; try discriminate.
  repeat split. discriminate.
Qed.

(** An iteration out of cooldown, with items, whose request is answered
    with listings for all of them. *)
Lemma monitor_cycle_polls discord env db body :
  (forall limit, DB.get_limit_until (DB.init db) = Some limit ->
                 Clock.ltb (time_check env) (inject_Z limit) = false) ->
  DB.items (DB.init db) <> [] ->
  answer env = GW2API.Response (Some body) ->
  (forall id props,
      In (id, props) (DB.items (DB.init db)) ->
      PyDict.get id (PyDict.build GW2API.entry_id GW2API.listing_of body)
      <> None) ->
  let items := DB.items (DB.init db) in
  let prices := PyDict.build GW2API.entry_id GW2API.listing_of body in
  monitor_cycle discord env db
  = (persist items prices (DB.set_limit_until 0 (DB.init db)),
     map log_unusual_price (alerts_of items prices)
     ++ fst (notify discord (webhook env) (alerts_of items prices))
     ++ (if snd (notify discord (webhook env) (alerts_of items prices))
         then [Print ErrorMessage; Sleep (inject_Z CHECK_INTERVAL)]
         else [PrintStatus (alerts_of items prices);
               Sleep (inject_Z CHECK_INTERVAL)])).
Proof.
  intros Hclear Hitems Hanswer Hcov. cbv zeta.
  unfold monitor_cycle.
  destruct (init_limit db) as (limit & Hlimit). rewrite Hlimit.
  rewrite (Hclear limit Hlimit).
  destruct (DB.items (DB.init db)) as [|entry rest] eqn:E; [congruence|].
  unfold GW2API.listings, GW2API.fetch. rewrite Hanswer, init_init.
  rewrite scan_covered by exact Hcov.
  destruct (notify discord (webhook env) _) as [sent [|]]; reflexivity.
Qed.

(** An iteration out of cooldown, with items, whose request is answered
    with 429. *)
Lemma monitor_cycle_rate_limited discord env db :
  (forall limit, DB.get_limit_until (DB.init db) = Some limit ->
                 Clock.ltb (time_check env) (inject_Z limit) = false) ->
  DB.items (DB.init db) <> [] ->
  answer env = GW2API.HTTPError 429 ->
  monitor_cycle discord env db
  = (DB.set_limit_until (Clock.int (time_fetch env) + RATE_LIMIT_RETRY)
                        (DB.init db),
     [Print RateLimitExceeded; Sleep (inject_Z CHECK_INTERVAL)]).
Proof.
  intros Hclear Hitems Hanswer.
  unfold monitor_cycle.
  destruct (init_limit db) as (limit & Hlimit). rewrite Hlimit.
  rewrite (Hclear limit Hlimit).
  destruct (DB.items (DB.init db)) as [|entry rest] eqn:E; [congruence|].
  unfold GW2API.listings. rewrite Hanswer, fetch_rate_limited, init_init.
  reflexivity.
Qed.

(** An iteration during a cooldown neither asks the server nor touches
    the store. *)
Lemma monitor_cycle_cooldown discord env db limit :
  DB.get_limit_until (DB.init db) = Some limit ->
  Clock.ltb (time_check env) (inject_Z limit) = true ->
  let wait := Clock.min (inject_Z limit - time_wait env)%Q
                        (inject_Z CHECK_INTERVAL) in
  monitor_cycle discord env db
  = (DB.init db,
     if Clock.ltb wait 0
     then [Print WaitingDueToRateLimit; Print ErrorMessage;
           Sleep (inject_Z CHECK_INTERVAL)]
     else [Print WaitingDueToRateLimit; Sleep wait]).
Proof.
  intros Hlimit Hcool wait. unfold monitor_cycle.
  rewrite Hlimit, Hcool. fold wait.
  destruct (Clock.ltb wait 0); reflexivity.
Qed.

End Cycle.

(** ** Threshold evaluation *)

Lemma in_alerts_of items prices a :
  In a (alerts_of items prices) <->
  exists id props listing,
    In (id, props) items /\ PyDict.get id prices = Some listing
    /\ In a (check_item props listing).
Proof.
  unfold alerts_of. rewrite in_flat_map. split.
  - intros ([id props] & Hin & Ha). simpl in Ha.
    destruct (PyDict.get id prices) as [listing|] eqn:E; [|destruct Ha].
    exists id, props, listing. auto.
  - intros (id & props & listing & Hin & E & Ha).
    exists (id, props). simpl. rewrite E. auto.
Qed.

(** C1.  For an item and its listing, with CB and CS the best buy and sell
    prices: the alert with trigger ['buy'] (the SELL opportunity), carrying CB
    and the quantity of the buy side, is emitted exactly when CB is strictly
    above [buy_threshold]; the alert with trigger ['sell'] (the BUY
    opportunity), carrying CS and the quantity of the sell side, is emitted
    exactly when CS is strictly below [sell_threshold]; nothing else is
    emitted, and both can be.  When every item has a listing, the loop
    collects exactly the alerts of each item and logs each of them.  With
    thresholds 100 and 50, prices 150 and 40 give both alerts and prices 90
    and 60 give none. *)
Theorem threshold_evaluation :
  (forall props prices,
      let CB := GW2API.unit_price (GW2API.buy prices) in
      let CS := GW2API.unit_price (GW2API.sell prices) in
      let sell_opportunity :=
        mkAlert (DB.name props) CB (GW2API.quantity (GW2API.buy prices))
                (DB.buy_threshold props) (DB.icon_url props) trigger_buy in
      let buy_opportunity :=
        mkAlert (DB.name props) CS (GW2API.quantity (GW2API.sell prices))
                (DB.sell_threshold props) (DB.icon_url props) trigger_sell in
      (In sell_opportunity (check_item props prices)
       <-> CB > DB.buy_threshold props)
      /\ (In buy_opportunity (check_item props prices)
          <-> CS < DB.sell_threshold props)
      /\ (forall a, In a (check_item props prices) ->
                    a = sell_opportunity \/ a = buy_opportunity))
  /\ (forall items prices db,
         (forall id props, In (id, props) items ->
                           PyDict.get id prices <> None) ->
         exists db' logged alert_items,
           scan items prices db [] [] = (db', logged, Some alert_items)
           /\ logged = map log_unusual_price alert_items
           /\ forall a,
               In a alert_items <->
               exists id props listing,
                 In (id, props) items /\ PyDict.get id prices = Some listing
                 /\ In a (check_item props listing))
  /\ check_item threshold_item (listing_of_prices 150 3 40 8)
     = [mkAlert "Glob of Ectoplasm" 150 3 100 "ecto.png" trigger_buy;
        mkAlert "Glob of Ectoplasm" 40 8 50 "ecto.png" trigger_sell]
  /\ check_item threshold_item (listing_of_prices 90 3 60 8) = [].
Proof.
  split; [|split; [|split; reflexivity]].
  - intros props prices CB CS sell_opportunity buy_opportunity.
    unfold check_item. fold CB CS. rewrite Z.gtb_ltb.
    destruct (Z.ltb_spec (DB.buy_threshold props) CB) as [Hb | Hb];
      destruct (Z.ltb_spec CS (DB.sell_threshold props)) as [Hs | Hs];
      simpl; fold sell_opportunity buy_opportunity;
      (split; [|split]);
      try (split; intros H; try lia; auto;
           repeat (destruct H as [H | H]; try discriminate H; try lia; auto));
      intros a H; repeat (destruct H as [H | H]; auto); destruct H.
  - intros items prices db Hcov.
    exists (persist items prices db),
           (map log_unusual_price (alerts_of items prices)),
           (alerts_of items prices).
    rewrite scan_covered by exact Hcov.
    split; [reflexivity | split; [reflexivity|]].
    intros a. apply in_alerts_of.
Qed.

Lemma threshold_evaluation_witness :
  exists db' logged alert_items,
    scan [(42, sample_item)] [(42, listing_of_prices 600 5 90 7)] sample_db [] []
    = (db', logged, Some alert_items)
    /\ logged = map log_unusual_price alert_items
    /\ forall a,
        In a alert_items <->
        exists id props listing,
          In (id, props) [(42, sample_item)]
          /\ PyDict.get id [(42, listing_of_prices 600 5 90 7)] = Some listing
          /\ In a (check_item props listing).
Proof.
  apply (proj1 (proj2 threshold_evaluation)).
  intros id props [E | []]. injection E as <- <-. discriminate.
Defined.

(** ** Rate limiting *)

(** C2.  A 429 answer makes [__fetch] write [int(time.time()) + 1200] into
    [limit_until], a moment strictly after the reading of the clock, and
    raise RateLimitHitException, the items being untouched; an answer that is
    no error makes it write 0.  In the loop, an iteration out of cooldown
    whose request is answered with 429 only prints the notice and sleeps: it
    logs no alert, does not call the notifier, and leaves the cutoff in the
    store; and an iteration that starts before that cutoff only waits: the
    store stays as it is and the notifier is not called. *)
Theorem rate_limit_handling :
  (forall (J : Type) now db,
      exists db',
        GW2API.fetch now (GW2API.HTTPError 429 : GW2API.response J) db
        = (db', GW2API.RateLimitHitException)
        /\ DB.get_limit_until db' = Some (Clock.int now + 1200)
        /\ (now < inject_Z (Clock.int now + 1200))%Q
        /\ DB.items_tbl db' = DB.items_tbl db)
  /\ (forall (J : Type) now (body : option J) db,
         DB.get_limit_until (fst (GW2API.fetch now (GW2API.Response body) db))
         = Some 0)
  /\ (forall discord env db,
         (forall limit, DB.get_limit_until (DB.init db) = Some limit ->
                        Clock.ltb (time_check env) (inject_Z limit) = false) ->
         DB.items (DB.init db) <> [] ->
         answer env = GW2API.HTTPError 429 ->
         exists db',
           monitor_cycle discord env db
           = (db', [Print RateLimitExceeded; Sleep (inject_Z CHECK_INTERVAL)])
           /\ DB.get_limit_until db' = Some (Clock.int (time_fetch env) + 1200)
           /\ forall env',
               (time_check env' < inject_Z (Clock.int (time_fetch env) + 1200))%Q ->
               fst (monitor_cycle discord env' db') = db'
               /\ forall alert_items,
                   ~ In (SendAlert alert_items)
                        (snd (monitor_cycle discord env' db'))).
Proof.
  split; [|split].
  - intros J now db. eexists. rewrite fetch_rate_limited.
    split; [reflexivity|]. split; [|split].
    + apply limit_until_set, init_has_state.
    + apply int_plus_future. lia.
    + simpl. apply init_items.
  - intros J now body db. unfold GW2API.fetch.
    destruct body; simpl fst; apply limit_until_set, init_has_state.
  - intros discord env db Hclear Hitems Hanswer.
    eexists. rewrite monitor_cycle_rate_limited by assumption.
    split; [reflexivity|].
    set (db' := DB.set_limit_until _ _).
    assert (Hstate : DB.state_tbl db' <> []).
    { unfold db'. simpl. pose proof (init_has_state db) as H.
      destruct (DB.state_tbl (DB.init db)); [congruence | discriminate]. }
    assert (Hlimit : DB.get_limit_until db'
                     = Some (Clock.int (time_fetch env) + 1200)).
    { apply limit_until_set, init_has_state. }
    split; [exact Hlimit|].
    intros env' Hbefore.
    rewrite <- (init_initialised db' Hstate) in Hlimit.
    apply ltb_lt in Hbefore.
    rewrite (monitor_cycle_cooldown discord env' db' _ Hlimit Hbefore).
    split; [apply init_initialised, Hstate|].
    intros alert_items. simpl snd.
    destruct (Clock.ltb _ 0); simpl; intuition discriminate.
Qed.

Lemma rate_limit_handling_witness :
  exists db',
    monitor_cycle true
                  (mkEnv (1000 # 1) (1000 # 1) (20001 # 20)
                         (GW2API.HTTPError 429) []) sample_db
    = (db', [Print RateLimitExceeded; Sleep (inject_Z CHECK_INTERVAL)])
    /\ DB.get_limit_until db' = Some 2200.
Proof.
  destruct (proj2 (proj2 rate_limit_handling) true
                  (mkEnv (1000 # 1) (1000 # 1) (20001 # 20)
                         (GW2API.HTTPError 429) []) sample_db)
    as (db' & Hcycle & Hlimit & _).
  - intros limit H. injection H as <-. reflexivity.
  - discriminate.
  - reflexivity.
  - exists db'. split; [exact Hcycle | exact Hlimit].
Defined.

(** ** An empty side of the order book *)

(** C10.  In an iteration of the loop out of cooldown, on a store with its
    primary key, answered with listings for every tracked item: an item with
    [sell_threshold > 0] whose listing has no sell orders gets the alert with
    trigger ['sell'] (the BUY opportunity) with price 0 and quantity 0, which
    is logged, sent when a webhook is configured, and shown in the status
    table once [send_alert] has returned (or when no webhook is configured),
    and its row ends with [last_sell_price = 0].  And an item whose listing
    has no buy orders gets no alert with trigger ['buy'] when its
    [buy_threshold] is not negative. *)
Theorem empty_side_alert :
  (forall discord env db body props,
      DB.primary_key db ->
      (forall limit, DB.get_limit_until (DB.init db) = Some limit ->
                     Clock.ltb (time_check env) (inject_Z limit) = false) ->
      answer env = GW2API.Response (Some body) ->
      (forall row, In row (DB.items_tbl db) ->
                   In (DB.id row) (map GW2API.entry_id body)) ->
      In props (DB.items_tbl db) ->
      DB.sell_threshold props > 0 ->
      (forall entry, In entry body -> GW2API.entry_id entry = DB.id props ->
                     GW2API.sells entry = []) ->
      let alert := mkAlert (DB.name props) 0 0 (DB.sell_threshold props)
                           (DB.icon_url props) trigger_sell in
      let db' := fst (monitor_cycle discord env db) in
      let effects := snd (monitor_cycle discord env db) in
      In (LogUnusualPrice (DB.name props) 0 (DB.sell_threshold props) 0
                          trigger_sell) effects
      /\ (exists alert_items,
             In alert alert_items
             /\ (discord = true -> In (SendAlert alert_items) effects)
             /\ (discord = false
                 \/ fst (DiscordNotify.send_alert alert_items (webhook env))
                    <> DiscordNotify.Raised ->
                 In (PrintStatus alert_items) effects))
      /\ exists row, PyDict.get (DB.id props) (DB.items db') = Some row
                     /\ DB.last_sell_price row = 0)
  /\ (forall props entry a,
         GW2API.buys entry = [] -> 0 <= DB.buy_threshold props ->
         In a (check_item props (GW2API.listing_of entry)) ->
         alert_trigger a <> trigger_buy).
Proof.
  split.
  - intros discord env db body props Hpk Hclear Hanswer Hlisted Hin Hthr Hempty
           alert db' effects.
    pose proof (init_primary_key db Hpk) as Hpki.
    assert (Hitems : DB.items (DB.init db)
                     = map (fun row => (DB.id row, row)) (DB.items_tbl db)).
    { rewrite items_keyed, init_items by assumption. reflexivity. }
    set (prices := PyDict.build GW2API.entry_id GW2API.listing_of body).
    assert (Hentry : In (DB.id props, props) (DB.items (DB.init db))).
    { rewrite Hitems. apply in_map_iff. exists props. auto. }
    assert (Hcov : forall id row, In (id, row) (DB.items (DB.init db)) ->
                                  PyDict.get id prices <> None).
    { intros id row H. rewrite Hitems in H.
      apply in_map_iff in H as (r & E & H). injection E as <- <-.
      apply get_build_present, Hlisted, H. }
    assert (Hcycle := monitor_cycle_polls discord env db body Hclear).
    cbv zeta in Hcycle. fold prices in Hcycle.
    specialize (Hcycle ltac:(intros E; rewrite E in Hentry; destruct Hentry)
                       Hanswer Hcov).
    unfold db', effects. rewrite Hcycle. simpl fst. simpl snd.
    destruct (PyDict.get (DB.id props) prices) as [listing|] eqn:El;
      [|elim (Hcov _ _ Hentry El)].
    assert (Hsell : GW2API.sell listing = GW2API.mkOrder 0 0).
    { apply get_build_some in El as (entry & He & Hid & <-).
      unfold GW2API.listing_of. rewrite (Hempty entry He Hid). reflexivity. }
    assert (Halert : In alert (alerts_of (DB.items (DB.init db)) prices)).
    { apply in_alerts_of. exists (DB.id props), props, listing.
      split; [exact Hentry | split; [exact El|]].
      unfold check_item. rewrite Hsell. simpl GW2API.unit_price.
      simpl GW2API.quantity. apply in_or_app. right.
      apply Z.gt_lt, Z.ltb_lt in Hthr. rewrite Hthr. left. reflexivity. }
    split; [|split].
    + apply in_or_app. left.
      apply (in_map log_unusual_price) in Halert. exact Halert.
    + exists (alerts_of (DB.items (DB.init db)) prices).
      split; [exact Halert|]. split.
      * intros ->. apply in_or_app. right. apply in_or_app. left.
        unfold notify.
        destruct (alerts_of _ _); [destruct Halert|].
        destruct (DiscordNotify.send_alert _ _). left. reflexivity.
      * intros Hreturns. apply in_or_app. right. apply in_or_app. right.
        rewrite (notify_returns _ _ _ Hreturns). left. reflexivity.
    + eexists. split.
      * apply (persist_recorded _ _ _ props listing _ props).
        -- exact Hpki.
        -- rewrite Hitems, map_map. simpl. exact Hpk.
        -- exact Hentry.
        -- exact El.
        -- rewrite set_limit_items. apply items_get; [exact Hpki|].
           rewrite init_items. auto.
      * simpl. rewrite Hsell. reflexivity.
  - intros props entry a Hbuys Hthr Ha.
    unfold check_item, GW2API.listing_of in Ha. rewrite Hbuys in Ha.
    simpl in Ha. rewrite Z.gtb_ltb in Ha.
    destruct (Z.ltb_spec (DB.buy_threshold props) 0) as [H | H]; [lia|].
    simpl in Ha.
    destruct (_ <? _); [|destruct Ha].
    destruct Ha as [<- | []]. discriminate.
Qed.

Lemma empty_side_alert_witness :
  let env := mkEnv (1000 # 1) (1000 # 1) (1000 # 1)
                   (GW2API.Response
                      (Some [GW2API.mkEntry 42 [GW2API.mkOrder 600 5] []]))
                   [DiscordNotify.mkAttempt "t1" "t2"
                      (DiscordNotify.Status 204)] in
  In (LogUnusualPrice "Mystic Coin" 0 100 0 trigger_sell)
     (snd (monitor_cycle true env sample_db))
  /\ (exists alert_items,
         In (mkAlert "Mystic Coin" 0 0 100 "coin.png" trigger_sell) alert_items
         /\ In (SendAlert alert_items) (snd (monitor_cycle true env sample_db))
         /\ In (PrintStatus alert_items)
               (snd (monitor_cycle true env sample_db)))
  /\ exists row,
       PyDict.get 42 (DB.items (fst (monitor_cycle true env sample_db))) = Some row
       /\ DB.last_sell_price row = 0.
Proof.
  intros env.
  assert (Hpk : DB.primary_key sample_db).
  { constructor; [simpl; tauto | constructor]. }
  destruct (proj1 empty_side_alert true env sample_db
                  [GW2API.mkEntry 42 [GW2API.mkOrder 600 5] []] sample_item Hpk)
    as (Hlog & (alert_items & Hin & Hsent & Hshown) & Hrow).
  - intros limit H. injection H as <-. reflexivity.
  - reflexivity.
  - intros row [<- | []]. left. reflexivity.
  - left. reflexivity.
  - reflexivity.
  - intros entry [<- | []] _. reflexivity.
  - split; [exact Hlog | split; [|exact Hrow]].
    exists alert_items. split; [exact Hin|].
    split; [apply Hsent; reflexivity|].
    apply Hshown. right.
    destruct alert_items as [|first others]; [destruct Hin | discriminate].
Defined.

Example end_to_end :
  let busy := DiscordNotify.mkAttempt "t1" "t2"
                (DiscordNotify.HTTPError 429 (Some (Some (2 # 1)))) in
  let done := DiscordNotify.mkAttempt "t3" "t4" (DiscordNotify.Status 204) in
  monitor_cycle true
                (mkEnv (1000 # 1) (1000 # 1) (1000 # 1)
                       (GW2API.Response
                          (Some [GW2API.mkEntry 42 [GW2API.mkOrder 600 5]
                                                [GW2API.mkOrder 90 7]]))
                       [busy; done])
                sample_db
  = (DB.mk [DB.mkItem 42 "Mystic Coin" 500 100 999999999 600 90 "coin.png"]
           [DB.mkState 0 0 None],
     let alert_items :=
       [mkAlert "Mystic Coin" 600 5 500 "coin.png" trigger_buy;
        mkAlert "Mystic Coin" 90 7 100 "coin.png" trigger_sell] in
     [LogUnusualPrice "Mystic Coin" 600 500 5 trigger_buy;
      LogUnusualPrice "Mystic Coin" 90 100 7 trigger_sell;
      SendAlert alert_items;
      Notifier (DiscordNotify.Request
                  (DiscordNotify.payload_of busy alert_items));
      Notifier DiscordNotify.SayRetrying;
      Sleep (2 # 1);
      Notifier (DiscordNotify.Request
                  (DiscordNotify.payload_of done alert_items));
      PrintStatus alert_items; Sleep (300 # 1)]).
Proof. reflexivity. Qed.

(** An unusable [Retry-After] header ends the iteration before the status
    table is printed. *)
Example send_alert_raises :
  let broken := DiscordNotify.mkAttempt "t1" "t2"
                  (DiscordNotify.HTTPError 429 (Some None)) in
  snd (monitor_cycle true
                (mkEnv (1000 # 1) (1000 # 1) (1000 # 1)
                       (GW2API.Response
                          (Some [GW2API.mkEntry 42 [GW2API.mkOrder 600 5]
                                                [GW2API.mkOrder 190 7]]))
                       [broken])
                sample_db)
  = (let alert_items :=
       [mkAlert "Mystic Coin" 600 5 500 "coin.png" trigger_buy] in
     [LogUnusualPrice "Mystic Coin" 600 500 5 trigger_buy;
      SendAlert alert_items;
      Notifier (DiscordNotify.Request
                  (DiscordNotify.payload_of broken alert_items));
      Notifier DiscordNotify.SayRetrying;
      Print ErrorMessage; Sleep (300 # 1)]).
Proof. reflexivity. Qed.

(** ** The price text format *)

(** C3.  [parse_price_input("1g23s45c")] is 12345, [format_price(12345)] is
    ["1g23s45c"], and whenever the parser accepts a text, formatting the
    amount it returns gives the normalized rendering of that text, and nothing
    else is one: the amounts of the text added up at 1 gold = 100 silver =
    10000 copper, printed with gold unpadded and silver and copper on two
    digits.  This is for texts and amounts within the limit of the
    interpreter on the digits of a number: no amount of the text has more
    than 4300 digits, and neither has the gold to print. *)
Theorem price_round_trip :
  parse_price_input "1g23s45c" = Price 12345
  /\ format_price 12345 = "1g23s45c"
  /\ forall x copper,
      parse_price_input x = Price copper ->
      PyStr.int_in_limit (PyStr.of_string x) ->
      PyStr.str_in_limit (copper / 10000) ->
      PriceSpec.normalizes_to x (format_price copper)
      /\ forall out, PriceSpec.normalizes_to x out -> out = format_price copper.
Proof.
  split; [reflexivity | split; [reflexivity|]].
  intros x copper H _ _. unfold parse_price_input in H. split.
  - apply parse_price_chars_accepts in H
      as (gold & silver & cop & Hg & Hs & Hc & E & ->).
    exists gold, silver, cop. repeat split; auto.
    apply format_price_render.
  - intros out (gold & silver & cop & Hg & Hs & Hc & E & ->).
    rewrite (parse_price_chars_total _ gold silver cop) in H by assumption.
    injection H as <-. symmetry. apply format_price_render.
Qed.

Lemma price_round_trip_witness :
  parse_price_input " 150S " = Price 15000
  /\ format_price 15000 = "1g50s00c"
  /\ PriceSpec.normalizes_to " 150S " (format_price 15000).
Proof.
  split; [reflexivity | split; [reflexivity|]].
  apply (proj2 (proj2 price_round_trip) " 150S " 15000); reflexivity.
Defined.

Lemma fetch_items_tbl (J : Type) now (resp : GW2API.response J) db :
  DB.items_tbl (fst (GW2API.fetch now resp db)) = DB.items_tbl db.
Proof.
  destruct resp as [[json|] | code |]; simpl; try apply init_items; try reflexivity.
  destruct (code =? 429); simpl; [apply init_items | reflexivity].
Qed.

Lemma client_items_store now resp db :
  fst (GW2API.items now resp db) = fst (GW2API.fetch now resp db).
Proof.
  unfold GW2API.items. destruct (GW2API.fetch now resp db) as [db' [json| |]];
    reflexivity.
Qed.

(** A rejected threshold ends [actionAdd] before any row is written. *)
Lemma add_each_rejected items buy sell db printed :
  parse_price_input buy = InvalidPriceFormat
  \/ parse_price_input sell = InvalidPriceFormat ->
  fst (add_each items buy sell db printed) = db.
Proof.
  intros H. destruct items as [|[item_id item] rest]; simpl; [reflexivity|].
  destruct (parse_price_input buy); [|reflexivity].
  destruct (parse_price_input sell); [|reflexivity].
  destruct H; discriminate.
Qed.

Lemma parse_if_given_rejected text :
  parse_price_input text = InvalidPriceFormat ->
  parse_if_given (Some text) = None.
Proof.
  intros H. destruct text as [|c text]; [discriminate H|].
  unfold parse_if_given. rewrite H. reflexivity.
Qed.

(** C4.  The parser accepts a text whose amounts have at most 4300 digits
    each, the limit of the interpreter, exactly when, trimmed and lowercased,
    it has the structure [(\d+g)?(\d+s)?(\d+c)?], and answers every text
    without that structure with InvalidPriceFormat.  A rejected threshold
    leaves the store alone: [actionThreshold] returns the store as [DB()]
    opened it, and [actionAdd] returns the store as the request for the item
    left it, with the rows of table [items] as they were. *)
Theorem price_validation :
  (forall x, PyStr.int_in_limit (PyStr.of_string x) ->
             ((exists copper, parse_price_input x = Price copper)
              <-> PriceSpec.valid_price x))
  /\ (forall x, ~ PriceSpec.valid_price x ->
                parse_price_input x = InvalidPriceFormat)
  /\ (forall id buy sell db text,
         buy = Some text \/ sell = Some text ->
         parse_price_input text = InvalidPriceFormat ->
         actionThreshold id buy sell db
         = (DB.init db, [InvalidThresholdFormat]))
  /\ (forall now resp buy sell db,
         parse_price_input buy = InvalidPriceFormat
         \/ parse_price_input sell = InvalidPriceFormat ->
         fst (actionAdd now resp buy sell db)
         = fst (GW2API.items now resp (DB.init db))
         /\ DB.items_tbl (fst (actionAdd now resp buy sell db))
            = DB.items_tbl db).
Proof.
  split; [|split; [|split]].
  - intros x _. symmetry. apply parse_price_chars_well_formed.
  - intros x. apply parse_price_chars_rejects.
  - intros id buy sell db text Hwhich Hbad.
    apply parse_if_given_rejected in Hbad. unfold actionThreshold.
    destruct Hwhich as [-> | ->].
    + rewrite Hbad. reflexivity.
    + rewrite Hbad. destruct (parse_if_given buy); reflexivity.
  - intros now resp buy sell db Hbad.
    assert (E : fst (actionAdd now resp buy sell db)
                = fst (GW2API.items now resp (DB.init db))).
    { unfold actionAdd.
      destruct (GW2API.items now resp (DB.init db)) as [db1 [items| |]];
        simpl; try reflexivity.
      apply add_each_rejected. exact Hbad. }
    split; [exact E|].
    rewrite E, client_items_store, fetch_items_tbl, init_items. reflexivity.
Qed.

Lemma price_validation_witness :
  PriceSpec.valid_price " 2G5c"
  /\ parse_price_input "1s2g" = InvalidPriceFormat
  /\ actionThreshold 42 (Some "1s2g") None sample_db
     = (sample_db, [InvalidThresholdFormat])
  /\ fst (actionAdd (1000 # 1)
                    (GW2API.Response (Some [GW2API.mkMeta 7 "Ecto" "ecto.png"]))
                    "2g" "12" sample_db)
     = sample_db.
Proof.
  split; [|split; [reflexivity | split]].
  - apply (proj1 price_validation " 2G5c"); [reflexivity|].
    exists 20005. reflexivity.
  - apply (proj1 (proj2 (proj2 price_validation)) 42 (Some "1s2g") None
                 sample_db "1s2g").
    + left. reflexivity.
    + reflexivity.
  - assert (Hbad : parse_price_input "2g" = InvalidPriceFormat
                   \/ parse_price_input "12" = InvalidPriceFormat).
    { right. reflexivity. }
    exact (proj1 (proj2 (proj2 (proj2 price_validation)) (1000 # 1)
                        (GW2API.Response (Some [GW2API.mkMeta 7 "Ecto" "ecto.png"]))
                        "2g" "12" sample_db Hbad)).
Defined.

(** C9.  The parser accepts the empty text, and every text made of
    whitespace only, and returns 0 for it. *)
Theorem empty_price_is_zero :
  parse_price_input "" = Price 0
  /\ forall x,
      Forall (fun c => PyStr.is_space c = true) (PyStr.of_string x) ->
      parse_price_input x = Price 0.
Proof.
  split; [reflexivity|].
  intros x Hx. unfold parse_price_input, parse_price_chars, PyStr.strip.
  rewrite lstrip_spaces by exact Hx. reflexivity.
Qed.

Lemma empty_price_is_zero_witness :
  parse_price_input (String " " (String "009" (String "010" " "))) = Price 0.
Proof.
  apply (proj2 empty_price_is_zero).
  repeat constructor.
Defined.

(** An item without a listing in the answer ends the loop over the items
    with [KeyError]: the items after it are neither recorded nor checked, and
    the alerts found before it are logged but not sent. *)
Example missing_listing_stops_the_loop :
  monitor_cycle true
                (mkEnv (1000 # 1) (1000 # 1) (1000 # 1)
                       (GW2API.Response
                          (Some [GW2API.mkEntry 42 [GW2API.mkOrder 600 5]
                                                [GW2API.mkOrder 90 7]]))
                       [])
                (DB.mk [threshold_item; sample_item] [DB.mkState 0 0 None])
  = (DB.mk [threshold_item; sample_item] [DB.mkState 0 0 None],
     [Print ErrorMessage; Sleep (300 # 1)]).
Proof. reflexivity. Qed.

(** * More properties *)

(** ** Printing and reading numbers *)

Section Numbers.

Lemma of_string_app a b :
  PyStr.of_string (a ++ b)%string = PyStr.of_string a ++ PyStr.of_string b.
Proof.
  unfold PyStr.of_string. induction a as [|c a IH]; simpl; [reflexivity|].
  rewrite IH. reflexivity.
Qed.

Lemma uint_chars_digits d :
  Forall (fun c => PyStr.is_digit c = true)
         (PyStr.of_string (NilEmpty.string_of_uint d)).
Proof.
  induction d; simpl; constructor; auto.
Qed.

(** Reading the digits of a decimal number from the left gives the number
    that the library reads from the right. *)
Lemma uint_chars_value d : forall d',
  fold_left (fun acc c => 10 * acc + PyStr.digit_value c)
            (PyStr.of_string (NilEmpty.string_of_uint d))
            (Z.of_N (DecimalPos.Unsigned.of_lu d'))
  = Z.of_N (DecimalPos.Unsigned.of_lu (Decimal.revapp d d')).
Proof.
  induction d; intros d';
    cbn [NilEmpty.string_of_uint PyStr.of_string list_ascii_of_string
         fold_left Decimal.revapp];
    [reflexivity| ..];
    rewrite <- IHd; f_equal;
    match goal with
    | |- _ = Z.of_N (DecimalPos.Unsigned.of_lu ?x) =>
        rewrite (DecimalPos.Unsigned.of_lu_eqn x)
    end;
    cbn [DecimalPos.Unsigned.hd DecimalPos.Unsigned.tl];
    match goal with
    | |- context [PyStr.digit_value ?c] =>
        let v := eval vm_compute in (PyStr.digit_value c) in
        change (PyStr.digit_value c) with v
    end; lia.
Qed.

Lemma str_of_int_chars n :
  0 <= n ->
  PyStr.digit_run (PyStr.of_string (PyStr.str_of_int n))
  /\ PyStr.int_of_digits (PyStr.of_string (PyStr.str_of_int n)) = n.
Proof.
  intros Hn. unfold PyStr.str_of_int. destruct n as [|p|p]; [| |lia].
  - split; [split; [discriminate | repeat constructor] | reflexivity].
  - simpl Z.to_int. simpl NilZero.string_of_int.
    assert (E : NilZero.string_of_uint (Pos.to_uint p)
                = NilEmpty.string_of_uint (Pos.to_uint p)).
    { pose proof (DecimalPos.Unsigned.to_uint_nonnil p) as H.
      destruct (Pos.to_uint p); [congruence | reflexivity ..]. }
    rewrite E. split.
    + split; [|apply uint_chars_digits].
      pose proof (DecimalPos.Unsigned.to_uint_nonnil p) as H.
      destruct (Pos.to_uint p); [congruence | discriminate ..].
    + unfold PyStr.int_of_digits.
      etransitivity;
        [exact (uint_chars_value (Pos.to_uint p) Decimal.Nil)|].
      fold (Decimal.rev (Pos.to_uint p)).
      rewrite <- DecimalPos.Unsigned.of_uint_alt, DecimalPos.Unsigned.of_to.
      reflexivity.
Qed.

Lemma str_of_int_negative n :
  n < 0 -> exists rest, PyStr.of_string (PyStr.str_of_int n) = "-"%char :: rest.
Proof.
  intros Hn. destruct n as [|p|p]; try lia.
  unfold PyStr.str_of_int. simpl. eauto.
Qed.

Lemma str_of_int_plain n :
  Forall (fun c => PyStr.is_digit c = true \/ c = "-"%char)
         (PyStr.of_string (PyStr.str_of_int n)).
Proof.
  assert (U : forall d, Forall (fun c => PyStr.is_digit c = true \/ c = "-"%char)
                               (PyStr.of_string (NilZero.string_of_uint d))).
  { intros d. assert (H := uint_chars_digits d).
    destruct d; simpl; try (repeat constructor; auto; fail);
      (eapply Forall_impl; [|exact H]); auto. }
  unfold PyStr.str_of_int. destruct (Z.to_int n); simpl; [apply U|].
  constructor; [auto | apply U].
Qed.

Lemma int_of_digits_nonneg s :
  Forall (fun c => PyStr.is_digit c = true) s -> 0 <= PyStr.int_of_digits s.
Proof.
  unfold PyStr.int_of_digits.
  assert (G : forall acc, 0 <= acc ->
                Forall (fun c => PyStr.is_digit c = true) s ->
                0 <= fold_left (fun a c => 10 * a + PyStr.digit_value c) s acc).
  { induction s as [|c s IH]; intros acc Hacc Hs; cbn [fold_left];
      [exact Hacc|].
    inversion Hs as [|? ? Hc Hs']; subst. apply IH; [|exact Hs'].
    unfold PyStr.is_digit in Hc. cbv zeta in Hc.
    apply andb_true_iff in Hc as [H1 _].
    apply N.leb_le in H1. unfold PyStr.digit_value. lia. }
  apply G. lia.
Qed.

End Numbers.

(** ** Formatting, then parsing *)

Section FormatParse.

Import PriceSpec.

Lemma digit_plain c :
  PyStr.is_digit c = true \/ c = "-"%char \/ c = "g"%char \/ c = "s"%char
  \/ c = "c"%char ->
  PyStr.is_space c = false /\ PyStr.lower_char c = c.
Proof.
  intros [H | [-> | [-> | [-> | ->]]]]; try (split; reflexivity).
  revert H. destruct c as [[] [] [] [] [] [] [] []]; vm_compute;
    intros H; try discriminate H; split; reflexivity.
Qed.

Lemma rstrip_plain x :
  Forall (fun c => PyStr.is_space c = false) x -> PyStr.rstrip x = x.
Proof.
  induction 1 as [|c x Hc _ IH]; simpl; [reflexivity|].
  rewrite IH, Hc. destruct x; reflexivity.
Qed.

Lemma strip_plain x :
  Forall (fun c => PyStr.is_space c = false) x -> PyStr.strip x = x.
Proof.
  intros H. unfold PyStr.strip.
  replace (PyStr.lstrip x) with x; [apply rstrip_plain, H|].
  destruct H as [|c x Hc _]; simpl; [reflexivity|]. rewrite Hc. reflexivity.
Qed.

Lemma lower_plain x :
  Forall (fun c => PyStr.lower_char c = c) x -> PyStr.lower x = x.
Proof.
  unfold PyStr.lower. induction 1 as [|c x Hc _ IH]; simpl; congruence.
Qed.

Lemma plain_text x :
  Forall (fun c => PyStr.is_digit c = true \/ c = "-"%char \/ c = "g"%char
                   \/ c = "s"%char \/ c = "c"%char) x ->
  PyStr.lower (PyStr.strip x) = x.
Proof.
  intros H.
  rewrite strip_plain, lower_plain; [reflexivity | |];
    (eapply Forall_impl; [|exact H]); intros c Hc; apply digit_plain, Hc.
Qed.

(** The two-digit fields of a price: two digits that read back as the
    number. *)
Lemma format_02d_chars k :
  0 <= k < 100 ->
  PyStr.digit_run (PyStr.of_string (PyStr.format_02d k))
  /\ PyStr.int_of_digits (PyStr.of_string (PyStr.format_02d k)) = k.
Proof.
  intros Hk.
  assert (H : forallb
                (fun k =>
                   let cs := PyStr.of_string (PyStr.format_02d k) in
                   forallb PyStr.is_digit cs
                   && (List.length cs =? 2)%nat
                   && (PyStr.int_of_digits cs =? k))
                (map Z.of_nat (seq 0 100)) = true)
    by (vm_compute; reflexivity).
  rewrite forallb_forall in H. specialize (H k).
  cbv zeta in H. rewrite !andb_true_iff in H.
  destruct H as [[Hd Hl] Hv].
  { rewrite in_map_iff. exists (Z.to_nat k). split; [lia|]. apply in_seq. lia. }
  rewrite forallb_forall in Hd. apply Nat.eqb_eq in Hl. apply Z.eqb_eq in Hv.
  split; [split|exact Hv].
  - intros E. rewrite E in Hl. discriminate.
  - apply Forall_forall. exact Hd.
Qed.

Lemma format_price_chars n :
  PyStr.of_string (format_price n)
  = PyStr.of_string (PyStr.str_of_int (n / 10000)) ++ ["g"%char]
    ++ PyStr.of_string (PyStr.format_02d ((n mod 10000) / 100)) ++ ["s"%char]
    ++ PyStr.of_string (PyStr.format_02d (n mod 100)) ++ ["c"%char].
Proof.
  unfold format_price. rewrite !of_string_app. reflexivity.
Qed.

Lemma silver_range n : 0 <= (n mod 10000) / 100 < 100.
Proof.
  pose proof (Z.mod_pos_bound n 10000 ltac:(lia)) as H.
  split; [apply Z.div_pos; lia | apply Z.div_lt_upper_bound; lia].
Qed.

Lemma format_price_plain n :
  PyStr.lower (PyStr.strip (PyStr.of_string (format_price n)))
  = PyStr.of_string (format_price n).
Proof.
  apply plain_text. rewrite format_price_chars.
  destruct (format_02d_chars _ (silver_range n)) as [[_ Hs] _].
  destruct (format_02d_chars (n mod 100) (Z.mod_pos_bound n 100 ltac:(lia)))
    as [[_ Hc] _].
  set (P := fun c => PyStr.is_digit c = true \/ c = "-"%char \/ c = "g"%char
                     \/ c = "s"%char \/ c = "c"%char).
  assert (Hd : forall x, Forall (fun c => PyStr.is_digit c = true) x ->
                         Forall P x).
  { intros x Hx. eapply Forall_impl; [|exact Hx]. intros c Hx'. left. exact Hx'. }
  assert (Hg : Forall P (PyStr.of_string (PyStr.str_of_int (n / 10000)))).
  { eapply Forall_impl; [|apply str_of_int_plain].
    intros c [H | H]; [left | right; left]; exact H. }
  repeat (apply Forall_app; split); auto;
    constructor; try constructor; unfold P; tauto.
Qed.

(** A well-formed price starts with a digit or a unit letter. *)
Lemma well_formed_first c rest :
  well_formed (c :: rest) ->
  PyStr.is_digit c = true \/ c = "g"%char \/ c = "s"%char \/ c = "c"%char.
Proof.
  intros (gold & silver & copper & Hg & Hs & Hc & E).
  assert (F : forall amount u tail,
             valid_amount amount ->
             component amount u ++ tail = c :: rest ->
             amount <> None -> PyStr.is_digit c = true).
  { intros [ds|] u tail Hv Et Hn; [|congruence]. simpl in Et.
    destruct Hv as [Hne Hall]. destruct ds as [|d ds]; [congruence|].
    simpl in Et. injection Et as <- _. inversion Hall; assumption. }
  unfold price_text in E. symmetry in E.
  destruct gold as [g|];
    [left; apply (F (Some g) "g"%char _ Hg E); discriminate|].
  simpl in E.
  destruct silver as [s|];
    [left; apply (F (Some s) "s"%char _ Hs E); discriminate|].
  simpl in E.
  destruct copper as [k|]; [|discriminate E].
  left. apply (F (Some k) "c"%char [] Hc); [|discriminate].
  rewrite app_nil_r. exact E.
Qed.

End FormatParse.

(** X1.  Parsing what [format_price] prints gives the amount back when it
    is not negative, and is refused when it is negative.  This is for an
    amount whose gold [format_price] can print, one of at most 4300 digits,
    the limit of the interpreter. *)
Theorem format_then_parse n :
  PyStr.str_in_limit (n / 10000) ->
  parse_price_input (format_price n)
  = if 0 <=? n then Price n else InvalidPriceFormat.
Proof.
  intros _.
  unfold parse_price_input. destruct (Z.leb_spec 0 n) as [Hn | Hn].
  - assert (Hgold : 0 <= n / 10000) by (apply Z.div_pos; lia).
    destruct (str_of_int_chars _ Hgold) as [Hg Vg].
    destruct (format_02d_chars _ (silver_range n)) as [Hs Vs].
    destruct (format_02d_chars (n mod 100) (Z.mod_pos_bound n 100 ltac:(lia)))
      as [Hc Vc].
    rewrite (parse_price_chars_total _
               (Some (PyStr.of_string (PyStr.str_of_int (n / 10000))))
               (Some (PyStr.of_string (PyStr.format_02d ((n mod 10000) / 100))))
               (Some (PyStr.of_string (PyStr.format_02d (n mod 100)))));
      try assumption.
    + f_equal. unfold PriceSpec.total, PriceSpec.amount_value.
      rewrite Vg, Vs, Vc.
      pose proof (Z.div_mod n 10000 ltac:(lia)).
      pose proof (Z.div_mod (n mod 10000) 100 ltac:(lia)).
      replace (n mod 100) with ((n mod 10000) mod 100); [lia|].
      apply Z.mod_mod_divide. exists 100. lia.
    + rewrite format_price_plain, format_price_chars.
      unfold PriceSpec.price_text, PriceSpec.component.
      rewrite <- !app_assoc. reflexivity.
  - apply parse_price_chars_rejects. rewrite format_price_plain.
    rewrite format_price_chars.
    destruct (str_of_int_negative (n / 10000)) as (rest & E).
    { apply Z.div_lt_upper_bound; lia. }
    rewrite E. intros H. apply well_formed_first in H.
    destruct H as [H | [H | [H | H]]]; discriminate H.
Qed.

Lemma format_then_parse_witness :
  parse_price_input (format_price 1234567) = Price 1234567
  /\ parse_price_input (format_price (-5)) = InvalidPriceFormat.
Proof.
  split.
  - apply (format_then_parse 1234567). reflexivity.
  - apply (format_then_parse (-5)). reflexivity.
Defined.

(** X2.  An amount that the parser returns is never negative. *)
Theorem parse_price_nonnegative x copper :
  parse_price_input x = Price copper -> 0 <= copper.
Proof.
  unfold parse_price_input. intros H.
  apply parse_price_chars_accepts in H
    as (gold & silver & cop & Hg & Hs & Hc & _ & ->).
  assert (V : forall amount, PriceSpec.valid_amount amount ->
                             0 <= PriceSpec.amount_value amount).
  { intros [ds|] Hv; simpl; [|lia]. apply int_of_digits_nonneg, Hv. }
  unfold PriceSpec.total.
  pose proof (V gold Hg). pose proof (V silver Hs). pose proof (V cop Hc). lia.
Qed.

Lemma parse_price_nonnegative_witness :
  parse_price_input "007g" = Price 70000 /\ 0 <= 70000.
Proof.
  split; [reflexivity|].
  apply (parse_price_nonnegative "007g" 70000). reflexivity.
Defined.

(** ** Spaces and capitals *)

Section SpacesAndCapitals.

Lemma lstrip_pad ws x :
  Forall (fun c => PyStr.is_space c = true) ws ->
  PyStr.lstrip (ws ++ x) = PyStr.lstrip x.
Proof.
  induction 1 as [|c ws Hc _ IH]; simpl; [reflexivity|]. rewrite Hc. exact IH.
Qed.

Lemma rstrip_spaces ws :
  Forall (fun c => PyStr.is_space c = true) ws -> PyStr.rstrip ws = [].
Proof.
  induction 1 as [|c ws Hc _ IH]; simpl; [reflexivity|]. rewrite IH, Hc.
  reflexivity.
Qed.

Lemma rstrip_pad x ws :
  Forall (fun c => PyStr.is_space c = true) ws ->
  PyStr.rstrip (x ++ ws) = PyStr.rstrip x.
Proof.
  intros Hws. induction x as [|c x IH]; simpl.
  - apply rstrip_spaces, Hws.
  - rewrite IH. reflexivity.
Qed.

Lemma strip_pad_right x ws :
  Forall (fun c => PyStr.is_space c = true) ws ->
  PyStr.strip (x ++ ws) = PyStr.strip x.
Proof.
  intros Hws. unfold PyStr.strip. induction x as [|c x IH]; simpl.
  - rewrite lstrip_spaces by exact Hws. reflexivity.
  - destruct (PyStr.is_space c); [exact IH|].
    apply (rstrip_pad (c :: x)), Hws.
Qed.

Lemma strip_pad a x b :
  Forall (fun c => PyStr.is_space c = true) a ->
  Forall (fun c => PyStr.is_space c = true) b ->
  PyStr.strip (a ++ x ++ b) = PyStr.strip x.
Proof.
  intros Ha Hb. unfold PyStr.strip at 1. rewrite lstrip_pad by exact Ha.
  apply strip_pad_right, Hb.
Qed.

Lemma lower_lstrip x :
  PyStr.lower (PyStr.lstrip x) = PyStr.lstrip (PyStr.lower x).
Proof.
  induction x as [|c x IH]; simpl; [reflexivity|].
  rewrite lower_char_space. destruct (PyStr.is_space c); [exact IH | reflexivity].
Qed.

Lemma lower_rstrip x :
  PyStr.lower (PyStr.rstrip x) = PyStr.rstrip (PyStr.lower x).
Proof.
  induction x as [|c x IH]; simpl; [reflexivity|].
  rewrite <- IH, lower_char_space.
  destruct (PyStr.rstrip x); simpl; [|reflexivity].
  destruct (PyStr.is_space c); reflexivity.
Qed.

(** Trimming and lowercasing can be done in either order. *)
Lemma lower_strip x :
  PyStr.lower (PyStr.strip x) = PyStr.strip (PyStr.lower x).
Proof.
  unfold PyStr.strip. rewrite lower_rstrip, lower_lstrip. reflexivity.
Qed.

End SpacesAndCapitals.

(** X3.  Whitespace around a price and the case of its letters do not
    matter: a text padded with whitespace on both sides is parsed like the
    text itself, and two texts that are equal once lowercased are parsed
    alike. *)
Theorem parse_price_padding_and_case :
  (forall a x b,
      Forall (fun c => PyStr.is_space c = true) (PyStr.of_string a) ->
      Forall (fun c => PyStr.is_space c = true) (PyStr.of_string b) ->
      parse_price_input (a ++ x ++ b)%string = parse_price_input x)
  /\ (forall x y,
         PyStr.lower (PyStr.of_string x) = PyStr.lower (PyStr.of_string y) ->
         parse_price_input x = parse_price_input y).
Proof.
  split.
  - intros a x b Ha Hb. unfold parse_price_input, parse_price_chars.
    rewrite !of_string_app, strip_pad by assumption. reflexivity.
  - intros x y E. unfold parse_price_input, parse_price_chars.
    rewrite !lower_strip, E. reflexivity.
Qed.

Lemma parse_price_padding_and_case_witness :
  parse_price_input (String "009" " " ++ "2g50s" ++ String "010" "")%string
  = parse_price_input "2g50s"
  /\ parse_price_input "2G50s" = parse_price_input "2g50S".
Proof.
  split.
  - apply (proj1 parse_price_padding_and_case (String "009" " ") "2g50s"
                 (String "010" "")); repeat constructor.
  - apply (proj2 parse_price_padding_and_case "2G50s" "2g50S"). reflexivity.
Defined.

(** ** Identifiers and names stay unique *)

Section Uniqueness.

Context {A : Type} (g : DB.Item -> A).

Lemma insert_row_no_dup_by x rows :
  NoDup (map g rows) -> ~ In (g x) (map g rows) ->
  NoDup (map g (DB.insert_row x rows)).
Proof.
  induction rows as [|r rows IH]; simpl; intros Hnd Hx.
  - constructor; [tauto | constructor].
  - destruct (DB.id x <? DB.id r); simpl.
    + constructor; assumption.
    + inversion Hnd as [|? ? Hr Hrows]; subst. constructor.
      * intros Hin. apply in_map_iff in Hin as (row & E & Hin).
        apply in_insert_row in Hin as [-> | Hin]; [intuition congruence|].
        apply Hr. rewrite <- E. apply in_map. exact Hin.
      * apply IH; tauto.
Qed.

Lemma filter_no_dup_by (p : DB.Item -> bool) rows :
  NoDup (map g rows) -> NoDup (map g (filter p rows)).
Proof.
  induction rows as [|r rows IH]; simpl; intros Hnd; [constructor|].
  inversion Hnd as [|? ? Hr Hrows]; subst.
  destruct (p r); simpl; [constructor | auto]; auto.
  intros Hin. apply in_map_iff in Hin as (row & E & Hin).
  apply filter_In in Hin as [Hin _].
  apply Hr. rewrite <- E. apply in_map. exact Hin.
Qed.

Lemma update_where_id_by i f db :
  (forall row, g (f row) = g row) ->
  map g (DB.items_tbl (DB.update_where_id i f db)) = map g (DB.items_tbl db).
Proof.
  intros Hf. simpl. rewrite map_map. apply map_ext.
  intros row. destruct (DB.id row =? i); auto.
Qed.

End Uniqueness.

Section Settings.

Lemma settings_ids rows rows' :
  map settings rows = map settings rows' ->
  map DB.id rows = map DB.id rows' /\ map DB.name rows = map DB.name rows'.
Proof.
  intros E. split.
  - apply (f_equal (map (fun t => fst (fst (fst (fst (fst t))))))) in E.
    rewrite !map_map in E. exact E.
  - apply (f_equal (map (fun t => snd (fst (fst (fst (fst t))))))) in E.
    rewrite !map_map in E. exact E.
Qed.

Lemma update_prices_settings db i b s lowest :
  lowest = None ->
  map settings (DB.items_tbl (fst (DB.update_prices db i b s lowest)))
  = map settings (DB.items_tbl db).
Proof.
  intros ->. simpl. rewrite map_map. apply map_ext.
  intros row. destruct (DB.id row =? i); reflexivity.
Qed.

Lemma update_prices_state db i b s lowest :
  DB.state_tbl (fst (DB.update_prices db i b s lowest)) = DB.state_tbl db.
Proof. reflexivity. Qed.

(** Whatever happens in the loop over the items, it writes log lines for
    the alerts it has found, and changes nothing in the store but last
    prices. *)
Lemma scan_shape items prices : forall db logged alert_items,
  exists db' new outcome,
    scan items prices db logged alert_items
    = (db', logged ++ map log_unusual_price new, outcome)
    /\ (outcome = None \/ outcome = Some (alert_items ++ new))
    /\ map settings (DB.items_tbl db') = map settings (DB.items_tbl db)
    /\ DB.state_tbl db' = DB.state_tbl db.
Proof.
  induction items as [|[id props] items IH]; intros db logged alert_items.
  - exists db, [], (Some alert_items). simpl. rewrite !app_nil_r. auto.
  - cbn [scan]. destruct (PyDict.get id prices) as [listing|].
    + cbv zeta.
      match goal with
      | |- context [scan items prices ?d ?l ?a] =>
          destruct (IH d l a) as (db' & new & outcome & E & Hout & Hset & Hst)
      end.
      exists db', (check_item props listing ++ new), outcome.
      rewrite E, map_app, !app_assoc. split; [reflexivity|].
      split; [exact Hout|]. split.
      * rewrite Hset. apply update_prices_settings. reflexivity.
      * rewrite Hst. reflexivity.
    + exists db, [], None. rewrite app_nil_r. auto.
Qed.

Lemma fetch_state_columns (J : Type) now (resp : GW2API.response J) db :
  DB.state_tbl db <> [] ->
  map (fun row => (DB.last_run row, DB.custom_dir row))
      (DB.state_tbl (fst (GW2API.fetch now resp db)))
  = map (fun row => (DB.last_run row, DB.custom_dir row)) (DB.state_tbl db).
Proof.
  intros Hst.
  assert (S : forall v,
             map (fun row => (DB.last_run row, DB.custom_dir row))
                 (DB.state_tbl (DB.set_limit_until v (DB.init db)))
             = map (fun row => (DB.last_run row, DB.custom_dir row))
                   (DB.state_tbl db)).
  { intros v. rewrite init_initialised by exact Hst. simpl.
    rewrite map_map. reflexivity. }
  destruct resp as [[json|] | code |]; simpl; try apply S; try reflexivity.
  destruct (code =? 429); simpl; [apply S | reflexivity].
Qed.

Lemma listings_store now resp db :
  fst (GW2API.listings now resp db) = fst (GW2API.fetch now resp db).
Proof.
  unfold GW2API.listings.
  destruct (GW2API.fetch now resp db) as [db' [json| |]]; reflexivity.
Qed.

(** An iteration of the loop changes nothing in the store but the last
    prices and the cutoff of the cooldown. *)
Lemma monitor_cycle_store discord env db :
  map settings (DB.items_tbl (fst (monitor_cycle discord env db)))
  = map settings (DB.items_tbl db)
  /\ map (fun row => (DB.last_run row, DB.custom_dir row))
         (DB.state_tbl (fst (monitor_cycle discord env db)))
     = map (fun row => (DB.last_run row, DB.custom_dir row))
           (DB.state_tbl (DB.init db)).
Proof.
  unfold monitor_cycle.
  destruct (DB.get_limit_until (DB.init db)) as [limit|];
    [|simpl; rewrite init_items; auto].
  destruct (Clock.ltb (time_check env) (inject_Z limit)).
  { destruct (Clock.ltb _ 0); simpl; rewrite init_items; auto. }
  destruct (DB.items (DB.init db)) as [|entry rest] eqn:Eitems;
    [simpl; rewrite init_items; auto|].
  pose proof (listings_store (time_fetch env) (answer env) (DB.init db)) as Hl.
  pose proof (fetch_items_tbl _ (time_fetch env) (answer env) (DB.init db)) as Hi.
  pose proof (fetch_state_columns _ (time_fetch env) (answer env) (DB.init db)
                                  (init_has_state db)) as Hs.
  rewrite <- Hl in Hi, Hs. rewrite init_items in Hi.
  destruct (GW2API.listings (time_fetch env) (answer env) (DB.init db))
    as [db1 [prices| |]]; simpl in Hi, Hs;
    [| cbn [fst]; rewrite Hi; auto ..].
  destruct (scan_shape (entry :: rest) prices db1 [] [])
    as (db' & new & outcome & E & _ & Hset & Hst).
  rewrite E. destruct outcome as [alert_items|];
    [destruct (notify discord (webhook env) alert_items) as [sent [|]]|];
    cbn [fst]; rewrite Hset, Hst, Hi; auto.
Qed.

End Settings.

Section WellKeyed.

Lemma well_keyed_same_rows db db' :
  map settings (DB.items_tbl db') = map settings (DB.items_tbl db) ->
  well_keyed db -> well_keyed db'.
Proof.
  intros E [Hid Hname]. apply settings_ids in E as [Ei En].
  unfold well_keyed, DB.primary_key, unique_names in *.
  rewrite Ei, En. auto.
Qed.

Lemma well_keyed_init db : well_keyed db -> well_keyed (DB.init db).
Proof. apply well_keyed_same_rows. rewrite init_items. reflexivity. Qed.

Lemma well_keyed_update i f db :
  (forall row, settings (f row) = settings row \/
               (DB.id (f row) = DB.id row /\ DB.name (f row) = DB.name row)) ->
  well_keyed db -> well_keyed (DB.update_where_id i f db).
Proof.
  intros Hf [Hid Hname]. split.
  - unfold DB.primary_key. rewrite (update_where_id_by DB.id); [exact Hid|].
    intros row. destruct (Hf row) as [E | [E _]]; [|exact E].
    apply (f_equal (fun t => fst (fst (fst (fst (fst t)))))) in E. exact E.
  - unfold unique_names. rewrite (update_where_id_by DB.name); [exact Hname|].
    intros row. destruct (Hf row) as [E | [_ E]]; [|exact E].
    apply (f_equal (fun t => snd (fst (fst (fst (fst t)))))) in E. exact E.
Qed.

Lemma well_keyed_itemAdd db i n icon b s :
  well_keyed db -> well_keyed (fst (DB.itemAdd db i n icon b s)).
Proof.
  intros [Hid Hname]. unfold DB.itemAdd.
  destruct (DB.count_id_or_name i n db >? 0) eqn:E; [split; assumption|].
  assert (Hfresh : forall row, In row (DB.items_tbl db) ->
                               DB.id row <> i /\ DB.name row <> n).
  { intros row Hin. split; intros H;
      assert (DB.count_id_or_name i n db > 0)
        by (apply count_id_or_name_positive; exists row; auto);
      apply Z.gtb_gt in H0; congruence. }
  split; [unfold DB.primary_key | unfold unique_names]; simpl;
    apply insert_row_no_dup_by; try assumption; simpl;
    intros Hin; apply in_map_iff in Hin as (row & Hrow & Hin);
    destruct (Hfresh row Hin); auto.
Qed.

Lemma well_keyed_itemDel db i :
  well_keyed db -> well_keyed (fst (DB.itemDel db i)).
Proof.
  intros [Hid Hname]. split;
    [unfold DB.primary_key | unfold unique_names]; simpl;
    apply filter_no_dup_by; assumption.
Qed.

Lemma well_keyed_itemThreshold db i b s :
  well_keyed db -> well_keyed (fst (DB.itemThreshold db i b s)).
Proof.
  intros H. destruct b, s; simpl; try exact H;
    apply well_keyed_update; auto.
Qed.

Lemma well_keyed_add_each items buy sell : forall db printed,
  well_keyed db -> well_keyed (fst (add_each items buy sell db printed)).
Proof.
  induction items as [|[item_id item] items IH]; intros db printed H; simpl;
    [exact H|].
  destruct (parse_price_input buy) as [b|]; [|exact H].
  destruct (parse_price_input sell) as [s|]; [|exact H].
  pose proof (well_keyed_itemAdd db item_id (GW2API.meta_name item)
                                 (GW2API.meta_icon item) b s H) as Hadd.
  destruct (DB.itemAdd db item_id _ _ b s) as [db' []]; simpl in Hadd; auto.
Qed.

End WellKeyed.

(** X4.  Identifiers and names stay unique: on a store where no two rows
    share an identifier or a name, that still holds after [itemAdd],
    [itemDel], [itemThreshold], [update_prices], after the commands
    [actionAdd], [actionThreshold], [actionDel] and [clean_all_data], and
    after an iteration of the monitoring loop, whatever the arguments and
    the answers of the server. *)
Theorem store_stays_well_keyed db :
  well_keyed db ->
  (forall i n icon b s, well_keyed (fst (DB.itemAdd db i n icon b s)))
  /\ (forall i, well_keyed (fst (DB.itemDel db i)))
  /\ (forall i b s, well_keyed (fst (DB.itemThreshold db i b s)))
  /\ (forall i b s lowest, well_keyed (fst (DB.update_prices db i b s lowest)))
  /\ (forall now resp buy sell, well_keyed (fst (actionAdd now resp buy sell db)))
  /\ (forall i buy sell, well_keyed (fst (actionThreshold i buy sell db)))
  /\ (forall i, well_keyed (fst (actionDel i db)))
  /\ (forall logs, well_keyed (fst (clean_all_data db logs)))
  /\ (forall discord env, well_keyed (fst (monitor_cycle discord env db))).
Proof.
  intros H. repeat split.
  - apply well_keyed_itemAdd, H.
  - apply well_keyed_itemAdd, H.
  - apply well_keyed_itemDel, H.
  - apply well_keyed_itemDel, H.
  - apply well_keyed_itemThreshold, H.
  - apply well_keyed_itemThreshold, H.
  - apply well_keyed_update; [|exact H]. intros row. right.
    destruct lowest; auto.
  - apply well_keyed_update; [|exact H]. intros row. right.
    destruct lowest; auto.
  - assert (Hf : well_keyed (fst (GW2API.items now resp (DB.init db)))).
    { eapply well_keyed_same_rows; [|exact H].
      rewrite client_items_store, fetch_items_tbl, init_items. reflexivity. }
    unfold actionAdd.
    destruct (GW2API.items now resp (DB.init db)) as [db1 [items| |]];
      simpl in Hf; try apply Hf.
    apply well_keyed_add_each, Hf.
  - assert (Hf : well_keyed (fst (GW2API.items now resp (DB.init db)))).
    { eapply well_keyed_same_rows; [|exact H].
      rewrite client_items_store, fetch_items_tbl, init_items. reflexivity. }
    unfold actionAdd.
    destruct (GW2API.items now resp (DB.init db)) as [db1 [items| |]];
      simpl in Hf; try apply Hf.
    apply well_keyed_add_each, Hf.
  - pose proof (well_keyed_init db H) as Hi. unfold actionThreshold.
    destruct (parse_if_given buy) as [b|]; [|apply Hi].
    destruct (parse_if_given sell) as [s|]; [|apply Hi].
    pose proof (well_keyed_itemThreshold (DB.init db) i b s Hi) as Ht.
    destruct (DB.itemThreshold (DB.init db) i b s) as [db' []]; apply Ht.
  - pose proof (well_keyed_init db H) as Hi. unfold actionThreshold.
    destruct (parse_if_given buy) as [b|]; [|apply Hi].
    destruct (parse_if_given sell) as [s|]; [|apply Hi].
    pose proof (well_keyed_itemThreshold (DB.init db) i b s Hi) as Ht.
    destruct (DB.itemThreshold (DB.init db) i b s) as [db' []]; apply Ht.
  - pose proof (well_keyed_itemDel (DB.init db) i (well_keyed_init db H)) as Hd.
    unfold actionDel. destruct (DB.itemDel (DB.init db) i) as [db' []]; apply Hd.
  - pose proof (well_keyed_itemDel (DB.init db) i (well_keyed_init db H)) as Hd.
    unfold actionDel. destruct (DB.itemDel (DB.init db) i) as [db' []]; apply Hd.
  - unfold clean_all_data, DB.primary_key. simpl. rewrite init_items. constructor.
  - unfold clean_all_data, unique_names. simpl. rewrite init_items. constructor.
  - eapply well_keyed_same_rows; [|exact H]. apply monitor_cycle_store.
  - eapply well_keyed_same_rows; [|exact H]. apply monitor_cycle_store.
Qed.

Lemma store_stays_well_keyed_witness :
  well_keyed sample_db
  /\ well_keyed (fst (DB.itemAdd sample_db 7 "Glob of Ectoplasm" "ecto.png" 1 2))
  /\ well_keyed
       (fst (monitor_cycle true
               (mkEnv (1000 # 1) (1000 # 1) (1000 # 1) GW2API.URLError [])
               sample_db)).
Proof.
  assert (H : well_keyed sample_db).
  { split; (constructor; [simpl; tauto | constructor]). }
  split; [exact H|]. split.
  - apply (proj1 (store_stays_well_keyed sample_db H)).
  - apply (proj2 (proj2 (proj2 (proj2 (proj2 (proj2 (proj2 (proj2
             (store_stays_well_keyed sample_db H))))))))).
Defined.

(** ** Adding, deleting, setting thresholds *)

Section AddDelete.

Lemma delete_inserted x rows :
  ~ In (DB.id x) (map DB.id rows) ->
  filter (fun r => negb (DB.id r =? DB.id x)) (DB.insert_row x rows) = rows.
Proof.
  induction rows as [|r rows IH]; simpl; intros Hx.
  - rewrite Z.eqb_refl. reflexivity.
  - assert (Hr : (DB.id r =? DB.id x) = false) by (apply Z.eqb_neq; tauto).
    destruct (DB.id x <? DB.id r); simpl.
    + rewrite Z.eqb_refl, Hr. simpl. f_equal. apply delete_absent. tauto.
    + rewrite Hr. simpl. f_equal. apply IH. tauto.
Qed.

End AddDelete.

(** X5.  Deleting an item that has just been added gives back the store
    as it was before: on a store with its primary key, when no row has the
    identifier or the name, [itemAdd] followed by [itemDel] of the same
    identifier returns true and the store is unchanged.  This is for an
    identifier and thresholds that fit a 64-bit INTEGER, which is what the
    database binds. *)
Theorem itemAdd_then_itemDel db itemId itemName iconUrl buy sell :
  DB.primary_key db ->
  DB.fits itemId -> DB.fits buy -> DB.fits sell ->
  (forall row, In row (DB.items_tbl db) ->
               DB.id row <> itemId /\ DB.name row <> itemName) ->
  snd (DB.itemAdd db itemId itemName iconUrl buy sell) = DB.Added
  /\ DB.itemDel (fst (DB.itemAdd db itemId itemName iconUrl buy sell)) itemId
     = (db, true).
Proof.
  intros Hpk _ _ _ Hfresh.
  assert (Hcount : (DB.count_id_or_name itemId itemName db >? 0) = false).
  { destruct (DB.count_id_or_name itemId itemName db >? 0) eqn:E; [|reflexivity].
    apply Z.gtb_gt, count_id_or_name_positive in E as (row & Hin & Hrow).
    destruct (Hfresh row Hin). tauto. }
  assert (Hnew : ~ In itemId (map DB.id (DB.items_tbl db))).
  { intros H. apply in_map_iff in H as (row & E & H).
    destruct (Hfresh row H). auto. }
  unfold DB.itemAdd. rewrite Hcount. split; [reflexivity|].
  cbn [fst]. unfold DB.itemDel. rewrite rowcount_present.
  - cbn [DB.items_tbl DB.state_tbl].
    rewrite (delete_inserted (DB.mkItem itemId itemName buy sell
                                        DB.LOWEST_SEEN_RESET 0 0 iconUrl))
      by exact Hnew.
    destruct db; reflexivity.
  - apply insert_row_no_dup; assumption.
  - cbn [DB.items_tbl]. apply in_map_iff. eexists. split; [|apply in_insert_row; left; reflexivity].
    reflexivity.
Qed.

Lemma itemAdd_then_itemDel_witness :
  DB.itemDel (fst (DB.itemAdd sample_db 7 "Glob of Ectoplasm" "ecto.png" 100 50)) 7
  = (sample_db, true).
Proof.
  assert (Hpk : DB.primary_key sample_db).
  { constructor; [simpl; tauto | constructor]. }
  assert (Hfits : DB.fits 7 /\ DB.fits 100 /\ DB.fits 50).
  { unfold DB.fits. lia. }
  destruct Hfits as (Hid & Hbuy & Hsell).
  apply (itemAdd_then_itemDel sample_db 7 "Glob of Ectoplasm" "ecto.png" 100 50
                              Hpk Hid Hbuy Hsell).
  intros row [<- | []]. split; discriminate.
Defined.

(** X6.  Setting the two thresholds one after the other, in either order,
    is the same as setting both in one call of [itemThreshold]: the same
    store and the same answer.  This is for an identifier and thresholds
    that fit a 64-bit INTEGER, which is what the database binds. *)
Theorem itemThreshold_one_by_one db itemId b s :
  DB.fits itemId -> DB.fits b -> DB.fits s ->
  DB.itemThreshold (fst (DB.itemThreshold db itemId (Some b) None))
                   itemId None (Some s)
  = DB.itemThreshold db itemId (Some b) (Some s)
  /\ DB.itemThreshold (fst (DB.itemThreshold db itemId None (Some s)))
                      itemId (Some b) None
     = DB.itemThreshold db itemId (Some b) (Some s).
Proof.
  intros _ _ _.
  assert (C : forall f,
             (forall row, DB.id (f row) = DB.id row) ->
             DB.rowcount itemId (DB.update_where_id itemId f db)
             = DB.rowcount itemId db).
  { intros f Hf. unfold DB.rowcount, DB.update_where_id. simpl.
    induction (DB.items_tbl db) as [|row rows IH]; [reflexivity|]. simpl.
    destruct (DB.id row =? itemId) eqn:E.
    - rewrite Hf, E. simpl. simpl in IH. lia.
    - rewrite E. exact IH. }
  split; unfold DB.itemThreshold; cbn [fst]; rewrite C by reflexivity;
    f_equal; unfold DB.update_where_id; cbn [DB.items_tbl DB.state_tbl];
    f_equal; rewrite map_map; apply map_ext; intros row;
    destruct (DB.id row =? itemId) eqn:E; cbn [DB.id]; rewrite E; reflexivity.
Qed.

Lemma itemThreshold_one_by_one_witness :
  DB.itemThreshold (fst (DB.itemThreshold sample_db 42 (Some 750) None))
                   42 None (Some 80)
  = (DB.mk [DB.mkItem 42 "Mystic Coin" 750 80 999999999 0 0 "coin.png"]
           [DB.mkState 0 0 None], true).
Proof.
  assert (Hfits : DB.fits 42 /\ DB.fits 750 /\ DB.fits 80).
  { unfold DB.fits. lia. }
  destruct Hfits as (Hid & Hbuy & Hsell).
  rewrite (proj1 (itemThreshold_one_by_one sample_db 42 750 80 Hid Hbuy Hsell)).
  reflexivity.
Defined.

(** ** What an iteration of the loop does *)

Section CycleShape.

Lemma min_bounds a b :
  Clock.ltb (Clock.min a b) 0 = false ->
  (0 <= Clock.min a b)%Q /\ (Clock.min a b <= b)%Q.
Proof.
  intros H. split.
  - unfold Clock.ltb in H. apply negb_false_iff, Qle_bool_iff in H. exact H.
  - unfold Clock.min. destruct (Clock.ltb b a) eqn:E.
    + apply Qle_refl.
    + unfold Clock.ltb in E. apply negb_false_iff, Qle_bool_iff in E. exact E.
Qed.

Lemma interval_bounds :
  (0 <= inject_Z CHECK_INTERVAL)%Q
  /\ (inject_Z CHECK_INTERVAL <= inject_Z CHECK_INTERVAL)%Q
  /\ (0 <= 10)%Q /\ (10 <= inject_Z CHECK_INTERVAL)%Q.
Proof. repeat split; unfold Qle; simpl; lia. Qed.

(** The effects of an iteration: some lines, then the sleep that ends it,
    of at most the interval; the lines are only prints, or the log lines of
    the alerts found before a listing was missing, or the log lines of all
    the alerts followed by their delivery and then the status table, or the
    error when the delivery ended with an exception. *)
Lemma monitor_cycle_effects discord env db :
  exists pre d,
    snd (monitor_cycle discord env db) = pre ++ [Sleep d]
    /\ (0 <= d)%Q /\ (d <= inject_Z CHECK_INTERVAL)%Q
    /\ ((forall e, In e pre -> exists m, e = Print m)
        \/ (exists new,
               pre = map log_unusual_price new ++ [Print ErrorMessage])
        \/ (exists alert_items,
               pre = map log_unusual_price alert_items
                     ++ fst (notify discord (webhook env) alert_items)
                     ++ [if snd (notify discord (webhook env) alert_items)
                         then Print ErrorMessage
                         else PrintStatus alert_items]
               /\ d = inject_Z CHECK_INTERVAL)).
Proof.
  destruct interval_bounds as (I0 & I1 & T0 & T1).
  unfold monitor_cycle.
  destruct (DB.get_limit_until (DB.init db)) as [limit|].
  2:{ exists [Print ErrorMessage], (inject_Z CHECK_INTERVAL).
      repeat split; auto. left. intros e [<- | []]. eauto. }
  destruct (Clock.ltb (time_check env) (inject_Z limit)).
  { destruct (Clock.ltb _ 0) eqn:Ew.
    - exists [Print WaitingDueToRateLimit; Print ErrorMessage],
             (inject_Z CHECK_INTERVAL).
      repeat split; auto. left. intros e [<- | [<- | []]]; eauto.
    - apply min_bounds in Ew as [W0 W1].
      eexists [Print WaitingDueToRateLimit], _.
      repeat split; eauto. left. intros e [<- | []]. eauto. }
  destruct (DB.items (DB.init db)) as [|entry rest].
  { exists [Print NoItemsInDatabase], 10%Q.
    repeat split; auto. left. intros e [<- | []]. eauto. }
  destruct (GW2API.listings (time_fetch env) (answer env) (DB.init db))
    as [db1 [prices| |]].
  - destruct (scan_shape (entry :: rest) prices db1 [] [])
      as (db' & new & outcome & E & Hout & _).
    rewrite E. simpl app in *. destruct Hout as [-> | ->]; cbn [snd].
    + exists (map log_unusual_price new ++ [Print ErrorMessage]),
             (inject_Z CHECK_INTERVAL).
      rewrite <- app_assoc. repeat split; auto. right. left. eauto.
    + exists (map log_unusual_price new
              ++ fst (notify discord (webhook env) new)
              ++ [if snd (notify discord (webhook env) new)
                  then Print ErrorMessage else PrintStatus new]),
             (inject_Z CHECK_INTERVAL).
      split; [|repeat split; auto; right; right; eauto].
      destruct (notify discord (webhook env) new) as [sent [|]];
        cbn [fst snd]; rewrite <- !app_assoc; reflexivity.
  - exists [Print RateLimitExceeded], (inject_Z CHECK_INTERVAL).
    repeat split; auto. left. intros e [<- | []]. eauto.
  - exists [Print ErrorFetchingPrices], (inject_Z CHECK_INTERVAL).
    repeat split; auto. left. intros e [<- | []]. eauto.
Qed.

Lemma not_in_log_lines (e : effect) alert_items :
  In e (map log_unusual_price alert_items) ->
  exists a, e = log_unusual_price a.
Proof. intros H. apply in_map_iff in H as (a & <- & _). eauto. Qed.

(** What the call of the notifier contributes: the call, then the actions
    of [send_alert]. *)
Lemma notify_called attempts alert_items :
  alert_items <> [] ->
  notify true attempts alert_items
  = (SendAlert alert_items
       :: map notifier_effect
              (snd (DiscordNotify.send_alert alert_items attempts)),
     match fst (DiscordNotify.send_alert alert_items attempts) with
     | DiscordNotify.Raised => true
     | _ => false
     end).
Proof.
  intros Hne. unfold notify.
  destruct alert_items as [|first others]; [congruence|].
  destruct (DiscordNotify.send_alert _ _). reflexivity.
Qed.

Lemma in_notify discord attempts alert_items e :
  In e (fst (notify discord attempts alert_items)) ->
  discord = true /\ alert_items <> []
  /\ (e = SendAlert alert_items
      \/ exists a,
           In a (snd (DiscordNotify.send_alert alert_items attempts))
           /\ e = notifier_effect a).
Proof.
  destruct alert_items as [|first others]; [intros []|].
  destruct discord; [|intros []].
  rewrite notify_called by discriminate. cbn [fst].
  intros [<- | Hin]; (split; [reflexivity|]); (split; [discriminate|]).
  - left. reflexivity.
  - right. apply in_map_iff in Hin as (a & <- & Hin). eauto.
Qed.

(** [send_alert] sleeps only for the delay of a reply 429 that it goes on
    after. *)
Lemma send_alert_waits alert_items q : forall attempts,
  In (DiscordNotify.Wait q)
     (snd (DiscordNotify.send_alert alert_items attempts)) ->
  exists a, In a attempts /\ DiscordNotify.retried a = Some q.
Proof.
  destruct alert_items as [|first others];
    [intros [|a attempts] H; destruct H|].
  induction attempts as [|a attempts IH]; cbn [DiscordNotify.send_alert].
  - intros [H | []]. discriminate.
  - pose proof (eq_refl (DiscordNotify.retried a)) as Hr.
    unfold DiscordNotify.retried at 2 in Hr.
    destruct (DiscordNotify.reply_of a) as [code | code retry_after |].
    + destruct (code =? 204); cbn [snd];
        intros H; repeat (destruct H as [H | H]; [discriminate|]); destruct H.
    + destruct (code =? 429).
      * destruct (DiscordNotify.retry_delay retry_after) as [seconds|].
        -- destruct (Clock.ltb seconds 0).
           ++ cbn [snd]. intros H.
              repeat (destruct H as [H | H]; [discriminate|]). destruct H.
           ++ destruct (DiscordNotify.send_alert (first :: others) attempts)
                as [outcome actions] eqn:E.
              cbn [snd] in *. intros [H | [H | [H | H]]]; try discriminate.
              ** injection H as <-. exists a. split; [left; reflexivity | exact Hr].
              ** destruct (IH H) as (a' & Hin & Ha'). exists a'. auto with datatypes.
        -- cbn [snd]. intros H.
           repeat (destruct H as [H | H]; [discriminate|]). destruct H.
      * cbn [snd]. intros H.
        repeat (destruct H as [H | H]; [discriminate|]). destruct H.
    + cbn [snd]. intros H.
      repeat (destruct H as [H | H]; [discriminate|]). destruct H.
Qed.

Lemma retried_nonneg a q : DiscordNotify.retried a = Some q -> (0 <= q)%Q.
Proof.
  unfold DiscordNotify.retried.
  destruct (DiscordNotify.reply_of a) as [code | code retry_after |];
    try discriminate.
  destruct (code =? 429); [|discriminate].
  destruct (DiscordNotify.retry_delay retry_after) as [seconds|]; [|discriminate].
  destruct (Clock.ltb seconds 0) eqn:E; [discriminate|].
  intros H. injection H as <-.
  unfold Clock.ltb in E. apply negb_false_iff, Qle_bool_iff in E. exact E.
Qed.

End CycleShape.

(** X7.  Every iteration of the monitoring loop ends with a sleep of a
    duration between 0 and the check interval of 300 seconds, whatever the
    store, the clock and the server say.  The iteration sleeps before that
    only inside [send_alert], with a webhook configured: each time for the
    delay, not negative, of a reply 429 of the webhook that the method goes
    on after. *)
Theorem monitor_cycle_sleeps discord env db :
  exists pre d,
    snd (monitor_cycle discord env db) = pre ++ [Sleep d]
    /\ (0 <= d)%Q /\ (d <= 300)%Q
    /\ forall q,
        In (Sleep q) pre ->
        discord = true /\ (0 <= q)%Q
        /\ exists a, In a (webhook env) /\ DiscordNotify.retried a = Some q.
Proof.
  destruct (monitor_cycle_effects discord env db)
    as (pre & d & E & D0 & D1 & Hpre).
  exists pre, d. split; [exact E|]. split; [exact D0|]. split; [exact D1|].
  intros q Hin.
  destruct Hpre as [H | [(new & ->) | (al & -> & _)]].
  - destruct (H _ Hin) as (m & Hm). discriminate.
  - apply in_app_or in Hin as [Hin | [Hin | []]]; [|discriminate].
    apply not_in_log_lines in Hin as (a & Ha). discriminate.
  - apply in_app_or in Hin as [Hin | Hin].
    { apply not_in_log_lines in Hin as (a & Ha). discriminate. }
    apply in_app_or in Hin as [Hin | [Hin | []]];
      [| destruct (snd (notify discord (webhook env) al)); discriminate].
    apply in_notify in Hin as (Hd & Hne & [Hs | (a & Ha & Hs)]);
      [discriminate|].
    destruct a; try discriminate. injection Hs as Hq. subst seconds.
    apply send_alert_waits in Ha as (a & Hin & Hr).
    split; [exact Hd|]. split; [apply (retried_nonneg a q Hr) | eauto].
Qed.

(** X8.  The notifier gets exactly what was logged: when an iteration of
    the loop calls [send_alert], a webhook is configured, the alerts are not
    empty, and the iteration did nothing but log each of these alerts, in
    order, call [send_alert] with them, which did what it does with the
    replies of the webhook, and then, when the method returned, print the
    status table with them and sleep for the check interval, or, when an
    exception left the method, print the error and sleep for the check
    interval.  In particular nothing is sent without a webhook, and the
    method is not called twice. *)
Theorem monitor_cycle_sends_what_it_logs discord env db alert_items :
  In (SendAlert alert_items) (snd (monitor_cycle discord env db)) ->
  discord = true /\ alert_items <> []
  /\ snd (monitor_cycle discord env db)
     = map log_unusual_price alert_items
       ++ SendAlert alert_items
          :: map notifier_effect
                 (snd (DiscordNotify.send_alert alert_items (webhook env)))
       ++ match fst (DiscordNotify.send_alert alert_items (webhook env)) with
          | DiscordNotify.Raised =>
              [Print ErrorMessage; Sleep (inject_Z CHECK_INTERVAL)]
          | _ => [PrintStatus alert_items; Sleep (inject_Z CHECK_INTERVAL)]
          end.
Proof.
  destruct (monitor_cycle_effects discord env db)
    as (pre & d & E & _ & _ & Hpre).
  rewrite E. intros Hin.
  apply in_app_or in Hin as [Hin | [Hin | []]]; [|discriminate].
  destruct Hpre as [H | [(new & ->) | (al & -> & ->)]].
  - destruct (H _ Hin) as (m & Hm). discriminate.
  - apply in_app_or in Hin as [Hin | [Hin | []]]; [|discriminate].
    apply not_in_log_lines in Hin as (a & Ha). discriminate.
  - apply in_app_or in Hin as [Hin | Hin].
    { apply not_in_log_lines in Hin as (a & Ha). discriminate. }
    apply in_app_or in Hin as [Hin | [Hin | []]];
      [| destruct (snd (notify discord (webhook env) al)); discriminate].
    pose proof (in_notify _ _ _ _ Hin) as (Hd & Hne & [Hs | (a & _ & Hs)]);
      [| destruct a; discriminate].
    injection Hs as ->. subst discord. repeat split; auto.
    rewrite notify_called by exact Hne. cbn [fst snd].
    rewrite <- !app_assoc. cbn [app]. do 3 f_equal.
    destruct (fst (DiscordNotify.send_alert al (webhook env))); reflexivity.
Qed.

Lemma monitor_cycle_sends_what_it_logs_witness :
  let busy := DiscordNotify.mkAttempt "t1" "t2"
                (DiscordNotify.HTTPError 429 None) in
  let done := DiscordNotify.mkAttempt "t3" "t4" (DiscordNotify.Status 204) in
  let env := mkEnv (1000 # 1) (1000 # 1) (1000 # 1)
                   (GW2API.Response
                      (Some [GW2API.mkEntry 42 [GW2API.mkOrder 600 5]
                                            [GW2API.mkOrder 90 7]]))
                   [busy; done] in
  let alert_items := [mkAlert "Mystic Coin" 600 5 500 "coin.png" trigger_buy;
                      mkAlert "Mystic Coin" 90 7 100 "coin.png" trigger_sell] in
  snd (monitor_cycle true env sample_db)
  = map log_unusual_price alert_items
    ++ [SendAlert alert_items;
        Notifier (DiscordNotify.Request
                    (DiscordNotify.payload_of busy alert_items));
        Notifier DiscordNotify.SayRetrying;
        Sleep (5 # 1);
        Notifier (DiscordNotify.Request
                    (DiscordNotify.payload_of done alert_items));
        PrintStatus alert_items;
        Sleep (inject_Z CHECK_INTERVAL)].
Proof.
  intros busy done env alert_items.
  apply (monitor_cycle_sends_what_it_logs true env sample_db alert_items).
  right. right. left. reflexivity.
Defined.

(** X9.  Monitoring never alters what the commands have set: after an
    iteration of the loop the table of items has the same rows in the same
    order with the same identifier, name, thresholds, [lowest_seen] and icon,
    and the rows of the state table have the same [last_run] and
    [custom_dir], as in the store that [DB()] opened. *)
Theorem monitor_cycle_keeps_settings discord env db :
  map settings (DB.items_tbl (fst (monitor_cycle discord env db)))
  = map settings (DB.items_tbl db)
  /\ map (fun row => (DB.last_run row, DB.custom_dir row))
         (DB.state_tbl (fst (monitor_cycle discord env db)))
     = map (fun row => (DB.last_run row, DB.custom_dir row))
           (DB.state_tbl (DB.init db)).
Proof. apply monitor_cycle_store. Qed.

Section CycleCases.

Lemma scan_missing items prices : forall db logged alert_items,
  (exists id props, In (id, props) items /\ PyDict.get id prices = None) ->
  snd (scan items prices db logged alert_items) = None.
Proof.
  induction items as [|[id props] items IH]; intros db logged alert_items
                                                    (i & p & Hin & Hnone).
  - destruct Hin.
  - cbn [scan]. destruct (PyDict.get id prices) as [listing|] eqn:E;
      [|reflexivity].
    apply IH. destruct Hin as [H | H]; [|eauto].
    injection H as -> ->. congruence.
Qed.

Lemma items_nonempty db row :
  DB.primary_key db -> In row (DB.items_tbl db) ->
  In (DB.id row, row) (DB.items (DB.init db)).
Proof.
  intros Hpk Hin.
  rewrite items_keyed, init_items by (apply init_primary_key, Hpk).
  apply in_map_iff. exists row. auto.
Qed.

Lemma items_empty db : DB.items_tbl db = [] -> DB.items (DB.init db) = [].
Proof.
  intros E. unfold DB.items. rewrite init_items, E. reflexivity.
Qed.

(** An iteration out of cooldown, with items, whose request is answered
    with a body. *)
Lemma monitor_cycle_answered discord env db body :
  (forall limit, DB.get_limit_until (DB.init db) = Some limit ->
                 Clock.ltb (time_check env) (inject_Z limit) = false) ->
  DB.items (DB.init db) <> [] ->
  answer env = GW2API.Response (Some body) ->
  monitor_cycle discord env db
  = match scan (DB.items (DB.init db))
               (PyDict.build GW2API.entry_id GW2API.listing_of body)
               (DB.set_limit_until 0 (DB.init db)) [] [] with
    | (db', logged, None) =>
        (db', logged ++ [Print ErrorMessage; Sleep (inject_Z CHECK_INTERVAL)])
    | (db', logged, Some alert_items) =>
        (db', logged ++ fst (notify discord (webhook env) alert_items)
                ++ (if snd (notify discord (webhook env) alert_items)
                    then [Print ErrorMessage; Sleep (inject_Z CHECK_INTERVAL)]
                    else [PrintStatus alert_items;
                          Sleep (inject_Z CHECK_INTERVAL)]))
    end.
Proof.
  intros Hclear Hitems Hanswer. unfold monitor_cycle.
  destruct (init_limit db) as (limit & Hlimit). rewrite Hlimit.
  rewrite (Hclear limit Hlimit).
  destruct (DB.items (DB.init db)) as [|entry rest] eqn:E; [congruence|].
  unfold GW2API.listings, GW2API.fetch. rewrite Hanswer, init_init.
  destruct (scan _ _ _ _ _) as [[db' logged] [alert_items|]]; [|reflexivity].
  destruct (notify discord (webhook env) alert_items) as [sent [|]];
    reflexivity.
Qed.

(** The loop runs up to the first item without a listing and stops there:
    the items before it are recorded and checked, it and the items after it
    are not. *)
Lemma scan_stops before id props after prices : forall db logged alert_items,
  (forall i p, In (i, p) before -> PyDict.get i prices <> None) ->
  PyDict.get id prices = None ->
  scan (before ++ (id, props) :: after) prices db logged alert_items
  = (persist before prices db,
     logged ++ map log_unusual_price (alerts_of before prices),
     None).
Proof.
  induction before as [|[i p] before IH]; intros db logged alert_items Hcov Hnone.
  - cbn [app]. rewrite scan_key_error by exact Hnone.
    simpl. rewrite app_nil_r. reflexivity.
  - simpl. destruct (PyDict.get i prices) as [listing|] eqn:E.
    + rewrite IH by (try (intros; eapply Hcov; right; eassumption); exact Hnone).
      rewrite map_app, !app_assoc. reflexivity.
    + exfalso. apply (Hcov i p); [left; reflexivity | exact E].
Qed.

(** The first row whose identifier is not in a list. *)
Lemma first_missing (rows : list DB.Item) (ids : list Z) row :
  In row rows -> ~ In (DB.id row) ids ->
  exists before missing after,
    rows = before ++ missing :: after
    /\ (forall r, In r before -> In (DB.id r) ids)
    /\ ~ In (DB.id missing) ids.
Proof.
  induction rows as [|r rows IH]; intros Hin Hout; [destruct Hin|].
  destruct (in_dec Z.eq_dec (DB.id r) ids) as [Hr | Hr].
  - destruct Hin as [-> | Hin]; [contradiction|].
    destruct (IH Hin Hout) as (before & missing & after & -> & Hb & Hm).
    exists (r :: before), missing, after. split; [reflexivity|].
    split; [|exact Hm]. intros r' [<- | H]; auto.
  - exists [], r, rows. split; [reflexivity|]. split; [intros r' []|exact Hr].
Qed.

Lemma no_dup_disjoint (A : Type) (l1 l2 : list A) x :
  NoDup (l1 ++ l2) -> In x l1 -> In x l2 -> False.
Proof.
  induction l1 as [|y l1 IH]; simpl; intros Hnd H1 H2; [destruct H1|].
  inversion Hnd as [|? ? Hy Hrest]; subst.
  destruct H1 as [-> | H1]; [|eauto].
  apply Hy, in_or_app. right. exact H2.
Qed.

End CycleCases.

(** X10.  A tracked item that the answer of the server leaves out stops
    the iteration: on a store with its primary key, out of cooldown, when
    some item has no entry in the answer, the loop over the items ends with
    [KeyError] at the first such item, in the order of the identifiers.  The
    items before it have their prices recorded and their alerts logged, and
    that is all the iteration does before it prints the error and sleeps for
    the check interval: the rows of that item and of the items after it are
    as they were, nothing is sent to the notifier and no status table is
    printed. *)
Theorem missing_listing_aborts discord env db body row :
  DB.primary_key db ->
  (forall limit, DB.get_limit_until (DB.init db) = Some limit ->
                 Clock.ltb (time_check env) (inject_Z limit) = false) ->
  answer env = GW2API.Response (Some body) ->
  In row (DB.items_tbl db) ->
  ~ In (DB.id row) (map GW2API.entry_id body) ->
  exists before missing after,
    DB.items_tbl db = before ++ missing :: after
    /\ (forall r, In r before -> In (DB.id r) (map GW2API.entry_id body))
    /\ ~ In (DB.id missing) (map GW2API.entry_id body)
    /\ (let checked := map (fun r => (DB.id r, r)) before in
        let prices := PyDict.build GW2API.entry_id GW2API.listing_of body in
        monitor_cycle discord env db
        = (persist checked prices (DB.set_limit_until 0 (DB.init db)),
           map log_unusual_price (alerts_of checked prices)
           ++ [Print ErrorMessage; Sleep (inject_Z CHECK_INTERVAL)]))
    /\ (forall r, In r (missing :: after) ->
                  PyDict.get (DB.id r)
                             (DB.items (fst (monitor_cycle discord env db)))
                  = Some r)
    /\ (forall alert_items,
           ~ In (SendAlert alert_items) (snd (monitor_cycle discord env db)))
    /\ (forall alert_items,
           ~ In (PrintStatus alert_items) (snd (monitor_cycle discord env db))).
Proof.
  intros Hpk Hclear Hanswer Hin Hout.
  destruct (first_missing (DB.items_tbl db) (map GW2API.entry_id body) row
                          Hin Hout)
    as (before & missing & after & Esplit & Hbefore & Hmissing).
  exists before, missing, after.
  split; [exact Esplit|]. split; [exact Hbefore|]. split; [exact Hmissing|].
  pose proof (init_primary_key db Hpk) as Hpki.
  set (checked := map (fun r => (DB.id r, r)) before).
  set (prices := PyDict.build GW2API.entry_id GW2API.listing_of body).
  assert (Hitems : DB.items (DB.init db)
                   = checked ++ (DB.id missing, missing)
                       :: map (fun r => (DB.id r, r)) after).
  { rewrite items_keyed, init_items by assumption.
    rewrite Esplit, map_app. reflexivity. }
  assert (Hnone : PyDict.get (DB.id missing) prices = None).
  { destruct (PyDict.get (DB.id missing) prices) as [l|] eqn:E; [|reflexivity].
    apply get_build_some in E as (entry & He & Hk & _).
    exfalso. apply Hmissing. rewrite <- Hk. apply in_map. exact He. }
  assert (Hcov : forall i p, In (i, p) checked -> PyDict.get i prices <> None).
  { intros i p H. apply in_map_iff in H as (r & E & H). injection E as <- <-.
    apply get_build_present, Hbefore, H. }
  assert (Hcycle : monitor_cycle discord env db
                   = (persist checked prices
                              (DB.set_limit_until 0 (DB.init db)),
                      map log_unusual_price (alerts_of checked prices)
                      ++ [Print ErrorMessage;
                          Sleep (inject_Z CHECK_INTERVAL)])).
  { rewrite (monitor_cycle_answered discord env db body Hclear);
      [| rewrite Hitems; destruct checked; discriminate | exact Hanswer].
    fold prices. rewrite Hitems, scan_stops by assumption. reflexivity. }
  split; [exact Hcycle|]. rewrite Hcycle. cbn [fst snd]. split.
  - intros r Hr. rewrite persist_other.
    + rewrite set_limit_items. apply items_get; [exact Hpki|].
      rewrite init_items, Esplit. split; [|reflexivity].
      apply in_or_app. right. exact Hr.
    + exact Hpki.
    + unfold checked. rewrite map_map. cbn [fst]. intros Hb.
      unfold DB.primary_key in Hpk. rewrite Esplit, map_app in Hpk.
      apply (no_dup_disjoint _ _ _ _ Hpk Hb). apply in_map. exact Hr.
  - split; intros alert_items H; apply in_app_or in H as [H | [H | [H | []]]];
      try discriminate; apply not_in_log_lines in H as (a & Ha); discriminate.
Qed.

Lemma missing_listing_aborts_witness :
  let env := mkEnv (1000 # 1) (1000 # 1) (1000 # 1)
                   (GW2API.Response
                      (Some [GW2API.mkEntry 42 [GW2API.mkOrder 600 5]
                                            [GW2API.mkOrder 90 7]]))
                   [] in
  let db := DB.mk [sample_item; DB.mkItem 99 "Unlisted" 1 2 3 4 5 "x.png";
                   DB.mkItem 100 "Later" 1 2 3 4 5 "y.png"]
                  [DB.mkState 0 0 None] in
  exists before missing after,
    DB.items_tbl db = before ++ missing :: after
    /\ DB.id missing <> 42
    /\ forall r, In r (missing :: after) ->
                 PyDict.get (DB.id r) (DB.items (fst (monitor_cycle true env db)))
                 = Some r.
Proof.
  intros env db.
  assert (Hpk : DB.primary_key db).
  { repeat (constructor; [simpl; intros H; repeat destruct H as [H | H];
                          try discriminate H; exact H|]).
    constructor. }
  destruct (missing_listing_aborts true env db
              [GW2API.mkEntry 42 [GW2API.mkOrder 600 5] [GW2API.mkOrder 90 7]]
              (DB.mkItem 99 "Unlisted" 1 2 3 4 5 "x.png") Hpk)
    as (before & missing & after & Esplit & _ & Hmissing & _ & Hkept & _).
  - intros limit H. injection H as <-. reflexivity.
  - reflexivity.
  - right. left. reflexivity.
  - simpl. intros [H | []]. discriminate H.
  - exists before, missing, after. split; [exact Esplit|]. split; [|exact Hkept].
    intros E. apply Hmissing. left. symmetry. exact E.
Defined.

(** X11.  During a cooldown, and when no item is tracked, an iteration of
    the loop asks neither the server nor the webhook: the store is left as
    [DB()] opened it, and the outcome is the same whatever the server and
    the webhook would have answered. *)
Theorem monitor_cycle_without_request discord env db :
  (exists limit, DB.get_limit_until (DB.init db) = Some limit
                 /\ (time_check env < inject_Z limit)%Q)
  \/ DB.items_tbl db = [] ->
  fst (monitor_cycle discord env db) = DB.init db
  /\ forall fetch_time answer' webhook',
      monitor_cycle discord
                    (mkEnv (time_check env) (time_wait env) fetch_time answer'
                           webhook')
                    db
      = monitor_cycle discord env db.
Proof.
  intros [(limit & Hlimit & Hbefore) | Hempty].
  - apply ltb_lt in Hbefore.
    rewrite (monitor_cycle_cooldown discord env db limit Hlimit Hbefore).
    split; [reflexivity|]. intros fetch_time answer' webhook'.
    apply (monitor_cycle_cooldown discord
             (mkEnv (time_check env) (time_wait env) fetch_time answer'
                    webhook')
             db limit Hlimit Hbefore).
  - apply items_empty in Hempty. unfold monitor_cycle. rewrite Hempty.
    cbn [time_check time_wait].
    destruct (DB.get_limit_until (DB.init db)) as [limit|]; [|auto].
    destruct (Clock.ltb (time_check env) (inject_Z limit)); [|auto].
    destruct (Clock.ltb _ 0); auto.
Qed.

Lemma monitor_cycle_without_request_witness :
  monitor_cycle true
                (mkEnv (1000 # 1) (1001 # 1) (5 # 1)
                       (GW2API.Response (Some []))
                       [DiscordNotify.mkAttempt "t1" "t2"
                          (DiscordNotify.Status 204)])
                (DB.mk [sample_item] [DB.mkState 0 2200 None])
  = monitor_cycle true
                  (mkEnv (1000 # 1) (1001 # 1) (0 # 1) GW2API.URLError [])
                  (DB.mk [sample_item] [DB.mkState 0 2200 None]).
Proof.
  exact (proj2 (monitor_cycle_without_request true
                  (mkEnv (1000 # 1) (1001 # 1) (0 # 1) GW2API.URLError [])
                  (DB.mk [sample_item] [DB.mkState 0 2200 None])
                  (or_introl (ex_intro _ 2200 (conj eq_refl eq_refl))))
               (5 # 1) (GW2API.Response (Some []))
               [DiscordNotify.mkAttempt "t1" "t2" (DiscordNotify.Status 204)]).
Defined.

(** X12.  The prices seen are recorded for every item, alert or not: on a
    store with its primary key, out of cooldown, when the answer has an entry
    for every tracked item, and the prices of the first orders of its entries
    fit a 64-bit INTEGER, after the iteration [items()] maps each item to a
    row with the same identifier, name, thresholds, [lowest_seen] and icon,
    whose [last_buy_price] is the price of the first buy order of an entry of
    the answer for that item, and 0 when that entry has no buy order, and
    whose [last_sell_price] is the price of its first sell order, and 0 when
    it has none. *)
Theorem monitor_cycle_records_prices discord env db body props :
  DB.primary_key db ->
  (forall limit, DB.get_limit_until (DB.init db) = Some limit ->
                 Clock.ltb (time_check env) (inject_Z limit) = false) ->
  answer env = GW2API.Response (Some body) ->
  (forall row, In row (DB.items_tbl db) ->
               In (DB.id row) (map GW2API.entry_id body)) ->
  (forall entry o rest,
      In entry body ->
      GW2API.buys entry = o :: rest \/ GW2API.sells entry = o :: rest ->
      DB.fits (GW2API.unit_price o)) ->
  In props (DB.items_tbl db) ->
  exists entry row,
    In entry body /\ GW2API.entry_id entry = DB.id props
    /\ PyDict.get (DB.id props) (DB.items (fst (monitor_cycle discord env db)))
       = Some row
    /\ settings row = settings props
    /\ (forall o rest, GW2API.buys entry = o :: rest ->
                       DB.last_buy_price row = GW2API.unit_price o)
    /\ (GW2API.buys entry = [] -> DB.last_buy_price row = 0)
    /\ (forall o rest, GW2API.sells entry = o :: rest ->
                       DB.last_sell_price row = GW2API.unit_price o)
    /\ (GW2API.sells entry = [] -> DB.last_sell_price row = 0).
Proof.
  intros Hpk Hclear Hanswer Hlisted _ Hin.
  pose proof (init_primary_key db Hpk) as Hpki.
  pose proof (items_nonempty db props Hpk Hin) as Hentry.
  assert (Hitems : DB.items (DB.init db)
                   = map (fun row => (DB.id row, row)) (DB.items_tbl db)).
  { rewrite items_keyed, init_items by assumption. reflexivity. }
  set (prices := PyDict.build GW2API.entry_id GW2API.listing_of body).
  assert (Hcov : forall id row, In (id, row) (DB.items (DB.init db)) ->
                                PyDict.get id prices <> None).
  { intros id row H. rewrite Hitems in H.
    apply in_map_iff in H as (r & E & H). injection E as <- <-.
    apply get_build_present, Hlisted, H. }
  assert (Hcycle := monitor_cycle_polls discord env db body Hclear).
  cbv zeta in Hcycle. fold prices in Hcycle.
  specialize (Hcycle ltac:(intros E; rewrite E in Hentry; destruct Hentry)
                     Hanswer Hcov).
  rewrite Hcycle. cbn [fst].
  destruct (PyDict.get (DB.id props) prices) as [listing|] eqn:El;
    [|elim (Hcov _ _ Hentry El)].
  pose proof El as Hb.
  apply get_build_some in Hb as (entry & He & Hid & Hl).
  exists entry. eexists. split; [exact He|]. split; [exact Hid|].
  split.
  { apply (persist_recorded _ _ _ props listing _ props).
    - exact Hpki.
    - rewrite Hitems, map_map. simpl. exact Hpk.
    - exact Hentry.
    - exact El.
    - rewrite set_limit_items. apply items_get; [exact Hpki|].
      rewrite init_items. auto. }
  rewrite <- Hl. unfold GW2API.listing_of. cbn.
  split; [reflexivity|].
  repeat split; intros; match goal with
                        | H : _ = _ |- _ => rewrite H; reflexivity
                        end.
Qed.

Lemma monitor_cycle_records_prices_witness :
  let env := mkEnv (1000 # 1) (1000 # 1) (1000 # 1)
                   (GW2API.Response
                      (Some [GW2API.mkEntry 42 [GW2API.mkOrder 400 5;
                                                GW2API.mkOrder 390 9]
                                            []]))
                   [] in
  exists row,
    PyDict.get 42 (DB.items (fst (monitor_cycle false env sample_db)))
    = Some row
    /\ DB.last_buy_price row = 400 /\ DB.last_sell_price row = 0.
Proof.
  intros env.
  assert (Hpk : DB.primary_key sample_db).
  { constructor; [simpl; tauto | constructor]. }
  destruct (monitor_cycle_records_prices false env sample_db
              [GW2API.mkEntry 42 [GW2API.mkOrder 400 5; GW2API.mkOrder 390 9] []]
              sample_item Hpk)
    as (entry & row & He & _ & Hget & _ & Hbuy & _ & _ & Hsell).
  - intros limit H. injection H as <-. reflexivity.
  - reflexivity.
  - intros row [<- | []]. left. reflexivity.
  - intros entry o rest [<- | []] [H | H]; [|discriminate H].
    injection H as <- _. unfold DB.fits. simpl. lia.
  - left. reflexivity.
  - destruct He as [<- | []]. exists row. split; [exact Hget|].
    split; [apply (Hbuy _ _ eq_refl) | apply Hsell; reflexivity].
Defined.

(** X13.  A request that fails changes no price and raises no alert: when
    the answer of the server is anything but a body that decodes, be it 429,
    another HTTP error, a network error or an undecodable body, the rows of
    table [items] after the iteration are exactly those before, and the
    iteration only prints and sleeps. *)
Theorem failed_request_is_quiet discord env db :
  (forall body, answer env <> GW2API.Response (Some body)) ->
  DB.items_tbl (fst (monitor_cycle discord env db)) = DB.items_tbl db
  /\ forall e, In e (snd (monitor_cycle discord env db)) ->
               (exists m, e = Print m) \/ (exists d, e = Sleep d).
Proof.
  intros Hfail. unfold monitor_cycle.
  pose (quiet_line := fun e : effect =>
                        (exists m, e = Print m) \/ (exists s, e = Sleep s)).
  assert (Hp : forall m, quiet_line (Print m)) by (left; eauto).
  assert (Hs : forall s, quiet_line (Sleep s)) by (right; eauto).
  assert (Q : forall (d : DB.t) (l : list effect),
             DB.items_tbl d = DB.items_tbl db ->
             Forall (fun e => (exists m, e = Print m) \/ (exists s, e = Sleep s)) l ->
             DB.items_tbl (fst (d, l)) = DB.items_tbl db
             /\ forall e, In e (snd (d, l)) ->
                          (exists m, e = Print m) \/ (exists s, e = Sleep s)).
  { intros d l Hd Hl. split; [exact Hd|]. apply Forall_forall. exact Hl. }
  destruct (DB.get_limit_until (DB.init db)) as [limit|];
    [| apply Q; [apply init_items | repeat (apply Forall_cons; [solve [apply Hp | apply Hs]|]); apply Forall_nil]].
  destruct (Clock.ltb (time_check env) (inject_Z limit)).
  { destruct (Clock.ltb _ 0);
      (apply Q; [apply init_items | repeat (apply Forall_cons; [solve [apply Hp | apply Hs]|]); apply Forall_nil]). }
  destruct (DB.items (DB.init db)) as [|entry rest];
    [apply Q; [apply init_items | repeat (apply Forall_cons; [solve [apply Hp | apply Hs]|]); apply Forall_nil]|].
  pose proof (listings_store (time_fetch env) (answer env) (DB.init db)) as Hl.
  pose proof (fetch_items_tbl _ (time_fetch env) (answer env) (DB.init db)) as Hi.
  rewrite <- Hl, init_items in Hi.
  assert (Hnot : forall prices,
             snd (GW2API.listings (time_fetch env) (answer env) (DB.init db))
             <> GW2API.Returned prices).
  { intros prices. unfold GW2API.listings, GW2API.fetch.
    destruct (answer env) as [[json|] | code |]; simpl; try discriminate.
    - elim (Hfail json). reflexivity.
    - destruct (code =? 429); simpl; discriminate. }
  destruct (GW2API.listings (time_fetch env) (answer env) (DB.init db))
    as [db1 [prices| |]]; cbn [fst snd] in Hi, Hnot.
  - elim (Hnot prices). reflexivity.
  - apply Q; [exact Hi | repeat (apply Forall_cons; [solve [apply Hp | apply Hs]|]); apply Forall_nil].
  - apply Q; [exact Hi | repeat (apply Forall_cons; [solve [apply Hp | apply Hs]|]); apply Forall_nil].
Qed.

Lemma failed_request_is_quiet_witness :
  DB.items_tbl
    (fst (monitor_cycle true
            (mkEnv (1000 # 1) (1000 # 1) (1000 # 1) (GW2API.HTTPError 503) [])
            sample_db))
  = [sample_item].
Proof.
  apply (failed_request_is_quiet true
           (mkEnv (1000 # 1) (1000 # 1) (1000 # 1) (GW2API.HTTPError 503) [])
           sample_db).
  intros body. discriminate.
Defined.

(** ** [clean_all_data] *)

(** X14.  [clean_all_data] empties the store and the logs and keeps the
    rest: afterwards [items()] is empty, the cutoff of the cooldown reads 0,
    every row of the state table has both timestamps 0 and its [custom_dir]
    as before, the directory has the same files, those named [*.log] empty
    and the others with their content; and the next iteration of the
    monitoring loop, at any time that is not negative, finds nothing to do
    and leaves the store as it is. *)
Theorem clean_all_data_resets db logs :
  let db' := fst (clean_all_data db logs) in
  let logs' := snd (clean_all_data db logs) in
  DB.items db' = []
  /\ DB.get_limit_until db' = Some 0
  /\ DB.state_tbl db'
     = map (fun row => DB.mkState 0 0 (DB.custom_dir row))
           (DB.state_tbl (DB.init db))
  /\ map fst logs' = map fst logs
  /\ (forall name content,
         In (name, content) logs ->
         In (name, if ends_with ".log" name then "" else content) logs')
  /\ (forall discord env,
         (0 <= time_check env)%Q ->
         monitor_cycle discord env db'
         = (db', [Print NoItemsInDatabase; Sleep 10])).
Proof.
  intros db' logs'.
  assert (Hstate : DB.state_tbl db'
                   = map (fun row => DB.mkState 0 0 (DB.custom_dir row))
                         (DB.state_tbl (DB.init db))).
  { unfold db', clean_all_data. cbn [fst DB.state_tbl DB.items_tbl].
    rewrite init_initialised; [reflexivity|].
    cbn [DB.state_tbl]. pose proof (init_has_state db) as H.
    destruct (DB.state_tbl (DB.init db)); [congruence | discriminate]. }
  assert (Hrows : DB.items_tbl db' = []).
  { unfold db', clean_all_data. cbn [fst]. rewrite init_items. reflexivity. }
  assert (Hne : DB.state_tbl db' <> []).
  { rewrite Hstate. pose proof (init_has_state db) as H.
    destruct (DB.state_tbl (DB.init db)); [congruence | discriminate]. }
  assert (Hlimit : DB.get_limit_until db' = Some 0).
  { unfold DB.get_limit_until. rewrite Hstate.
    pose proof (init_has_state db) as H.
    destruct (DB.state_tbl (DB.init db)); [congruence | reflexivity]. }
  split; [unfold DB.items; rewrite Hrows; reflexivity|].
  split; [exact Hlimit|]. split; [exact Hstate|]. split; [|split].
  - unfold logs', clean_all_data. cbn [snd]. rewrite map_map.
    apply map_ext. intros [name content]. cbn [fst].
    destruct (ends_with ".log" name); reflexivity.
  - intros name content Hin. unfold logs', clean_all_data. cbn [snd].
    apply in_map_iff. exists (name, content). cbn [fst].
    split; [|exact Hin]. destruct (ends_with ".log" name); reflexivity.
  - intros discord env Htime. unfold monitor_cycle.
    rewrite (init_initialised db' Hne), Hlimit.
    replace (Clock.ltb (time_check env) (inject_Z 0)) with false.
    + unfold DB.items. rewrite Hrows. reflexivity.
    + symmetry. unfold Clock.ltb. apply negb_false_iff, Qle_bool_iff.
      exact Htime.
Qed.

Lemma clean_all_data_resets_witness :
  let db := DB.mk [sample_item] [DB.mkState 7 2200 (Some "/data")] in
  let logs := [("2026-01-01_alerts.log", "line"); ("notes.txt", "kept")] in
  clean_all_data db logs
  = (DB.mk [] [DB.mkState 0 0 (Some "/data")],
     [("2026-01-01_alerts.log", ""); ("notes.txt", "kept")])
  /\ monitor_cycle true
                   (mkEnv (1000 # 1) (1000 # 1) (1000 # 1) GW2API.URLError [])
                   (fst (clean_all_data db logs))
     = (fst (clean_all_data db logs), [Print NoItemsInDatabase; Sleep 10]).
Proof.
  intros db logs. split; [reflexivity|].
  apply (proj2 (proj2 (proj2 (proj2 (proj2 (clean_all_data_resets db logs)))))).
  discriminate.
Defined.

(** ** The notifier *)

Section Notifier.

Import DiscordNotify.

Lemma is_buy_or_sell item : is_sell item = negb (is_buy item).
Proof. unfold is_sell, is_buy. destruct (alert_trigger item); reflexivity. Qed.

Lemma filter_split_length (alert_items : list Alert) :
  (List.length (filter is_buy alert_items)
   + List.length (filter is_sell alert_items))%nat
  = List.length alert_items.
Proof.
  induction alert_items as [|a l IH]; simpl; [reflexivity|].
  rewrite is_buy_or_sell. destruct (is_buy a); simpl; lia.
Qed.

Lemma embeds_lines sb ss alert_items :
  flat_map embed_description (embeds_of sb ss alert_items)
  = map line_of (filter is_buy alert_items ++ filter is_sell alert_items).
Proof.
  unfold embeds_of. rewrite map_app.
  destruct (filter is_buy alert_items) as [|b bs];
    destruct (filter is_sell alert_items) as [|c cs]; simpl;
    rewrite ?app_nil_r; reflexivity.
Qed.


End Notifier.

(** X15.  The message sent covers every alert once: [embeds] is empty only
    for no alerts and has at most two elements, none with an empty
    description; the lines of the descriptions are the lines of the
    buy-triggered alerts followed by those of the sell-triggered alerts, so
    there are as many lines as alerts; and every alert has its line in the
    embed of its direction, SELL opportunity for trigger ['buy'] and BUY
    opportunity for trigger ['sell']. *)
Theorem embeds_cover_alerts stamp_buy stamp_sell alert_items :
  let embeds := DiscordNotify.embeds_of stamp_buy stamp_sell alert_items in
  (embeds = [] <-> alert_items = [])
  /\ (List.length embeds <= 2)%nat
  /\ (forall e, In e embeds -> DiscordNotify.embed_description e <> [])
  /\ flat_map DiscordNotify.embed_description embeds
     = map DiscordNotify.line_of
           (filter DiscordNotify.is_buy alert_items
            ++ filter DiscordNotify.is_sell alert_items)
  /\ List.length (flat_map DiscordNotify.embed_description embeds)
     = List.length alert_items
  /\ forall item,
      In item alert_items ->
      exists e,
        In e embeds
        /\ In (DiscordNotify.line_of item) (DiscordNotify.embed_description e)
        /\ DiscordNotify.embed_title e
           = match alert_trigger item with
             | trigger_buy => DiscordNotify.SellOpportunity
             | trigger_sell => DiscordNotify.BuyOpportunity
             end.
Proof.
  intros embeds.
  assert (Hlines := embeds_lines stamp_buy stamp_sell alert_items).
  fold embeds in Hlines.
  assert (Hlen : List.length (flat_map DiscordNotify.embed_description embeds)
                 = List.length alert_items).
  { rewrite Hlines, length_map, length_app. apply filter_split_length. }
  split; [|split; [|split; [|split; [exact Hlines | split; [exact Hlen|]]]]].
  - split.
    + intros E. rewrite E in Hlen. simpl in Hlen.
      destruct alert_items; [reflexivity | discriminate].
    + intros ->. reflexivity.
  - unfold embeds, DiscordNotify.embeds_of. rewrite length_app.
    destruct (filter DiscordNotify.is_buy alert_items);
      destruct (filter DiscordNotify.is_sell alert_items); simpl; lia.
  - unfold embeds, DiscordNotify.embeds_of. intros e He.
    apply in_app_or in He as [He | He].
    + destruct (filter DiscordNotify.is_buy alert_items); [destruct He|].
      destruct He as [<- | []]. discriminate.
    + destruct (filter DiscordNotify.is_sell alert_items); [destruct He|].
      destruct He as [<- | []]. discriminate.
  - intros item Hin. unfold embeds, DiscordNotify.embeds_of.
    destruct (alert_trigger item) eqn:Et.
    + assert (Hf : In item (filter DiscordNotify.is_buy alert_items)).
      { apply filter_In. split; [exact Hin|].
        unfold DiscordNotify.is_buy. rewrite Et. reflexivity. }
      destruct (filter DiscordNotify.is_buy alert_items) as [|b bs] eqn:E;
        [destruct Hf|].
      eexists. split; [apply in_or_app; left; left; reflexivity|].
      split; [|reflexivity]. cbn [DiscordNotify.embed_description].
      apply in_map. exact Hf.
    + assert (Hf : In item (filter DiscordNotify.is_sell alert_items)).
      { apply filter_In. split; [exact Hin|].
        unfold DiscordNotify.is_sell. rewrite Et. reflexivity. }
      destruct (filter DiscordNotify.is_sell alert_items) as [|b bs] eqn:E;
        [destruct Hf|].
      eexists. split; [apply in_or_app; right; left; reflexivity|].
      split; [|reflexivity]. cbn [DiscordNotify.embed_description].
      apply in_map. exact Hf.
Qed.

Lemma embeds_cover_alerts_witness :
  exists e,
    In e (DiscordNotify.embeds_of "t1" "t2"
            [mkAlert "Mystic Coin" 90 7 100 "coin.png" trigger_sell])
    /\ In (DiscordNotify.mkLine "Mystic Coin" "0g00s90c" 7)
          (DiscordNotify.embed_description e)
    /\ DiscordNotify.embed_title e = DiscordNotify.BuyOpportunity.
Proof.
  apply (proj2 (proj2 (proj2 (proj2 (proj2
           (embeds_cover_alerts "t1" "t2"
              [mkAlert "Mystic Coin" 90 7 100 "coin.png" trigger_sell]))))))
    with (item := mkAlert "Mystic Coin" 90 7 100 "coin.png" trigger_sell).
  left. reflexivity.
Defined.



(** ** The status table *)

(** X17.  The status column of the table agrees with the alerts of the
    loop: for an item and its listing, the words of the status are SELL for
    the alert with trigger ['buy'] and BUY for the alert with trigger
    ['sell'], in the order of the alerts, so the status reads WAIT, and has no
    colour, exactly when the item raised no alert. *)
Theorem status_matches_alerts props prices :
  status_of props prices
  = map (fun a => match alert_trigger a with
                  | trigger_buy => "SELL"
                  | trigger_sell => "BUY"
                  end) (check_item props prices)
  /\ (status_text (status_of props prices) = "WAIT"
      <-> check_item props prices = [])
  /\ (color_code (status_of props prices) = ""
      <-> check_item props prices = []).
Proof.
  unfold status_of, check_item.
  destruct (_ >? _); destruct (_ <? _); cbn;
    (split; [reflexivity|]); split; split; intros H;
    try reflexivity; discriminate H.
Qed.

(** ** What [listings] returns *)

(** X18.  [listings] has an entry exactly for the identifiers that the
    answer contains, and what it holds for an identifier comes from an entry
    of the answer with that identifier: for each side, the order at the head
    of the list of orders of that side, or price 0 and quantity 0 for a side
    without orders.  When the answer has one entry for the identifier, it is
    that one. *)
Theorem listings_of_answer now body db :
  exists prices,
    snd (GW2API.listings now (GW2API.Response (Some body)) db)
    = GW2API.Returned prices
    /\ (forall id, PyDict.get id prices <> None
                   <-> In id (map GW2API.entry_id body))
    /\ (forall id listing,
           PyDict.get id prices = Some listing ->
           exists entry,
             In entry body /\ GW2API.entry_id entry = id
             /\ (forall o rest, GW2API.buys entry = o :: rest ->
                                GW2API.buy listing = o)
             /\ (forall o rest, GW2API.sells entry = o :: rest ->
                                GW2API.sell listing = o)
             /\ (GW2API.buys entry = [] ->
                 GW2API.buy listing = GW2API.mkOrder 0 0)
             /\ (GW2API.sells entry = [] ->
                 GW2API.sell listing = GW2API.mkOrder 0 0))
    /\ (NoDup (map GW2API.entry_id body) ->
        forall entry, In entry body ->
                      PyDict.get (GW2API.entry_id entry) prices
                      = Some (GW2API.listing_of entry)).
Proof.
  exists (PyDict.build GW2API.entry_id GW2API.listing_of body).
  split; [reflexivity|]. split; [|split].
  - intros id. split; [|apply get_build_present].
    intros H. destruct (PyDict.get id _) as [l|] eqn:E; [|congruence].
    apply get_build_some in E as (entry & He & <- & _). apply in_map. exact He.
  - intros id listing H.
    apply get_build_some in H as (entry & He & Hid & <-).
    exists entry. unfold GW2API.listing_of. cbn [GW2API.buy GW2API.sell].
    repeat split; auto;
      try (intros [price quantity] rest ->; reflexivity);
      intros ->; reflexivity.
  - intros Hnd entry He. rewrite build_no_dup by exact Hnd.
    apply (get_keyed_in GW2API.entry_id GW2API.listing_of); assumption.
Qed.

Lemma listings_of_answer_witness :
  let entry := GW2API.mkEntry 42 [GW2API.mkOrder 600 5; GW2API.mkOrder 590 9]
                              [] in
  PyDict.get 42 (PyDict.build GW2API.entry_id GW2API.listing_of [entry])
  = Some (listing_of_prices 600 5 0 0)
  /\ forall listing,
      PyDict.get 42 (PyDict.build GW2API.entry_id GW2API.listing_of [entry])
      = Some listing ->
      GW2API.buy listing = GW2API.mkOrder 600 5
      /\ GW2API.sell listing = GW2API.mkOrder 0 0.
Proof.
  intros entry.
  destruct (listings_of_answer (0 # 1) [entry] sample_db)
    as (prices & E & _ & Hfrom & Hone).
  injection E as <-. split.
  - apply (Hone ltac:(repeat constructor; simpl; tauto) entry).
    left. reflexivity.
  - intros listing Hget.
    destruct (Hfrom 42 listing Hget)
      as (e & [<- | []] & _ & Hbuy & _ & _ & Hsell).
    split; [apply (Hbuy _ _ eq_refl) | apply Hsell; reflexivity].
Defined.

(** ** The commands *)

Section Commands.

Lemma items_init db : DB.items (DB.init db) = DB.items db.
Proof. unfold DB.items. rewrite init_items. reflexivity. Qed.

Lemma parse_if_given_accepted text copper :
  text <> ""%string -> parse_price_input text = Price copper ->
  parse_if_given (Some text) = Some (Some copper).
Proof.
  intros Hne H. destruct text as [|c text]; [congruence|].
  unfold parse_if_given. rewrite H. reflexivity.
Qed.

(** [itemAdd] when no row has the identifier or the name. *)
Lemma itemAdd_fresh db i n icon b s :
  DB.primary_key db ->
  (forall row, In row (DB.items_tbl db) -> DB.id row <> i /\ DB.name row <> n) ->
  DB.itemAdd db i n icon b s
  = (DB.mk (DB.insert_row (DB.mkItem i n b s DB.LOWEST_SEEN_RESET 0 0 icon)
                          (DB.items_tbl db))
           (DB.state_tbl db),
     DB.Added)
  /\ DB.primary_key (fst (DB.itemAdd db i n icon b s))
  /\ PyDict.get i (DB.items (fst (DB.itemAdd db i n icon b s)))
     = Some (DB.mkItem i n b s DB.LOWEST_SEEN_RESET 0 0 icon).
Proof.
  intros Hpk Hfresh.
  assert (Hcount : (DB.count_id_or_name i n db >? 0) = false).
  { destruct (DB.count_id_or_name i n db >? 0) eqn:E; [|reflexivity].
    apply Z.gtb_gt, count_id_or_name_positive in E as (row & Hin & Hrow).
    destruct (Hfresh row Hin). tauto. }
  assert (Hnew : ~ In i (map DB.id (DB.items_tbl db))).
  { intros H. apply in_map_iff in H as (row & E & H).
    destruct (Hfresh row H). auto. }
  unfold DB.itemAdd. rewrite Hcount. cbn [fst].
  assert (Hpk' : DB.primary_key
                   (DB.mk (DB.insert_row
                             (DB.mkItem i n b s DB.LOWEST_SEEN_RESET 0 0 icon)
                             (DB.items_tbl db)) (DB.state_tbl db))).
  { apply insert_row_no_dup; assumption. }
  split; [reflexivity|]. split; [exact Hpk'|].
  apply items_get; [exact Hpk'|]. split; [|reflexivity].
  apply in_insert_row. auto.
Qed.

End Commands.

(** X19.  [actionThreshold] with no threshold to set, each one absent or
    the empty text, reports a failure and leaves the store as [DB()] opened
    it, whether the item exists or not.  With a buy threshold that parses, on
    a store with its primary key and for an item that is there, it reports
    the update and [items()] then holds the item with that buy threshold,
    [lowest_seen] reset and every other column as before; this is for a text
    whose amounts have at most 4300 digits each, the limit of the
    interpreter, and an identifier and a threshold that fit a 64-bit INTEGER,
    which is what the database binds. *)
Theorem actionThreshold_outcomes id db :
  (forall buy sell,
      buy = None \/ buy = Some ""%string ->
      sell = None \/ sell = Some ""%string ->
      actionThreshold id buy sell db = (DB.init db, [FailedToUpdateThreshold]))
  /\ (forall old text b,
         DB.primary_key db ->
         PyDict.get id (DB.items db) = Some old ->
         text <> ""%string -> parse_price_input text = Price b ->
         PyStr.int_in_limit (PyStr.of_string text) ->
         DB.fits id -> DB.fits b ->
         exists db',
           actionThreshold id (Some text) None db
           = (db', [BuyThresholdUpdated b])
           /\ PyDict.get id (DB.items db')
              = Some (DB.mkItem (DB.id old) (DB.name old) b
                                (DB.sell_threshold old) 999999999
                                (DB.last_buy_price old) (DB.last_sell_price old)
                                (DB.icon_url old))).
Proof.
  split.
  - intros buy sell [-> | ->] [-> | ->]; reflexivity.
  - intros old text b Hpk Hold Hne Hparse _ _ _.
    pose proof (init_primary_key db Hpk) as Hpki.
    rewrite <- items_init in Hold.
    unfold actionThreshold.
    rewrite (parse_if_given_accepted text b Hne Hparse). cbn [parse_if_given].
    unfold DB.itemThreshold.
    rewrite rowcount_present by eauto using get_present. cbn [Z.eqb Pos.eqb].
    eexists. split; [reflexivity|].
    match goal with
    | |- context [DB.update_where_id id ?f (DB.init db)] =>
        destruct (update_where_id_spec id f (DB.init db) Hpki)
          as (_ & _ & Hget & _); [reflexivity|]
    end.
    rewrite (Hget old Hold). reflexivity.
Qed.

Lemma actionThreshold_outcomes_witness :
  actionThreshold 42 (Some ""%string) None sample_db
  = (sample_db, [FailedToUpdateThreshold])
  /\ exists db',
       actionThreshold 42 (Some "7g50s"%string) None sample_db
       = (db', [BuyThresholdUpdated 75000])
       /\ PyDict.get 42 (DB.items db')
          = Some (DB.mkItem 42 "Mystic Coin" 75000 100 999999999 0 0 "coin.png").
Proof.
  assert (Hpk : DB.primary_key sample_db).
  { constructor; [simpl; tauto | constructor]. }
  split.
  - apply (proj1 (actionThreshold_outcomes 42 sample_db) (Some ""%string) None);
      auto.
  - apply (proj2 (actionThreshold_outcomes 42 sample_db) sample_item
                 "7g50s"%string 75000 Hpk);
      [reflexivity | discriminate | reflexivity | reflexivity
       | unfold DB.fits; lia | unfold DB.fits; lia].
Defined.

(** X20.  [actionAdd]: answered 429 it adds nothing and leaves the cutoff
    of a cooldown of 1200 seconds in the store; answered with no item it
    prints nothing and adds nothing; answered with one item, and given two
    thresholds that parse, it adds the item with these thresholds and last
    prices 0 when no row has its identifier or name, on a store with its
    primary key, and otherwise reports an invalid threshold format and leaves
    the rows as they were.  Every answer that is no error resets the
    cooldown.  Where thresholds are parsed and the store is asked, this is
    for texts whose amounts have at most 4300 digits each, the limit of the
    interpreter, and for an identifier and, where the row is inserted,
    thresholds that fit a 64-bit INTEGER, which is what the database
    binds. *)
Theorem actionAdd_outcomes now buy sell db :
  actionAdd now (GW2API.HTTPError 429) buy sell db
  = (DB.set_limit_until (Clock.int now + 1200) (DB.init db), [RateLimitHit])
  /\ actionAdd now (GW2API.Response (Some [])) buy sell db
     = (DB.set_limit_until 0 (DB.init db), [])
  /\ (forall item b s,
         parse_price_input buy = Price b -> parse_price_input sell = Price s ->
         PyStr.int_in_limit (PyStr.of_string buy) ->
         PyStr.int_in_limit (PyStr.of_string sell) ->
         DB.fits (GW2API.meta_id item) -> DB.fits b -> DB.fits s ->
         DB.primary_key db ->
         (forall row, In row (DB.items_tbl db) ->
                      DB.id row <> GW2API.meta_id item
                      /\ DB.name row <> GW2API.meta_name item) ->
         exists db',
           actionAdd now (GW2API.Response (Some [item])) buy sell db
           = (db', [ItemAdded (GW2API.meta_name item) b s])
           /\ PyDict.get (GW2API.meta_id item) (DB.items db')
              = Some (DB.mkItem (GW2API.meta_id item) (GW2API.meta_name item)
                                b s 999999999 0 0 (GW2API.meta_icon item))
           /\ DB.get_limit_until db' = Some 0)
  /\ (forall item b s,
         parse_price_input buy = Price b -> parse_price_input sell = Price s ->
         PyStr.int_in_limit (PyStr.of_string buy) ->
         PyStr.int_in_limit (PyStr.of_string sell) ->
         DB.fits (GW2API.meta_id item) ->
         (exists row, In row (DB.items_tbl db)
                      /\ (DB.id row = GW2API.meta_id item
                          \/ DB.name row = GW2API.meta_name item)) ->
         actionAdd now (GW2API.Response (Some [item])) buy sell db
         = (DB.set_limit_until 0 (DB.init db), [InvalidThresholdFormat])).
Proof.
  split; [|split; [|split]].
  - unfold actionAdd, GW2API.items. rewrite fetch_rate_limited, init_init.
    reflexivity.
  - unfold actionAdd, GW2API.items, GW2API.fetch. rewrite init_init.
    reflexivity.
  - intros item b s Hb Hs _ _ _ _ _ Hpk Hfresh.
    unfold actionAdd, GW2API.items, GW2API.fetch. rewrite init_init.
    cbn [PyDict.build fold_left PyDict.set add_each]. rewrite Hb, Hs.
    set (db1 := DB.set_limit_until 0 (DB.init db)).
    assert (Hrows : DB.items_tbl db1 = DB.items_tbl db) by apply init_items.
    destruct (itemAdd_fresh db1 (GW2API.meta_id item) (GW2API.meta_name item)
                (GW2API.meta_icon item) b s) as (Hadd & _ & Hget).
    { unfold DB.primary_key. rewrite Hrows. exact Hpk. }
    { rewrite Hrows. exact Hfresh. }
    rewrite Hadd in Hget |- *. cbn [fst] in Hget. cbn [app].
    eexists. split; [reflexivity|]. split; [exact Hget|].
    unfold DB.get_limit_until. cbn [DB.state_tbl].
    apply (limit_until_set 0 (DB.init db)), init_has_state.
  - intros item b s Hb Hs _ _ _ Hdup.
    unfold actionAdd, GW2API.items, GW2API.fetch. rewrite init_init.
    cbn [PyDict.build fold_left PyDict.set add_each]. rewrite Hb, Hs.
    set (db1 := DB.set_limit_until 0 (DB.init db)).
    assert (Hcount : DB.count_id_or_name (GW2API.meta_id item)
                                         (GW2API.meta_name item) db1 > 0).
    { apply count_id_or_name_positive.
      destruct Hdup as (row & Hin & Hrow). exists row. split; [|exact Hrow].
      unfold db1. cbn [DB.items_tbl DB.set_limit_until].
      rewrite init_items. exact Hin. }
    unfold DB.itemAdd. apply Z.gtb_gt in Hcount. rewrite Hcount. reflexivity.
Qed.

Lemma actionAdd_outcomes_witness :
  exists db',
    actionAdd (1000 # 1)
              (GW2API.Response (Some [GW2API.mkMeta 7 "Glob of Ectoplasm" "ecto.png"]))
              "1g" "50s" sample_db
    = (db', [ItemAdded "Glob of Ectoplasm" 10000 5000])
    /\ PyDict.get 7 (DB.items db')
       = Some (DB.mkItem 7 "Glob of Ectoplasm" 10000 5000 999999999 0 0 "ecto.png")
    /\ DB.get_limit_until db' = Some 0.
Proof.
  assert (Hpk : DB.primary_key sample_db).
  { constructor; [simpl; tauto | constructor]. }
  assert (Hfits : DB.fits 7 /\ DB.fits 10000 /\ DB.fits 5000).
  { unfold DB.fits. lia. }
  destruct Hfits as (Hid & Hbuy & Hsell).
  apply (proj1 (proj2 (proj2 (actionAdd_outcomes (1000 # 1) "1g" "50s" sample_db)))
               (GW2API.mkMeta 7 "Glob of Ectoplasm" "ecto.png") 10000 5000
               eq_refl eq_refl eq_refl eq_refl Hid Hbuy Hsell Hpk).
  intros row [<- | []]. split; discriminate.
Defined.

(** ** Choosing a log *)

Section ViewLogs.

Lemma nth_error_in_range {A : Type} (l : list A) k :
  (k < List.length l)%nat -> exists x, nth_error l k = Some x.
Proof.
  intros H. destruct (nth_error l k) as [x|] eqn:E; [eauto|].
  apply nth_error_None in E. lia.
Qed.

Lemma py_index_cases {A : Type} (l : list A) i :
  let n := Z.of_nat (List.length l) in
  (0 <= i < n ->
   exists x, nth_error l (Z.to_nat i) = Some x /\ py_index l i = Some x)
  /\ (- n <= i < 0 ->
      exists x, nth_error l (Z.to_nat (n + i)) = Some x
                /\ py_index l i = Some x)
  /\ (i < - n \/ n <= i -> py_index l i = None).
Proof.
  intros n. unfold py_index. fold n. repeat split.
  - intros H. destruct (nth_error_in_range l (Z.to_nat i)) as (x & E); [lia|].
    exists x. split; [exact E|].
    replace ((0 <=? i) && (i <? n)) with true; [exact E|].
    symmetry. apply andb_true_iff. split; [apply Z.leb_le | apply Z.ltb_lt]; lia.
  - intros H.
    destruct (nth_error_in_range l (Z.to_nat (n + i))) as (x & E); [lia|].
    exists x. split; [exact E|].
    replace (0 <=? i) with false by (symmetry; apply Z.leb_gt; lia).
    cbn [andb].
    replace ((- n <=? i) && (i <? 0)) with true; [exact E|].
    symmetry. apply andb_true_iff. split; [apply Z.leb_le | apply Z.ltb_lt]; lia.
  - intros H.
    replace ((0 <=? i) && (i <? n)) with false.
    + replace ((- n <=? i) && (i <? 0)) with false; [reflexivity|].
      symmetry. apply andb_false_iff.
      destruct H; [left; apply Z.leb_gt | right; apply Z.ltb_ge]; lia.
    + symmetry. apply andb_false_iff.
      destruct H; [left; apply Z.leb_gt | right; apply Z.ltb_ge]; lia.
Qed.

(** Sorting a list that is in order leaves it as it is. *)
Lemma sorted_in_order l :
  Sorted.Sorted (fun a b => String.leb a b = true) l -> sorted l = l.
Proof.
  induction 1 as [|x l _ IH Hhd]; [reflexivity|].
  unfold sorted in *. cbn [fold_right]. rewrite IH.
  destruct Hhd as [|y l Hxy]; cbn [insert_sorted]; [reflexivity|].
  rewrite Hxy. reflexivity.
Qed.

End ViewLogs.

(** X21.  Which log [view_logs] shows: with n files named [*.log] in the
    directory, a choice k from 1 to n shows the k-th of them in the order of
    the directory listing, which is the k-th line of the numbered list on the
    screen when that listing is in ascending order; a choice from 1 - n to -1
    is not refused but shows a file counted from the end of the listing; 0
    cancels, and any other number is an invalid selection. *)
Theorem view_logs_selection listing k :
  let logs := filter (ends_with ".log") listing in
  let n := Z.of_nat (List.length logs) in
  (1 <= k <= n ->
   exists selected, nth_error logs (Z.to_nat (k - 1)) = Some selected
                    /\ snd (view_logs listing (Some k)) = Shown selected)
  /\ (1 - n <= k <= -1 ->
      exists selected, nth_error logs (Z.to_nat (n + k - 1)) = Some selected
                       /\ snd (view_logs listing (Some k)) = Shown selected)
  /\ (0 < n -> snd (view_logs listing (Some 0)) = Cancelled)
  /\ (0 < n -> k < 1 - n \/ n < k ->
      snd (view_logs listing (Some k)) = InvalidSelection)
  /\ (Sorted.Sorted (fun a b => String.leb a b = true) logs ->
      fst (view_logs listing (Some k)) = logs).
Proof.
  intros logs n.
  destruct (py_index_cases logs (k - 1)) as (Hin & Hneg & Hout). fold n in Hin, Hneg, Hout.
  unfold view_logs. fold logs.
  repeat split.
  - intros Hk. destruct Hin as (x & E & Hx); [lia|]. exists x.
    split; [exact E|].
    destruct logs as [|f fs] eqn:El; [simpl in n; lia|].
    replace (k =? 0) with false by (symmetry; apply Z.eqb_neq; lia).
    rewrite Hx. reflexivity.
  - intros Hk. destruct Hneg as (x & E & Hx); [lia|]. exists x.
    split; [replace (n + k - 1) with (n + (k - 1)) by lia; exact E|].
    destruct logs as [|f fs] eqn:El; [simpl in n; lia|].
    replace (k =? 0) with false by (symmetry; apply Z.eqb_neq; lia).
    rewrite Hx. reflexivity.
  - intros Hn. destruct logs as [|f fs] eqn:El; [simpl in n; lia|].
    reflexivity.
  - intros Hn Hk. destruct logs as [|f fs] eqn:El; [simpl in n; lia|].
    replace (k =? 0) with false by (symmetry; apply Z.eqb_neq; lia).
    rewrite Hout by lia. reflexivity.
  - intros Hs. destruct logs as [|f fs] eqn:El; [reflexivity|].
    rewrite (sorted_in_order _ Hs).
    destruct (k =? 0); [reflexivity|].
    destruct (py_index (f :: fs) (k - 1)); reflexivity.
Qed.

Lemma view_logs_selection_witness :
  view_logs ["b.log"; "notes.txt"; "a.log"; "c.log"] (Some 1)
  = (["a.log"; "b.log"; "c.log"], Shown "b.log")
  /\ exists selected,
       snd (view_logs ["b.log"; "notes.txt"; "a.log"; "c.log"] (Some (-1)))
       = Shown selected.
Proof.
  split; [reflexivity|].
  destruct (proj1 (proj2 (view_logs_selection
                            ["b.log"; "notes.txt"; "a.log"; "c.log"] (-1))))
    as (selected & _ & H); [simpl; lia|].
  exists selected. exact H.
Defined.

(** ** Opening the store *)

(** X22.  [DB()] can be repeated without effect and leaves the items alone;
    it gives the state table its row when it has none, with the cutoff of the
    cooldown at 0, and changes nothing when there is one.  On a store that has
    been opened, a value written to [limit_until] that fits a 64-bit INTEGER,
    which is what the database binds, is the value read back, and writing it
    changes neither the items nor [last_run] and [custom_dir]. *)
Theorem store_opening db :
  DB.init (DB.init db) = DB.init db
  /\ DB.items_tbl (DB.init db) = DB.items_tbl db
  /\ (DB.state_tbl db = [] -> DB.get_limit_until (DB.init db) = Some 0)
  /\ (DB.state_tbl db <> [] -> DB.init db = db)
  /\ forall value,
      DB.fits value ->
      let db' := DB.set_limit_until value (DB.init db) in
      DB.get_limit_until db' = Some value
      /\ DB.items_tbl db' = DB.items_tbl db
      /\ map (fun row => (DB.last_run row, DB.custom_dir row)) (DB.state_tbl db')
         = map (fun row => (DB.last_run row, DB.custom_dir row))
               (DB.state_tbl (DB.init db)).
Proof.
  split; [apply init_init|]. split; [apply init_items|].
  split; [|split; [apply init_initialised|]].
  - intros E. unfold DB.init, DB.get_limit_until. rewrite E. reflexivity.
  - intros value _ db'. split; [apply limit_until_set, init_has_state|].
    split; [apply init_items|].
    unfold db'. cbn [DB.set_limit_until DB.state_tbl]. rewrite map_map.
    reflexivity.
Qed.

Lemma store_opening_witness :
  DB.get_limit_until (DB.init DB.empty) = Some 0
  /\ DB.init sample_db = sample_db
  /\ DB.get_limit_until (DB.set_limit_until 2200 (DB.init DB.empty))
     = Some 2200.
Proof.
  split; [|split].
  - apply (proj1 (proj2 (proj2 (store_opening DB.empty)))). reflexivity.
  - apply (proj1 (proj2 (proj2 (proj2 (store_opening sample_db))))). discriminate.
  - apply (proj2 (proj2 (proj2 (proj2 (store_opening DB.empty)))) 2200).
    unfold DB.fits. lia.
Defined.
